(** * JEE_GUY: session store, streaming aggregator and view controller

    A shallow embedding of [App.tsx] (the [App] component) and [types.ts].

    - State.  The [useState] cells and the ref cell [chatRef] are the fields
      of one record, [App]; [setX(prev => f prev)] applies [f] to the field.
      A handler reads the cells as they are when it is called: the
      component is taken to have re-rendered between two actions.
    - Asynchrony.  An invocation of [handleSendMessage] is a value of type
      [Send.t]: its local variables and the [await] it is suspended at.
      The environment resumes it with an [Event]; invocations interleave
      with each other and with the controller's handlers in [System].
    - Clock.  Every reading of [Date.now()] is supplied by the environment
      with the action that triggers the read; nothing is assumed of the
      readings, so that two of them may be equal.
    - Strings are sequences of 8-bit code units.
    - External collaborators ([fileToBase64], [URL.createObjectURL],
      [startChatSession], the stream) appear through their results.
      [JSON.stringify] and [JSON.parse] are parameters of the load and save
      effects; [JSON.parse] returns a value of any shape, [JSValue];
      [Json] is a reference codec. *)

From Stdlib Require Import ZArith List String Ascii Bool Lia.
From Stdlib Require Import DecimalString DecimalZ.
Import ListNotations.
Open Scope string_scope.
Open Scope list_scope.

(** ** JavaScript strings and numbers *)

Module JS.

(** [`${n}`] for an integral number: minus sign and decimal digits. *)
Definition numToString (n : Z) : string :=
  NilZero.string_of_int (Z.to_int n).

(** White space and line terminators removed by [String.prototype.trim],
    restricted to the 8-bit code units a [string] holds here. *)
Definition isWhiteSpace (c : ascii) : bool :=
  match nat_of_ascii c with
  | 9 | 10 | 11 | 12 | 13 | 32 | 160 => true
  | _ => false
  end.

Fixpoint trimStart (s : string) : string :=
  match s with
  | EmptyString => EmptyString
  | String c r => if isWhiteSpace c then trimStart r else s
  end.

(** [trimEnd] drops a character when it is white space and everything
    after it has been dropped. *)
Fixpoint trimEnd (s : string) : string :=
  match s with
  | EmptyString => EmptyString
  | String c r =>
      match trimEnd r with
      | EmptyString => if isWhiteSpace c then EmptyString else String c EmptyString
      | r' => String c r'
      end
  end.

Definition trim (s : string) : string := trimEnd (trimStart s).

(** Truthiness of a string: only [""] is falsy. *)
Definition truthy (s : string) : bool :=
  match s with EmptyString => false | _ => true end.

(** [a || b] on strings. *)
Definition or (a b : string) : string := if truthy a then a else b.

(** [s.substring(0, n)]. *)
Definition substring0 (n : nat) (s : string) : string := String.substring 0 n s.

(** Every character of [s] is white space. *)
Fixpoint allWhiteSpace (s : string) : bool :=
  match s with
  | EmptyString => true
  | String c r => isWhiteSpace c && allWhiteSpace r
  end.

(** [c] occurs in [s]. *)
Fixpoint occurs (c : ascii) (s : string) : bool :=
  match s with
  | EmptyString => false
  | String d r => Ascii.eqb c d || occurs c r
  end.

End JS.

(** ** types.ts *)

Inductive ChatRole := user | model.

Module Attachment.
Record t := mk { name : string; type : string; url : string; data : string }.
End Attachment.

Module ChatMessage.
(** [attachments?]: [None] when the property is absent. *)
Record t := mk {
  id : string;
  role : ChatRole;
  text : string;
  attachments : option (list Attachment.t) }.

(** [{...m, text: x}] *)
Definition withText (m : t) (x : string) : t :=
  mk (id m) (role m) x (attachments m).
End ChatMessage.

Module ChatSession.
Record t := mk {
  id : string;
  title : string;
  messages : list ChatMessage.t;
  createdAt : string }.

(** [{...s, messages: ms}] *)
Definition withMessages (s : t) (ms : list ChatMessage.t) : t :=
  mk (id s) (title s) ms (createdAt s).
End ChatSession.

(** ** App.tsx: state *)

Inductive View := main | chat | history | call.

(** The handle returned by [startChatSession]; only its identity matters. *)
Definition Chat := nat.

Record App := mkApp {
  view : View;
  sessions : list ChatSession.t;
  currentSessionId : option string;
  isLoading : bool;
  error : option string;
  chatRef : option Chat }.

(** The values of the [useState] and [useRef] initialisers. *)
Definition initialApp : App := mkApp main [] None false None None.

Definition setView (v : View) (a : App) : App :=
  mkApp v (sessions a) (currentSessionId a) (isLoading a) (error a) (chatRef a).
Definition setSessions (f : list ChatSession.t -> list ChatSession.t) (a : App) : App :=
  mkApp (view a) (f (sessions a)) (currentSessionId a) (isLoading a) (error a) (chatRef a).
Definition setCurrentSessionId (i : option string) (a : App) : App :=
  mkApp (view a) (sessions a) i (isLoading a) (error a) (chatRef a).
Definition setIsLoading (b : bool) (a : App) : App :=
  mkApp (view a) (sessions a) (currentSessionId a) b (error a) (chatRef a).
Definition setError (e : option string) (a : App) : App :=
  mkApp (view a) (sessions a) (currentSessionId a) (isLoading a) e (chatRef a).
Definition setChatRef (c : option Chat) (a : App) : App :=
  mkApp (view a) (sessions a) (currentSessionId a) (isLoading a) (error a) c.

(** ** Identifiers minted from [Date.now()] *)

(** [`session-${Date.now()}`] *)
Definition sessionIdAt (now : Z) : string := "session-" ++ JS.numToString now.
(** [`msg-${Date.now()}`] *)
Definition userMessageIdAt (now : Z) : string := "msg-" ++ JS.numToString now.
(** [`msg-${Date.now()}-model`] *)
Definition modelMessageIdAt (now : Z) : string :=
  "msg-" ++ JS.numToString now ++ "-model".
(** [`err-${Date.now()}`] *)
Definition errorMessageIdAt (now : Z) : string := "err-" ++ JS.numToString now.

(** ** App.tsx: [handleSendMessage] *)

(** A [File] together with what the external collaborators make of it:
    [fileToBase64(file)] and [URL.createObjectURL(file)]. *)
Module File.
Record t := mk { name : string; type : string; base64 : string; objectURL : string }.
End File.

Definition toAttachment (file : File.t) : Attachment.t :=
  Attachment.mk (File.name file) (File.type file) (File.objectURL file) (File.base64 file).

(** [prev => prev.map(s => s.id === sessionId
       ? { ...s, messages: [...s.messages, m] } : s)] *)
Definition appendMessage (sessionId : string) (m : ChatMessage.t)
    (prev : list ChatSession.t) : list ChatSession.t :=
  map (fun s =>
         if String.eqb (ChatSession.id s) sessionId
         then ChatSession.withMessages s (ChatSession.messages s ++ [m])
         else s) prev.

(** [prev => prev.map(s => s.id === sessionId
       ? { ...s, messages: s.messages.map(m =>
             m.id === modelMessageId ? {...m, text: modelResponse} : m) } : s)] *)
Definition foldResponse (sessionId modelMessageId modelResponse : string)
    (prev : list ChatSession.t) : list ChatSession.t :=
  map (fun s =>
         if String.eqb (ChatSession.id s) sessionId
         then ChatSession.withMessages s
                (map (fun m =>
                        if String.eqb (ChatMessage.id m) modelMessageId
                        then ChatMessage.withText m modelResponse
                        else m) (ChatSession.messages s))
         else s) prev.

(** Where an invocation of [handleSendMessage] is suspended. *)
Inductive Phase :=
| AwaitAttachments                                    (* await Promise.all(...) *)
| AwaitStream                                         (* await sendMessageStream(...) *)
| Streaming (modelMessageId modelResponse : string)   (* for await (chunk of stream) *)
| Returned                                            (* left through [finally] *)
| Rejected.                                           (* thrown out of, before the [try] *)

(** The local variables of one invocation: the arguments, the [view] the
    closure captured, and [sessionId]. *)
Module Send.
Record t := mk {
  text : string;
  files : list File.t;
  view : View;
  sessionId : string;
  phase : Phase }.

Definition at_ (p : Phase) (x : t) : t :=
  mk (text x) (files x) (view x) (sessionId x) p.
End Send.

(** What resumes a suspended invocation.  [now] is the value [Date.now()]
    has when the resumed code reads it. *)
Inductive Event :=
| AttachmentsResolved (now nowCatch : Z)  (* nowCatch: read in [catch] when chatRef.current is null *)
| StreamOpened (now : Z)
| Chunk (text : string)
| StreamDone
| Fault (now : Z).                        (* the awaited promise rejects / the iterator throws;
                                             now: read in [catch], when the [try] is entered *)

Definition errorMessage : string := "An error occurred. Please try again.".

(** The [catch] block followed by [finally]. *)
Definition catchFinally (now : Z) (sessionId : string) (a : App) : App :=
  let a := setError (Some errorMessage) a in
  let errorMsg := ChatMessage.mk (errorMessageIdAt now) model errorMessage None in
  let a := setSessions (appendMessage sessionId errorMsg) a in
  setIsLoading false a.

(** [!sessionId] for [sessionId : string | null]. *)
Definition noSession (sessionId : option string) : bool :=
  match sessionId with
  | None => true
  | Some s => negb (JS.truthy s)
  end.

Definition isNull {A} (x : option A) : bool :=
  match x with None => true | Some _ => false end.

(** The session literal built at lines 91-96. *)
Definition newSession (sessionId text iso : string) : ChatSession.t :=
  ChatSession.mk sessionId (JS.or (JS.substring0 40 text) "New Chat") [] iso.

(** The synchronous prefix of [handleSendMessage], up to the first [await].
    [now] is [Date.now()] and [iso] is [new Date().toISOString()], both read
    only when a session is created.  [None]: the guard returned. *)
Definition handleSendMessage (text : string) (files : list File.t)
    (now : Z) (iso : string) (a : App) : App * option Send.t :=
  if (negb (JS.truthy (JS.trim text)) && (List.length files =? 0)%nat)
     || isNull (chatRef a)
  then (a, None)
  else
    let a1 := setError None (setIsLoading true a) in
    let '(sessionId, a2) :=
      if noSession (currentSessionId a)
      then
        let sessionId := sessionIdAt now in
        let a1 := setCurrentSessionId (Some sessionId) a1 in
        (sessionId, setSessions (fun prev => newSession sessionId text iso :: prev) a1)
      else
        (match currentSessionId a with Some s => s | None => EmptyString end, a1)
    in
    (a2, Some (Send.mk text files (view a) sessionId AwaitAttachments)).

Definition isMain (v : View) : bool :=
  match v with main => true | _ => false end.

(** The continuation of [handleSendMessage] after each [await].  The first
    [await], of [Promise.all] over the encodings of the files, stands before
    the [try]: when it rejects, the invocation ends there, and neither
    [catch] nor [finally] runs. *)
Definition resume (ev : Event) (x : Send.t) (a : App) : App * Send.t :=
  let sessionId := Send.sessionId x in
  match Send.phase x, ev with
  | AwaitAttachments, AttachmentsResolved now nowCatch =>
      let attachments := map toAttachment (Send.files x) in
      let userMessage :=
        ChatMessage.mk (userMessageIdAt now) user (Send.text x) (Some attachments) in
      let a := setSessions (appendMessage sessionId userMessage) a in
      let a := if isMain (Send.view x) then setView chat a else a in
      (* try *)
      match chatRef a with
      | None => (catchFinally nowCatch sessionId a, Send.at_ Returned x)
      | Some _ => (a, Send.at_ AwaitStream x)
      end
  | AwaitAttachments, Fault _ =>
      (* [Promise.all] over no file is resolved: nothing can reject *)
      (a, match Send.files x with [] => x | _ :: _ => Send.at_ Rejected x end)
  | AwaitStream, StreamOpened now =>
      let modelMessageId := modelMessageIdAt now in
      let modelMessage := ChatMessage.mk modelMessageId model "" None in
      (setSessions (appendMessage sessionId modelMessage) a,
       Send.at_ (Streaming modelMessageId "") x)
  | Streaming modelMessageId modelResponse, Chunk text =>
      let modelResponse := (modelResponse ++ text)%string in
      (setSessions (foldResponse sessionId modelMessageId modelResponse) a,
       Send.at_ (Streaming modelMessageId modelResponse) x)
  | Streaming _ _, StreamDone =>
      (setIsLoading false a, Send.at_ Returned x)
  | AwaitStream, Fault now
  | Streaming _ _, Fault now =>
      (catchFinally now sessionId a, Send.at_ Returned x)
  | _, _ => (a, x)
  end.

(** ** App.tsx: the controller *)

(** [startNewChat], up to the [await] inside [initializeChat]. *)
Definition startNewChat (a : App) : App :=
  let a := setCurrentSessionId None a in
  let a := setChatRef None a in
  let a := setIsLoading true a in   (* initializeChat() *)
  setView main a.

(** [loadChat], up to the [await] inside [initializeChat]. *)
Definition loadChat (sessionId : string) (a : App) : App :=
  let a := setCurrentSessionId (Some sessionId) a in
  let a := setChatRef None a in
  let a := setIsLoading true a in   (* initializeChat(sessionId) *)
  setView chat a.

(** [initializeChat] after [await startChatSession()]: [Some h] when the
    promise resolved with handle [h], [None] when it rejected. *)
Definition initializeChatDone (r : option Chat) (a : App) : App :=
  match r with
  | Some h => setIsLoading false (setError None (setChatRef (Some h) a))
  | None =>
      setIsLoading false
        (setError (Some "Failed to initialize chat session. Check API key.") a)
  end.

(** The effect [if (!chatRef.current) initializeChat()], which runs on mount
    and after every change of [sessions], up to the [await]. *)
Definition initEffect (a : App) : App :=
  if isNull (chatRef a) then setIsLoading true a else a.

(** [onStartCall]. *)
Definition startCall (a : App) : App := setView call (setIsLoading true a).

(** [onBack] of the history view. *)
Definition back (a : App) : App :=
  setView (if noSession (currentSessionId a) then main else chat) a.

(** The component with its invocations of [handleSendMessage] in flight. *)
Record System := mkSystem { app : App; sends : list Send.t }.

Inductive Action :=
| CallSend (text : string) (files : list File.t) (now : Z) (iso : string)
| Resume (i : nat) (ev : Event)
| NewChat
| LoadChat (sessionId : string)
| InitEffect
| InitDone (r : option Chat)
| OpenHistory
| HistoryBack
| StartCall
| EndCall.

Fixpoint replaceNth {A} (i : nat) (x : A) (l : list A) : list A :=
  match l, i with
  | [], _ => []
  | _ :: r, O => x :: r
  | y :: r, S j => y :: replaceNth j x r
  end.

Definition step (act : Action) (s : System) : System :=
  match act with
  | CallSend text files now iso =>
      match handleSendMessage text files now iso (app s) with
      | (a, Some x) => mkSystem a (sends s ++ [x])
      | (a, None) => mkSystem a (sends s)
      end
  | Resume i ev =>
      match nth_error (sends s) i with
      | Some x =>
          let '(a, x') := resume ev x (app s) in
          mkSystem a (replaceNth i x' (sends s))
      | None => s
      end
  | NewChat => mkSystem (startNewChat (app s)) (sends s)
  | LoadChat sessionId => mkSystem (loadChat sessionId (app s)) (sends s)
  | InitEffect => mkSystem (initEffect (app s)) (sends s)
  | InitDone r => mkSystem (initializeChatDone r (app s)) (sends s)
  | OpenHistory => mkSystem (setView history (app s)) (sends s)
  | HistoryBack => mkSystem (back (app s)) (sends s)
  | StartCall => mkSystem (startCall (app s)) (sends s)
  | EndCall => mkSystem (setView chat (app s)) (sends s)
  end.

Definition run (acts : list Action) (s : System) : System :=
  fold_left (fun s act => step act s) acts s.

(** The component after mounting, before any storage content is applied. *)
Definition initialSystem : System := mkSystem initialApp [].

(** ** Exceptions *)

(** The outcome of code that may throw. *)
Inductive Completion (A : Type) :=
| Normal (a : A)
| Throw (e : string).
Arguments Normal {A} a.
Arguments Throw {A} e.

Definition bind {A B} (c : Completion A) (k : A -> Completion B) : Completion B :=
  match c with
  | Normal a => k a
  | Throw e => Throw e
  end.

(** [try { body } catch (e) { handler }] *)
Definition tryCatch {A} (body : Completion A) (handler : string -> Completion A)
  : Completion A :=
  match body with
  | Normal a => Normal a
  | Throw e => handler e
  end.

(** ** localStorage *)

Module LocalStorage.

(** The stored items and the number of characters the store accepts. *)
Record t := mk { items : list (string * string); quota : nat }.

Fixpoint lookup (key : string) (l : list (string * string)) : option string :=
  match l with
  | [] => None
  | (k, v) :: r => if String.eqb k key then Some v else lookup key r
  end.

Fixpoint remove (key : string) (l : list (string * string)) : list (string * string) :=
  match l with
  | [] => []
  | (k, v) :: r => if String.eqb k key then remove key r else (k, v) :: remove key r
  end.

Fixpoint size (l : list (string * string)) : nat :=
  match l with
  | [] => 0
  | (k, v) :: r => String.length k + String.length v + size r
  end.

(** [getItem]: [None] is [null]. *)
Definition getItem (key : string) (s : t) : option string := lookup key (items s).

(** [setItem] throws when the new content exceeds the quota. *)
Definition setItem (key value : string) (s : t) : Completion t :=
  let items' := (key, value) :: remove key (items s) in
  if (size items' <=? quota s)%nat
  then Normal (mk items' (quota s))
  else Throw "QuotaExceededError".

End LocalStorage.

(** ** JSON values *)

(** What [JSON.parse] returns: a value of any shape.  A number is kept as
    its literal; the properties of an object are in creation order, each
    key once. *)
Unset Elimination Schemes.
Inductive JSValue :=
| JNull
| JBool (b : bool)
| JNumber (literal : string)
| JString (s : string)
| JArray (elements : list JSValue)
| JObject (properties : list (string * JSValue)).
Set Elimination Schemes.

(** Session lists as values.  [ofSessions ss] is the value the list [ss]
    is in the component: objects with the properties of [types.ts] in the
    order the code creates them, [attachments] absent when it is.
    [asSessions v] is the list whose value [v] is, if any. *)
Module Value.

(** [o[k] = v]: a key that is present keeps its place. *)
Fixpoint define (k : string) (v : JSValue) (o : list (string * JSValue))
  : list (string * JSValue) :=
  match o with
  | [] => [(k, v)]
  | (k', v') :: r => if String.eqb k' k then (k, v) :: r else (k', v') :: define k v r
  end.

Definition ofRole (r : ChatRole) : JSValue :=
  JString match r with user => "user" | model => "model" end.

Definition ofAttachment (a : Attachment.t) : JSValue :=
  JObject [("name", JString (Attachment.name a));
           ("type", JString (Attachment.type a));
           ("url", JString (Attachment.url a));
           ("data", JString (Attachment.data a))].

Definition ofMessage (m : ChatMessage.t) : JSValue :=
  JObject ([("id", JString (ChatMessage.id m));
            ("role", ofRole (ChatMessage.role m));
            ("text", JString (ChatMessage.text m))]
           ++ match ChatMessage.attachments m with
              | Some l => [("attachments", JArray (map ofAttachment l))]
              | None => []
              end).

Definition ofSession (s : ChatSession.t) : JSValue :=
  JObject [("id", JString (ChatSession.id s));
           ("title", JString (ChatSession.title s));
           ("messages", JArray (map ofMessage (ChatSession.messages s)));
           ("createdAt", JString (ChatSession.createdAt s))].

Definition ofSessions (ss : list ChatSession.t) : JSValue :=
  JArray (map ofSession ss).

(** The keys of [o] are [ks], in this order. *)
Fixpoint keysAre (ks : list string) (o : list (string * JSValue)) : bool :=
  match ks, o with
  | [], [] => true
  | k :: ks, (k', _) :: o => String.eqb k' k && keysAre ks o
  | _, _ => false
  end.

Definition asRole (s : string) : option ChatRole :=
  if String.eqb s "user" then Some user
  else if String.eqb s "model" then Some model
  else None.

Fixpoint each {X} (f : JSValue -> option X) (l : list JSValue) : option (list X) :=
  match l with
  | [] => Some []
  | v :: r =>
      match f v, each f r with
      | Some x, Some xs => Some (x :: xs)
      | _, _ => None
      end
  end.

Definition asAttachment (v : JSValue) : option Attachment.t :=
  match v with
  | JObject ([(_, JString name); (_, JString type);
              (_, JString url); (_, JString data)] as o) =>
      if keysAre ["name"; "type"; "url"; "data"] o
      then Some (Attachment.mk name type url data)
      else None
  | _ => None
  end.

Definition asMessage (v : JSValue) : option ChatMessage.t :=
  match v with
  | JObject ([(_, JString id); (_, JString role); (_, JString text)] as o) =>
      match asRole role with
      | Some r =>
          if keysAre ["id"; "role"; "text"] o
          then Some (ChatMessage.mk id r text None)
          else None
      | None => None
      end
  | JObject ([(_, JString id); (_, JString role); (_, JString text);
              (_, JArray l)] as o) =>
      match asRole role, each asAttachment l with
      | Some r, Some attachments =>
          if keysAre ["id"; "role"; "text"; "attachments"] o
          then Some (ChatMessage.mk id r text (Some attachments))
          else None
      | _, _ => None
      end
  | _ => None
  end.

Definition asSession (v : JSValue) : option ChatSession.t :=
  match v with
  | JObject ([(_, JString id); (_, JString title);
              (_, JArray l); (_, JString createdAt)] as o) =>
      match each asMessage l with
      | Some messages =>
          if keysAre ["id"; "title"; "messages"; "createdAt"] o
          then Some (ChatSession.mk id title messages createdAt)
          else None
      | None => None
      end
  | _ => None
  end.

Definition asSessions (v : JSValue) : option (list ChatSession.t) :=
  match v with JArray l => each asSession l | _ => None end.

End Value.

(** ** App.tsx: the load and save effects *)

Definition storageKey : string := "chatSessions".

(** The component once the load effect has run.  The cell [sessions] is
    declared with the type [ChatSession[]], and the result of [JSON.parse]
    is not: line 30 stores what it returns as it is.  [Typed a]: the cell
    holds a session list, the state is [a].  [Untyped a v]: the cell holds
    the value [v], which is not the value of a session list; the other cells
    are those of [a]. *)
Inductive Mounted :=
| Typed (a : App)
| Untyped (a : App) (v : JSValue).

(** [setSessions(v)] for a value of any shape. *)
Definition setSessionsTo (v : JSValue) (a : App) : Mounted :=
  match Value.asSessions v with
  | Some ss => Typed (setSessions (fun _ => ss) a)
  | None => Untyped a v
  end.

Section Persistence.

(** [JSON.stringify] at type [ChatSession[]], and [JSON.parse].  [Throw]
    is the [SyntaxError] of a text that is not JSON. *)
Variable JSON_stringify : list ChatSession.t -> string.
Variable JSON_parse : string -> Completion JSValue.

(** The effect that runs once, on mount. *)
Definition loadEffect (ls : LocalStorage.t) (a : App) : Completion Mounted :=
  tryCatch
    (match LocalStorage.getItem storageKey ls with
     | Some savedSessions =>
         if JS.truthy savedSessions
         then bind (JSON_parse savedSessions)
                (fun v => Normal (setSessionsTo v a))
         else Normal (Typed a)
     | None => Normal (Typed a)
     end)
    (fun _ => Normal (Typed (setSessions (fun _ => []) a))).

(** The effect that runs whenever [sessions] changes. *)
Definition saveEffect (a : App) (ls : LocalStorage.t) : Completion LocalStorage.t :=
  tryCatch
    (LocalStorage.setItem storageKey (JSON_stringify (sessions a)) ls)
    (fun _ => Normal ls).

(** Save [ss], then mount a fresh component on the resulting storage. *)
Definition saveThenLoad (ss : list ChatSession.t) (ls : LocalStorage.t)
  : Completion Mounted :=
  bind (saveEffect (setSessions (fun _ => ss) initialApp) ls)
    (fun ls' => loadEffect ls' initialApp).

End Persistence.

(** ** A reference JSON codec

    [Json.stringify] produces the text [JSON.stringify] produces for a value
    of type [ChatSession[]] (properties in creation order, no white space,
    an absent [attachments] omitted).  [Json.parse] reads any JSON text.
    Strings hold 8-bit code units, so that an escape [\uXXXX] above
    [\u00ff] is not read.  The two instantiate the codec of
    [Persistence]. *)

Module Json.

Definition quote : ascii := "034"%char.
Definition backslash : ascii := "092"%char.

(** The lower-case hexadecimal digit of [n < 16]. *)
Definition hexDigit (n : nat) : ascii :=
  ascii_of_nat (if (n <? 10)%nat then 48 + n else 87 + n).

Definition hexValue (c : ascii) : option nat :=
  let n := nat_of_ascii c in
  if ((48 <=? n) && (n <=? 57))%nat then Some (n - 48)
  else if ((97 <=? n) && (n <=? 102))%nat then Some (n - 87)
  else if ((65 <=? n) && (n <=? 70))%nat then Some (n - 55)
  else None.

(** QuoteJSONString, one code unit. *)
Definition escapeChar (c : ascii) : string :=
  match nat_of_ascii c with
  | 8 => "\b" | 9 => "\t" | 10 => "\n" | 12 => "\f" | 13 => "\r"
  | 34 => String backslash (String quote "")
  | 92 => "\\"
  | n => if (n <? 32)%nat
         then "\u00" ++ String (hexDigit (n / 16)) (String (hexDigit (n mod 16)) "")
         else String c ""
  end%string.

Fixpoint escape (s : string) : string :=
  match s with
  | EmptyString => EmptyString
  | String c r => (escapeChar c ++ escape r)%string
  end.

Definition str (s : string) : string :=
  String quote (escape s ++ String quote "")%string.

(** The elements of a non-empty array, up to and including ["]"]. *)
Fixpoint elems {X} (p : X -> string) (x : X) (xs : list X) : string :=
  match xs with
  | [] => (p x ++ "]")%string
  | y :: ys => (p x ++ "," ++ elems p y ys)%string
  end.

Definition arr {X} (p : X -> string) (xs : list X) : string :=
  match xs with
  | [] => "[]"
  | x :: r => String "[" (elems p x r)
  end.

Definition roleName (r : ChatRole) : string :=
  match r with user => "user" | model => "model" end.

Definition attachment (a : Attachment.t) : string :=
  ("{" ++ str "name" ++ ":" ++ str (Attachment.name a)
   ++ "," ++ str "type" ++ ":" ++ str (Attachment.type a)
   ++ "," ++ str "url" ++ ":" ++ str (Attachment.url a)
   ++ "," ++ str "data" ++ ":" ++ str (Attachment.data a) ++ "}")%string.

Definition message (m : ChatMessage.t) : string :=
  ("{" ++ str "id" ++ ":" ++ str (ChatMessage.id m)
   ++ "," ++ str "role" ++ ":" ++ str (roleName (ChatMessage.role m))
   ++ "," ++ str "text" ++ ":" ++ str (ChatMessage.text m)
   ++ match ChatMessage.attachments m with
      | Some l => "," ++ str "attachments" ++ ":" ++ arr attachment l ++ "}"
      | None => "}"
      end)%string.

Definition session (s : ChatSession.t) : string :=
  ("{" ++ str "id" ++ ":" ++ str (ChatSession.id s)
   ++ "," ++ str "title" ++ ":" ++ str (ChatSession.title s)
   ++ "," ++ str "messages" ++ ":" ++ arr message (ChatSession.messages s)
   ++ "," ++ str "createdAt" ++ ":" ++ str (ChatSession.createdAt s) ++ "}")%string.

Definition stringify (ss : list ChatSession.t) : string := arr session ss.

(** *** Reading *)

Definition Parser (X : Type) := string -> option (X * string).

Definition andThen {X Y} (p : Parser X) (k : X -> Parser Y) : Parser Y :=
  fun s => match p s with
           | Some (x, r) => k x r
           | None => None
           end.

Definition ret {X} (x : X) : Parser X := fun s => Some (x, s).

(** The text starts with [lit]. *)
Fixpoint expect (lit : string) : Parser unit :=
  fun s =>
    match lit with
    | EmptyString => Some (tt, s)
    | String c l =>
        match s with
        | String d r => if Ascii.eqb c d then expect l r else None
        | EmptyString => None
        end
    end.

Definition consChar (c : ascii) (x : option (string * string)) :=
  match x with
  | Some (s, r) => Some (String c s, r)
  | None => None
  end.

(** The characters of a string literal after its opening quote. *)
Fixpoint chars (s : string) : option (string * string) :=
  match s with
  | EmptyString => None
  | String c r =>
      if Ascii.eqb c quote then Some (EmptyString, r)
      else if Ascii.eqb c backslash then
        match r with
        | String e r' =>
            if Ascii.eqb e quote then consChar quote (chars r')
            else if Ascii.eqb e backslash then consChar backslash (chars r')
            else if Ascii.eqb e "/" then consChar "/" (chars r')
            else if Ascii.eqb e "b" then consChar "008" (chars r')
            else if Ascii.eqb e "f" then consChar "012" (chars r')
            else if Ascii.eqb e "n" then consChar "010" (chars r')
            else if Ascii.eqb e "r" then consChar "013" (chars r')
            else if Ascii.eqb e "t" then consChar "009" (chars r')
            else if Ascii.eqb e "u" then
              match r' with
              | String h1 (String h2 (String h3 (String h4 r''))) =>
                  match hexValue h1, hexValue h2, hexValue h3, hexValue h4 with
                  | Some 0, Some 0, Some a, Some b =>
                      consChar (ascii_of_nat (16 * a + b)) (chars r'')
                  | _, _, _, _ => None
                  end
              | _ => None
              end
            else None
        | EmptyString => None
        end
      else if (nat_of_ascii c <? 32)%nat then None
      else consChar c (chars r)
  end.

Definition string_ : Parser string :=
  fun s =>
    match s with
    | String c r => if Ascii.eqb c quote then chars r else None
    | EmptyString => None
    end.

(** JSON white space. *)
Definition isSpace (c : ascii) : bool :=
  match nat_of_ascii c with
  | 9 | 10 | 13 | 32 => true
  | _ => false
  end.

Fixpoint skip (s : string) : string :=
  match s with
  | String c r => if isSpace c then skip r else s
  | EmptyString => s
  end.

Definition isDigit (c : ascii) : bool :=
  ((48 <=? nat_of_ascii c) && (nat_of_ascii c <=? 57))%nat.

(** The longest prefix of digits, and the rest. *)
Fixpoint digits (s : string) : string * string :=
  match s with
  | String c r =>
      if isDigit c then let '(d, r') := digits r in (String c d, r')
      else (EmptyString, s)
  | EmptyString => (EmptyString, s)
  end.

Definition digits1 : Parser string :=
  fun s =>
    match digits s with
    | (EmptyString, _) => None
    | (d, r) => Some (d, r)
    end.

(** [0], or digits that do not start with [0]. *)
Definition integer : Parser string :=
  fun s =>
    match s with
    | String c r => if Ascii.eqb c "0" then Some ("0", r) else digits1 s
    | EmptyString => None
    end.

Definition fraction : Parser string :=
  fun s =>
    match s with
    | String c r =>
        if Ascii.eqb c "." then
          match digits1 r with
          | Some (d, r') => Some (String c d, r')
          | None => None
          end
        else Some (EmptyString, s)
    | EmptyString => Some (EmptyString, s)
    end.

Definition signOf (s : string) : string * string :=
  match s with
  | String c r =>
      if Ascii.eqb c "+" || Ascii.eqb c "-" then (String c EmptyString, r)
      else (EmptyString, s)
  | EmptyString => (EmptyString, s)
  end.

Definition exponent : Parser string :=
  fun s =>
    match s with
    | String c r =>
        if Ascii.eqb c "e" || Ascii.eqb c "E" then
          let '(sg, r1) := signOf r in
          match digits1 r1 with
          | Some (d, r2) => Some (String c (sg ++ d)%string, r2)
          | None => None
          end
        else Some (EmptyString, s)
    | EmptyString => Some (EmptyString, s)
    end.

(** The literal of a JSON number. *)
Definition number : Parser string :=
  fun s =>
    let '(minus, s1) :=
      match s with
      | String c r => if Ascii.eqb c "-" then (String c EmptyString, r) else (EmptyString, s)
      | EmptyString => (EmptyString, s)
      end in
    andThen integer (fun i =>
    andThen fraction (fun f =>
    andThen exponent (fun e =>
    ret (minus ++ i ++ f ++ e)%string))) s1.

(** The elements of a non-empty array after ["["], white space allowed. *)
Fixpoint items {X} (p : Parser X) (fuel : nat) : Parser (list X) :=
  fun s =>
    match fuel with
    | O => None
    | S fuel =>
        match p s with
        | Some (x, r) =>
            match skip r with
            | String c r' =>
                if Ascii.eqb c "," then
                  match items p fuel r' with
                  | Some (xs, r'') => Some (x :: xs, r'')
                  | None => None
                  end
                else if Ascii.eqb c "]" then Some ([x], r')
                else None
            | EmptyString => None
            end
        | None => None
        end
    end.

(** The members of a non-empty object after ["{"], in the order of the
    text. *)
Fixpoint members {X} (p : Parser X) (fuel : nat) : Parser (list (string * X)) :=
  fun s =>
    match fuel with
    | O => None
    | S fuel =>
        match string_ (skip s) with
        | Some (k, r) =>
            match skip r with
            | String c r1 =>
                if Ascii.eqb c ":" then
                  match p r1 with
                  | Some (v, r2) =>
                      match skip r2 with
                      | String d r3 =>
                          if Ascii.eqb d "," then
                            match members p fuel r3 with
                            | Some (ms, r4) => Some ((k, v) :: ms, r4)
                            | None => None
                            end
                          else if Ascii.eqb d "}" then Some ([(k, v)], r3)
                          else None
                      | EmptyString => None
                      end
                  | None => None
                  end
                else None
            | EmptyString => None
            end
        | None => None
        end
    end.

(** The object with the members [ms]: a repeated key keeps its last value. *)
Definition object (ms : list (string * JSValue)) : JSValue :=
  JObject (fold_left (fun o m => Value.define (fst m) (snd m) o) ms []).

Definition literal (lit : string) (v : JSValue) : Parser JSValue :=
  andThen (expect lit) (fun _ => ret v).

(** A JSON value, white space before it allowed; [nested] reads the
    values it contains. *)
Definition valueWith (nested : Parser JSValue) : Parser JSValue :=
  fun s =>
    match skip s with
    | String c r =>
        if Ascii.eqb c quote then
          andThen chars (fun x => ret (JString x)) r
        else if Ascii.eqb c "[" then
          match skip r with
          | String d r' =>
              if Ascii.eqb d "]" then Some (JArray [], r')
              else andThen (items nested (String.length r))
                     (fun l => ret (JArray l)) r
          | EmptyString => None
          end
        else if Ascii.eqb c "{" then
          match skip r with
          | String d r' =>
              if Ascii.eqb d "}" then Some (JObject [], r')
              else andThen (members nested (String.length r))
                     (fun ms => ret (object ms)) r
          | EmptyString => None
          end
        else if Ascii.eqb c "t" then literal "rue" (JBool true) r
        else if Ascii.eqb c "f" then literal "alse" (JBool false) r
        else if Ascii.eqb c "n" then literal "ull" JNull r
        else andThen number (fun n => ret (JNumber n)) (String c r)
    | EmptyString => None
    end.

(** [fuel] bounds the depth of nesting. *)
Fixpoint value (fuel : nat) : Parser JSValue :=
  match fuel with
  | O => fun _ => None
  | S fuel => valueWith (value fuel)
  end.

(** A JSON text: one value, white space around it allowed.  No value is
    nested deeper than the text is long. *)
Definition read (s : string) : option JSValue :=
  match value (S (String.length s)) s with
  | Some (v, r) =>
      match skip r with
      | EmptyString => Some v
      | String _ _ => None
      end
  | None => None
  end.

Definition parse (s : string) : Completion JSValue :=
  match read s with
  | Some v => Normal v
  | None => Throw "SyntaxError"
  end.

End Json.

(** [p] reads what [pr] prints, as the value [g] gives. *)
Definition Reads {X} (p : Json.Parser JSValue) (pr : X -> string) (g : X -> JSValue) : Prop :=
  forall y rest, p (pr y ++ rest)%string = Some (g y, rest).

(** ** Observations and runs *)

(** [sessions.find(s => s.id === sessionId)?.messages || []], the
    expression that computes [currentMessages]. *)
Definition messagesOf (sessionId : string) (ss : list ChatSession.t)
  : list ChatMessage.t :=
  match find (fun s => String.eqb (ChatSession.id s) sessionId) ss with
  | Some s => ChatSession.messages s
  | None => []
  end.

Definition currentMessages (a : App) : list ChatMessage.t :=
  match currentSessionId a with
  | Some sessionId => messagesOf sessionId (sessions a)
  | None => []
  end.

(** One invocation resumed with a sequence of events, nothing else
    happening in between. *)
Fixpoint resumeAll (evs : list Event) (x : Send.t) (a : App) : App * Send.t :=
  match evs with
  | [] => (a, x)
  | ev :: evs => let '(a', x') := resume ev x a in resumeAll evs x' a'
  end.

(** [fs.join("")]: the value of [modelResponse] after the fragments [fs]. *)
Definition joined (fs : list string) : string := String.concat "" fs.

(** What identifies a session and is set once, when it is created. *)
Definition header (s : ChatSession.t) : string * string * string :=
  (ChatSession.id s, ChatSession.title s, ChatSession.createdAt s).

(** [after] holds the messages of [before], in the same order, and those
    whose id is not [mid] are untouched. *)
Definition keptExcept (mid : string) (before after : list ChatMessage.t) : Prop :=
  Forall2 (fun m m' =>
             ChatMessage.id m' = ChatMessage.id m /\
             ChatMessage.role m' = ChatMessage.role m /\
             ChatMessage.attachments m' = ChatMessage.attachments m /\
             (ChatMessage.id m <> mid -> m' = m)) before after.

(** A component whose first send, of the text ["Say hello"], has appended
    its user message and awaits the stream. *)
Definition exampleSystem : System :=
  run [InitEffect; InitDone (Some 1);
       CallSend "Say hello" [] 1000 "2024-01-01T00:00:01.000Z";
       Resume 0 (AttachmentsResolved 1001 1001)] initialSystem.

Definition exampleApp : App := app exampleSystem.

Definition exampleSend : Send.t :=
  Send.mk "Say hello" [] main "session-1000" AwaitStream.

(** The sessions of the store whose id is not [sessionId]. *)
Definition others (sessionId : string) (ss : list ChatSession.t) : list ChatSession.t :=
  filter (fun s => negb (String.eqb (ChatSession.id s) sessionId)) ss.

(** A component that holds an earlier, completed conversation, session
    ["session-7"], and has just started a second one. *)
Definition twoSessions : System :=
  run [InitEffect; InitDone (Some 1);
       CallSend "Define molarity" [] 7 "2024-01-01T00:00:00.007Z";
       Resume 0 (AttachmentsResolved 8 8);
       Resume 0 (StreamOpened 9);
       Resume 0 (Chunk "Moles per litre.");
       Resume 0 StreamDone;
       NewChat;
       InitDone (Some 2)] initialSystem.

(** A storage that holds the list an empty component saved and has room for
    64 characters: a small stand-in for the quota of a browser, which a
    session list with encoded attachments reaches soon. *)
Definition smallStorage : LocalStorage.t :=
  LocalStorage.mk [(storageKey, "[]")] 64.

Definition roomyStorage : LocalStorage.t :=
  LocalStorage.mk [(storageKey, "[]")] 4096.

(** ** Minted identifiers *)

(** The kinds of message [handleSendMessage] appends. *)
Inductive Kind := KUser | KModel | KError.

Definition messageIdAt (k : Kind) (now : Z) : string :=
  match k with
  | KUser => userMessageIdAt now
  | KModel => modelMessageIdAt now
  | KError => errorMessageIdAt now
  end.

(** One reading of the clock that became an id: of a new session, or of a
    message appended to the sessions with id [sessionId]. *)
Inductive Mint :=
| MintSession (now : Z)
| MintMessage (sessionId : string) (k : Kind) (now : Z).

(** What resuming [x] with [ev] mints, following the cases of [resume]. *)
Definition mintedBy (ev : Event) (x : Send.t) (a : App) : list Mint :=
  let sessionId := Send.sessionId x in
  match Send.phase x, ev with
  | AwaitAttachments, AttachmentsResolved now nowCatch =>
      MintMessage sessionId KUser now ::
      (if isNull (chatRef a) then [MintMessage sessionId KError nowCatch] else [])
  | AwaitStream, StreamOpened now => [MintMessage sessionId KModel now]
  | AwaitStream, Fault now
  | Streaming _ _, Fault now => [MintMessage sessionId KError now]
  | _, _ => []
  end.

(** What [step act s] mints. *)
Definition minted (act : Action) (s : System) : list Mint :=
  match act with
  | CallSend text files now iso =>
      match handleSendMessage text files now iso (app s) with
      | (_, Some _) => if noSession (currentSessionId (app s)) then [MintSession now] else []
      | (_, None) => []
      end
  | Resume i ev =>
      match nth_error (sends s) i with
      | Some x => mintedBy ev x (app s)
      | None => []
      end
  | _ => []
  end.

(** Everything minted along [run acts s], oldest first. *)
Fixpoint mintLog (acts : list Action) (s : System) : list Mint :=
  match acts with
  | [] => []
  | act :: acts => minted act s ++ mintLog acts (step act s)
  end.

Fixpoint sessionTicks (log : list Mint) : list Z :=
  match log with
  | [] => []
  | MintSession now :: log => now :: sessionTicks log
  | MintMessage _ _ _ :: log => sessionTicks log
  end.

Fixpoint messageMints (log : list Mint) : list (string * Kind * Z) :=
  match log with
  | [] => []
  | MintSession _ :: log => messageMints log
  | MintMessage sessionId k now :: log => (sessionId, k, now) :: messageMints log
  end.

(** The ids held by a store: for every session, newest first, its id and
    the ids of its messages in order. *)
Definition IdView := list (string * list string).

Definition idView (ss : list ChatSession.t) : IdView :=
  map (fun s => (ChatSession.id s, map ChatMessage.id (ChatSession.messages s))) ss.

(** The effect of one mint on the ids of a store. *)
Definition applyMint (v : IdView) (e : Mint) : IdView :=
  match e with
  | MintSession now => (sessionIdAt now, []) :: v
  | MintMessage sessionId k now =>
      map (fun p => if String.eqb (fst p) sessionId
                    then (fst p, snd p ++ [messageIdAt k now])
                    else p) v
  end.

Definition replay (log : list Mint) (v : IdView) : IdView := fold_left applyMint log v.

Definition targets (sessionId : string) (e : string * Kind * Z) : bool :=
  String.eqb (fst (fst e)) sessionId.

Definition mintId (e : string * Kind * Z) : string := messageIdAt (snd (fst e)) (snd e).

(** ** Further observations *)

(** [l.pop()] read as a value: the last element, if any. *)
Fixpoint lastOf {A} (l : list A) : option A :=
  match l with
  | [] => None
  | [x] => Some x
  | _ :: r => lastOf r
  end.

Definition isModel (m : ChatMessage.t) : bool :=
  match ChatMessage.role m with model => true | user => false end.

(** [currentMessages.filter(m => m.role === 'model').pop()?.text], the
    [latestResponse] handed to the call view. *)
Definition latestResponse (a : App) : option string :=
  option_map ChatMessage.text (lastOf (filter isModel (currentMessages a))).

(** [m'] is [m] up to its text. *)
Definition sameButText (m m' : ChatMessage.t) : Prop :=
  ChatMessage.id m' = ChatMessage.id m /\
  ChatMessage.role m' = ChatMessage.role m /\
  ChatMessage.attachments m' = ChatMessage.attachments m.

(** The session id and message id a step folds a fragment into, if it is
    the delivery of a fragment to a streaming invocation. *)
Definition touched (act : Action) (s : System) : option (string * string) :=
  match act with
  | Resume i (Chunk _) =>
      match nth_error (sends s) i with
      | Some x =>
          match Send.phase x with
          | Streaming modelMessageId _ => Some (Send.sessionId x, modelMessageId)
          | _ => None
          end
      | None => None
      end
  | _ => None
  end.

(** The action is a successful completion of [initializeChat]. *)
Definition givesHandle (act : Action) : bool :=
  match act with
  | InitDone (Some _) => true
  | _ => false
  end.

(** Every user message of the store carries a user-message id. *)
Definition wellTagged (ss : list ChatSession.t) : Prop :=
  forall s m, In s ss -> In m (ChatSession.messages s) ->
              ChatMessage.role m = user ->
              exists t, ChatMessage.id m = userMessageIdAt t.

(** Every streaming invocation targets a placeholder id. *)
Definition streamingOk (xs : list Send.t) : Prop :=
  forall x mid acc, In x xs -> Send.phase x = Streaming mid acc ->
                    exists t, mid = modelMessageIdAt t.

(** Session [s1] is [s0] later on: same header, the messages of [s0] first
    and in order, each the same up to its text, and with the same text too
    unless [target] names the session and the message. *)
Definition messagesKept (target : option (string * string))
    (s0 s1 : ChatSession.t) : Prop :=
  header s1 = header s0 /\
  exists older ext,
    ChatSession.messages s1 = older ++ ext /\
    Forall2 (fun m m' =>
               sameButText m m' /\
               (m' = m \/ target = Some (ChatSession.id s0, ChatMessage.id m)))
            (ChatSession.messages s0) older.

(** The history view offers the sessions of the store: every [loadChat]
    along [acts], started in [s], names a session that is in the store then. *)
Fixpoint validLoads (acts : list Action) (s : System) : Prop :=
  match acts with
  | [] => True
  | act :: acts =>
      (forall sessionId, act = LoadChat sessionId ->
                         In sessionId (map ChatSession.id (sessions (app s)))) /\
      validLoads acts (step act s)
  end.

(** The current session, when there is one, is in the store. *)
Definition currentExists (a : App) : Prop :=
  forall sessionId,
    currentSessionId a = Some sessionId -> JS.truthy sessionId = true ->
    In sessionId (map ChatSession.id (sessions a)).

(** Every send in flight targets a session of the store. *)
Definition sendsTargetStore (s : System) : Prop :=
  forall x, In x (sends s) ->
            In (Send.sessionId x) (map ChatSession.id (sessions (app s))).

(** The [i]-th invocation is streaming into the placeholder [mid] of the
    sessions with id [sid] and has accumulated the text [acc]. *)
Definition streamingAt (s : System) (i : nat) (sid mid acc : string) : Prop :=
  exists x, nth_error (sends s) i = Some x /\
            Send.sessionId x = sid /\
            Send.phase x = Streaming mid acc.

(** Every placeholder a send is streaming into shows what that send has
    accumulated. *)
Definition placeholdersShow (s : System) : Prop :=
  forall i sid mid acc ses m,
    streamingAt s i sid mid acc ->
    In ses (sessions (app s)) -> ChatSession.id ses = sid ->
    In m (ChatSession.messages ses) -> ChatMessage.id m = mid ->
    ChatMessage.text m = acc.

(** The placeholder of every streaming send was minted for its session. *)
Definition placeholdersLogged (log : list Mint) (s : System) : Prop :=
  forall i sid mid acc,
    streamingAt s i sid mid acc ->
    exists t, mid = modelMessageIdAt t /\ In (sid, KModel, t) (messageMints log).

(** Two sends never stream into the same placeholder of the same session. *)
Definition placeholdersApart (s : System) : Prop :=
  forall i j sid mid acc acc',
    streamingAt s i sid mid acc -> streamingAt s j sid mid acc' -> i = j.

(** The step from [s] to [s'] starts no stream, moves no streaming send, and
    adds no message with a placeholder id. *)
Definition quiet (s s' : System) : Prop :=
  (forall i sid mid acc, streamingAt s' i sid mid acc -> streamingAt s i sid mid acc) /\
  (forall ses' m',
      In ses' (sessions (app s')) -> In m' (ChatSession.messages ses') ->
      (exists ses, In ses (sessions (app s)) /\
                   ChatSession.id ses = ChatSession.id ses' /\
                   In m' (ChatSession.messages ses)) \/
      (forall t, ChatMessage.id m' <> modelMessageIdAt t)).

(** Two sends into one session whose streams are open at the same time and
    deliver in turns. *)
Definition twoStreams : list Action :=
  [InitEffect; InitDone (Some 1);
   CallSend "Define molarity" [] 1 "2024-01-01T00:00:00.001Z";
   Resume 0 (AttachmentsResolved 2 2);
   Resume 0 (StreamOpened 3);
   CallSend "Define pH" [] 4 "2024-01-01T00:00:00.004Z";
   Resume 1 (AttachmentsResolved 5 5);
   Resume 1 (StreamOpened 6);
   Resume 0 (Chunk "Moles ");
   Resume 1 (Chunk "Minus log ");
   Resume 0 (Chunk "per litre.");
   Resume 1 (Chunk "of [H+].")].

(** * Properties *)

(** ** Strings *)

Lemma append_assoc (a b c : string) : ((a ++ b) ++ c = a ++ (b ++ c))%string.
Proof. induction a as [|x a IH]; simpl; [reflexivity | now rewrite IH]. Qed.

Lemma append_empty_r (a : string) : (a ++ "")%string = a.
Proof. induction a as [|x a IH]; simpl; [reflexivity | now rewrite IH]. Qed.

Lemma length_append (a b : string) :
  String.length (a ++ b) = String.length a + String.length b.
Proof. induction a as [|x a IH]; simpl; [reflexivity | now rewrite IH]. Qed.

Lemma append_inj_l (p a b : string) : (p ++ a = p ++ b)%string -> a = b.
Proof. induction p as [|x p IH]; simpl; [auto | intros [= H]; auto]. Qed.

Lemma append_inj_r (a b t : string) : (a ++ t = b ++ t)%string -> a = b.
Proof.
  revert b; induction a as [|x a IH]; intros [|y b] H; simpl in H.
  - reflexivity.
  - apply (f_equal String.length) in H; simpl in H; rewrite length_append in H; lia.
  - apply (f_equal String.length) in H; simpl in H; rewrite length_append in H; lia.
  - injection H as -> H. f_equal. now apply IH.
Qed.

Lemma occurs_append (c : ascii) (a b : string) :
  JS.occurs c (a ++ b) = JS.occurs c a || JS.occurs c b.
Proof.
  induction a as [|x a IH]; simpl; [reflexivity|].
  now rewrite IH, orb_assoc.
Qed.

(** ** Decimal numerals *)

Lemma to_int_proper (n : Z) : Z.to_int n <> Decimal.Pos Decimal.Nil /\
                              Z.to_int n <> Decimal.Neg Decimal.Nil.
Proof.
  destruct n as [|p|p]; simpl; split; try discriminate;
    intros [= H]; now apply DecimalPos.Unsigned.to_uint_nonnil in H.
Qed.

Lemma numToString_inj (n m : Z) : JS.numToString n = JS.numToString m -> n = m.
Proof.
  unfold JS.numToString. intros H.
  apply DecimalZ.to_int_inj.
  destruct (to_int_proper n) as [Hn1 Hn2], (to_int_proper m) as [Hm1 Hm2].
  pose proof (NilZero.isi _ Hn1 Hn2) as En.
  pose proof (NilZero.isi _ Hm1 Hm2) as Em.
  rewrite H in En. congruence.
Qed.

(** A numeral holds digits and a leading minus sign only: no letter. *)
Lemma uint_no_m (d : Decimal.uint) : JS.occurs "m" (NilEmpty.string_of_uint d) = false.
Proof. induction d; simpl; auto. Qed.

Lemma numToString_no_m (n : Z) : JS.occurs "m" (JS.numToString n) = false.
Proof.
  unfold JS.numToString.
  destruct (Z.to_int n) as [d|d]; simpl;
    (destruct d; [reflexivity | apply (uint_no_m (_ d)) ..]).
Qed.

(** ** The guard of [handleSendMessage] *)

Lemma trimStart_allWhiteSpace (s : string) :
  JS.allWhiteSpace s = true -> JS.trimStart s = "".
Proof.
  induction s as [|c s IH]; simpl; [reflexivity|].
  intros H. apply andb_true_iff in H as [Hc Hs]. rewrite Hc. auto.
Qed.

Lemma trim_allWhiteSpace (s : string) : JS.allWhiteSpace s = true -> JS.trim s = "".
Proof. intros H. unfold JS.trim. now rewrite trimStart_allWhiteSpace. Qed.

(** C9. A call of [handleSendMessage] whose text is empty or white space
    only and whose file list is empty, or that finds no backend handle in
    [chatRef], returns at once: the whole component state (session list,
    current session id, view and the rest) is unchanged and no invocation is
    left in flight. *)
Theorem handleSendMessage_guard :
  forall (text : string) (files : list File.t) (now : Z) (iso : string) (s : System),
    (JS.allWhiteSpace text = true /\ files = []) \/ chatRef (app s) = None ->
    handleSendMessage text files now iso (app s) = (app s, None) /\
    step (CallSend text files now iso) s = s.
Proof.
  intros text files now iso [a xs] H; simpl.
  assert (E : handleSendMessage text files now iso a = (a, None)).
  { unfold handleSendMessage.
    destruct H as [[Hw ->] | Hc].
    - now rewrite (trim_allWhiteSpace _ Hw).
    - simpl in Hc. rewrite Hc. simpl. now rewrite orb_true_r. }
  now rewrite E.
Qed.

Lemma handleSendMessage_guard_witness :
  handleSendMessage "   " [] 7 "2024-01-01T00:00:00.000Z" (app initialSystem)
    = (app initialSystem, None) /\
  step (CallSend "   " [] 7 "2024-01-01T00:00:00.000Z") initialSystem = initialSystem.
Proof.
  apply (handleSendMessage_guard "   " [] 7 "2024-01-01T00:00:00.000Z" initialSystem).
  left. split; reflexivity.
Defined.

(** ** Identifiers *)

Lemma userId_ne_modelId t1 t2 : userMessageIdAt t1 <> modelMessageIdAt t2.
Proof.
  unfold userMessageIdAt, modelMessageIdAt. intros H.
  apply append_inj_l in H.
  apply (f_equal (JS.occurs "m")) in H.
  rewrite occurs_append, numToString_no_m in H. simpl in H.
  rewrite orb_true_r in H. discriminate.
Qed.

Lemma userId_ne_errorId t1 t3 : userMessageIdAt t1 <> errorMessageIdAt t3.
Proof. discriminate. Qed.

Lemma modelId_ne_errorId t2 t3 : modelMessageIdAt t2 <> errorMessageIdAt t3.
Proof. discriminate. Qed.

(** C10. The three identifiers one invocation of [handleSendMessage] may
    mint (user message, model placeholder, error message) are pairwise
    distinct whatever the clock readings are, equal ones included. *)
Theorem send_ids_pairwise_distinct :
  forall t1 t2 t3 : Z,
    NoDup [userMessageIdAt t1; modelMessageIdAt t2; errorMessageIdAt t3].
Proof.
  intros t1 t2 t3.
  pose proof (userId_ne_modelId t1 t2).
  pose proof (userId_ne_errorId t1 t3).
  pose proof (modelId_ne_errorId t2 t3).
  repeat constructor; simpl; intuition.
Qed.

(** ** Session headers are never rewritten *)

Lemma appendMessage_header sid m ss :
  map header (appendMessage sid m ss) = map header ss.
Proof.
  unfold appendMessage. rewrite map_map. apply map_ext.
  intros s. now destruct (String.eqb _ _).
Qed.

Lemma foldResponse_header sid mid r ss :
  map header (foldResponse sid mid r ss) = map header ss.
Proof.
  unfold foldResponse. rewrite map_map. apply map_ext.
  intros s. now destruct (String.eqb _ _).
Qed.

Lemma catchFinally_header now sid a :
  map header (sessions (catchFinally now sid a)) = map header (sessions a).
Proof. unfold catchFinally; simpl. apply appendMessage_header. Qed.

Lemma resume_header ev x a :
  map header (sessions (fst (resume ev x a))) = map header (sessions a).
Proof.
  unfold resume.
  destruct (Send.phase x), ev; simpl; auto using appendMessage_header,
    foldResponse_header, catchFinally_header.
  destruct (isMain (Send.view x)); simpl;
    (destruct (chatRef a); simpl; [apply appendMessage_header|]);
    rewrite appendMessage_header; apply appendMessage_header.
Qed.

Lemma handleSendMessage_header text files now iso a :
  exists pre,
    sessions (fst (handleSendMessage text files now iso a)) = pre ++ sessions a /\
    (pre = [] \/ pre = [newSession (sessionIdAt now) text iso]).
Proof.
  unfold handleSendMessage.
  destruct (_ || _); [exists []; auto|].
  destruct (noSession (currentSessionId a)); simpl.
  - exists [newSession (sessionIdAt now) text iso]; auto.
  - exists []; auto.
Qed.

Lemma step_header act s :
  exists pre,
    map header (sessions (app (step act s)))
    = map header pre ++ map header (sessions (app s)) /\
    (List.length pre <= 1)%nat.
Proof.
  destruct act; simpl; try (exists []; simpl; split; [reflexivity | lia]).
  - destruct (handleSendMessage_header text files now iso (app s)) as (pre & E & Hpre).
    exists pre.
    destruct (handleSendMessage text files now iso (app s)) as [a' [x|]];
      simpl in *; rewrite E, map_app; (split; [reflexivity|]);
      destruct Hpre as [-> | ->]; simpl; lia.
  - exists []. split; [|simpl; lia].
    destruct (nth_error (sends s) i) as [x|]; [|reflexivity].
    pose proof (resume_header ev x (app s)) as H.
    destruct (resume ev x (app s)) as [a' x']. exact H.
  - exists []. split; [|simpl; lia]. unfold initEffect. now destruct (isNull _).
  - exists []. split; [|simpl; lia]. now destruct r.
Qed.

(** ** Titles *)

Lemma substring0_empty n s : JS.substring0 (S n) s = "" -> s = "".
Proof. destruct s; simpl; [reflexivity | discriminate]. Qed.

Lemma substring0_prefix n s :
  exists rest, s = (JS.substring0 n s ++ rest)%string /\
               String.length (JS.substring0 n s) = Nat.min n (String.length s).
Proof.
  unfold JS.substring0. revert s; induction n as [|n IH]; intros s.
  - exists s. destruct s; simpl; auto.
  - destruct s as [|c s]; simpl.
    + exists ""; auto.
    + destruct (IH s) as (rest & E & L). exists rest. split.
      * now rewrite <- E.
      * now rewrite L.
Qed.

Lemma nth_appendMessage_same sid m ss j s :
  nth_error ss j = Some s -> ChatSession.id s = sid ->
  nth_error (appendMessage sid m ss) j
  = Some (ChatSession.withMessages s (ChatSession.messages s ++ [m])).
Proof.
  intros Hj E. unfold appendMessage. rewrite (map_nth_error _ _ _ Hj).
  now destruct (String.eqb_spec (ChatSession.id s) sid).
Qed.

(** C6, as the code has it.  A send that finds no current session creates
    one whose title is the first 40 characters of the text sent, or
    ["New Chat"] when that text is empty.  When this send comes to append
    its user message and the session is still as it was created, without a
    message, that user message becomes the first message of the session and
    carries the text the title was taken from (whatever else the component
    did meanwhile).  No action of the component ever rewrites the title (or
    id, or creation time) of a session in the store. *)
Theorem session_title :
  forall (text : string) (files : list File.t) (now : Z) (iso : string)
         (a a' : App) (x : Send.t),
    noSession (currentSessionId a) = true ->
    handleSendMessage text files now iso a = (a', Some x) ->
    (exists s,
        sessions a' = s :: sessions a /\
        ChatSession.id s = Send.sessionId x /\
        ChatSession.messages s = [] /\
        ChatSession.title s
        = (if String.eqb text "" then "New Chat" else JS.substring0 40 text) /\
        (exists rest, text = (JS.substring0 40 text ++ rest)%string /\
                      String.length (JS.substring0 40 text)
                      = Nat.min 40 (String.length text)) /\
        (forall a'' t tc,
            sessions a'' = sessions a' ->
            exists s' others first later,
              sessions (fst (resume (AttachmentsResolved t tc) x a'')) = s' :: others /\
              header s' = header s /\
              ChatSession.messages s' = first :: later /\
              ChatMessage.role first = user /\
              ChatMessage.text first = text) /\
        (forall a'' j t tc,
            nth_error (sessions a'') j = Some s ->
            exists s' first later,
              nth_error (sessions (fst (resume (AttachmentsResolved t tc) x a''))) j
              = Some s' /\
              header s' = header s /\
              ChatSession.messages s' = first :: later /\
              ChatMessage.role first = user /\
              ChatMessage.text first = text)) /\
    (forall (act : Action) (sys : System), exists pre,
        map header (sessions (app (step act sys)))
        = map header pre ++ map header (sessions (app sys)) /\
        (List.length pre <= 1)%nat).
Proof.
  intros text files now iso a a' x Hno Hsend. split; [|apply step_header].
  unfold handleSendMessage in Hsend.
  destruct (_ || _); [discriminate|].
  rewrite Hno in Hsend. injection Hsend as <- <-.
  eexists. split; [reflexivity|]. simpl.
  repeat split.
  - unfold JS.or. destruct text as [|c text]; reflexivity.
  - apply substring0_prefix.
  - intros a'' t tc Es. unfold resume; simpl. simpl in Es.
    destruct (isMain (view a)); simpl;
      destruct (chatRef a''); unfold catchFinally, appendMessage; simpl;
      rewrite Es; simpl; rewrite ?String.eqb_refl; simpl;
      do 4 eexists; repeat split; reflexivity.
  - intros a'' j t tc Hj. unfold resume; simpl.
    pose proof (nth_appendMessage_same (sessionIdAt now)
                  (ChatMessage.mk (userMessageIdAt t) user text
                     (Some (map toAttachment files)))
                  _ _ _ Hj eq_refl) as H1.
    pose proof (nth_appendMessage_same (sessionIdAt now)
                  (ChatMessage.mk (errorMessageIdAt tc) model errorMessage None)
                  _ _ _ H1 eq_refl) as H2.
    destruct (isMain (view a)); simpl;
      destruct (chatRef a''); unfold catchFinally; simpl;
      first [rewrite H2 | rewrite H1];
      do 3 eexists; repeat split; reflexivity.
Qed.

Lemma session_title_witness :
  let a := initializeChatDone (Some 1) initialApp in
  let r := handleSendMessage "What is the SN2 mechanism?" [] 5 "2024-01-01T00:00:00.000Z" a in
  noSession (currentSessionId a) = true /\
  (exists x, r = (fst r, Some x)) /\
  exists s, sessions (fst r) = s :: sessions a /\
            ChatSession.title s = "What is the SN2 mechanism?".
Proof.
  cbv zeta.
  split; [reflexivity|].
  split; [eexists; reflexivity|].
  destruct (session_title "What is the SN2 mechanism?" [] 5 "2024-01-01T00:00:00.000Z"
              (initializeChatDone (Some 1) initialApp) _ _ eq_refl eq_refl)
    as [(s & E & _ & _ & T & _) _].
  exists s. split; [exact E | exact T].
Defined.

(** C6 as stated fails: the send that creates the session carries a file
    and is still encoding it when a second send, into the same session,
    appends its user message.  The first user message of the session is the
    second send's; the title is taken from the first send's text. *)
Lemma session_title_counterexample :
  let sys := run [InitEffect; InitDone (Some 1);
                  CallSend "Summarise this file"
                    [File.mk "notes.pdf" "application/pdf" "JVBERi0=" "blob:1"]
                    5 "2024-01-01T00:00:00.005Z";
                  CallSend "never mind" [] 6 "2024-01-01T00:00:00.006Z";
                  Resume 1 (AttachmentsResolved 7 7);
                  Resume 0 (AttachmentsResolved 8 8)] initialSystem in
  exists s first later,
    sessions (app sys) = [s] /\
    ChatSession.messages s = first :: later /\
    ChatMessage.role first = user /\
    ChatMessage.text first = "never mind" /\
    ChatSession.title s = "Summarise this file" /\
    ChatSession.title s <> JS.or (JS.substring0 40 (ChatMessage.text first)) "New Chat".
Proof.
  cbv zeta. do 3 eexists. split; [reflexivity|]. split; [reflexivity|].
  split; [reflexivity|]. split; [reflexivity|]. split; [reflexivity|].
  discriminate.
Qed.

(** ** The aggregator *)

Lemma find_map_session (p : ChatSession.t -> bool) (f : ChatSession.t -> ChatSession.t) ss :
  (forall s, p (f s) = p s) ->
  find p (map f ss) = option_map f (find p ss).
Proof.
  intros H. induction ss as [|s ss IH]; simpl; [reflexivity|].
  rewrite H. destruct (p s); [reflexivity | exact IH].
Qed.

Lemma find_session_In sid ss :
  In sid (map ChatSession.id ss) ->
  exists s, find (fun s => String.eqb (ChatSession.id s) sid) ss = Some s /\
            ChatSession.id s = sid.
Proof.
  induction ss as [|s ss IH]; simpl; [tauto|].
  intros H. destruct (String.eqb_spec (ChatSession.id s) sid) as [E|N].
  - exists s; auto.
  - destruct H as [H|H]; [contradiction | auto].
Qed.

Lemma messagesOf_appendMessage sid m ss :
  In sid (map ChatSession.id ss) ->
  messagesOf sid (appendMessage sid m ss) = messagesOf sid ss ++ [m].
Proof.
  intros H. destruct (find_session_In _ _ H) as (s & F & E).
  unfold messagesOf, appendMessage.
  rewrite find_map_session by (intros s'; destruct (String.eqb (ChatSession.id s') sid) eqn:E'; simpl; now rewrite E').
  rewrite F; simpl. now rewrite E, String.eqb_refl.
Qed.

(** [m => m.id === modelMessageId ? {...m, text: modelResponse} : m] *)
Lemma messagesOf_foldResponse sid mid r ss :
  messagesOf sid (foldResponse sid mid r ss)
  = map (fun m => if String.eqb (ChatMessage.id m) mid
                  then ChatMessage.withText m r else m) (messagesOf sid ss).
Proof.
  unfold messagesOf, foldResponse.
  rewrite find_map_session by (intros s'; destruct (String.eqb (ChatSession.id s') sid) eqn:E'; simpl; now rewrite E').
  destruct (find _ ss) as [s|] eqn:F; simpl; [|reflexivity].
  apply find_some in F as [_ F]. now rewrite F.
Qed.

Lemma appendMessage_ids sid m ss :
  map ChatSession.id (appendMessage sid m ss) = map ChatSession.id ss.
Proof.
  unfold appendMessage. rewrite map_map. apply map_ext.
  intros s. now destruct (String.eqb _ _).
Qed.

Lemma foldResponse_ids sid mid r ss :
  map ChatSession.id (foldResponse sid mid r ss) = map ChatSession.id ss.
Proof.
  unfold foldResponse. rewrite map_map. apply map_ext.
  intros s. now destruct (String.eqb _ _).
Qed.

(** A later fold overwrites an earlier one. *)
Lemma foldResponse_absorb sid mid r1 r2 ss :
  foldResponse sid mid r2 (foldResponse sid mid r1 ss) = foldResponse sid mid r2 ss.
Proof.
  unfold foldResponse. rewrite map_map. apply map_ext. intros s.
  destruct (String.eqb (ChatSession.id s) sid) eqn:E; simpl; rewrite E; [|reflexivity].
  unfold ChatSession.withMessages; simpl. f_equal.
  rewrite map_map. apply map_ext. intros m.
  destruct (String.eqb (ChatMessage.id m) mid) eqn:Em; simpl; now rewrite Em.
Qed.

Lemma joined_cons f fs : joined (f :: fs) = (f ++ joined fs)%string.
Proof.
  unfold joined; simpl. destruct fs; [now rewrite append_empty_r | reflexivity].
Qed.

Lemma resumeAll_app e1 e2 x a :
  resumeAll (e1 ++ e2) x a
  = resumeAll e2 (snd (resumeAll e1 x a)) (fst (resumeAll e1 x a)).
Proof.
  revert x a; induction e1 as [|ev e1 IH]; intros x a; simpl; [reflexivity|].
  destruct (resume ev x a) as [a' x']. apply IH.
Qed.

Lemma resume_chunk x a mid acc f :
  Send.phase x = Streaming mid acc ->
  resume (Chunk f) x a
  = (setSessions (foldResponse (Send.sessionId x) mid (acc ++ f)) a,
     Send.at_ (Streaming mid (acc ++ f)) x).
Proof. intros P. unfold resume. now rewrite P. Qed.

(** The loop [for await (const chunk of stream)] over the fragments [fs]. *)
Lemma resumeAll_chunks fs : forall a x mid acc,
  Send.phase x = Streaming mid acc ->
  Send.phase (snd (resumeAll (map Chunk fs) x a)) = Streaming mid (acc ++ joined fs) /\
  Send.sessionId (snd (resumeAll (map Chunk fs) x a)) = Send.sessionId x /\
  sessions (fst (resumeAll (map Chunk fs) x a))
  = match fs with
    | [] => sessions a
    | _ => foldResponse (Send.sessionId x) mid (acc ++ joined fs) (sessions a)
    end.
Proof.
  induction fs as [|f fs IH]; intros a x mid acc P.
  - simpl. unfold joined; simpl. now rewrite append_empty_r.
  - simpl map. simpl resumeAll. rewrite (resume_chunk _ _ _ _ _ P).
    destruct (IH (setSessions (foldResponse (Send.sessionId x) mid (acc ++ f)) a)
                 (Send.at_ (Streaming mid (acc ++ f)) x) mid (acc ++ f)%string eq_refl)
      as (P' & S' & E').
    rewrite joined_cons, <- append_assoc.
    repeat split; [exact P' | exact S' |].
    rewrite E'. simpl. destruct fs as [|g fs].
    + unfold joined; simpl. now rewrite append_empty_r.
    + apply foldResponse_absorb.
Qed.

Lemma keptExcept_refl mid ms : keptExcept mid ms ms.
Proof. induction ms; constructor; auto. Qed.

Lemma keptExcept_retext mid r ms :
  keptExcept mid ms
    (map (fun m => if String.eqb (ChatMessage.id m) mid
                   then ChatMessage.withText m r else m) ms).
Proof.
  induction ms as [|m ms IH]; simpl; constructor; auto.
  destruct (String.eqb_spec (ChatMessage.id m) mid); simpl; intuition.
Qed.

Lemma keptExcept_length mid ms ms' :
  keptExcept mid ms ms' -> List.length ms' = List.length ms.
Proof. intros H. symmetry. exact (Forall2_length H). Qed.

Lemma resume_opened x a now :
  Send.phase x = AwaitStream ->
  resume (StreamOpened now) x a
  = (setSessions (appendMessage (Send.sessionId x)
                    (ChatMessage.mk (modelMessageIdAt now) model "" None)) a,
     Send.at_ (Streaming (modelMessageIdAt now) "") x).
Proof. intros P. unfold resume. now rewrite P. Qed.

(** The placeholder and the fragments [fs] folded into it. *)
Lemma opened_then_chunks a x now fs :
  Send.phase x = AwaitStream ->
  In (Send.sessionId x) (map ChatSession.id (sessions a)) ->
  let r := resumeAll (StreamOpened now :: map Chunk fs) x a in
  Send.phase (snd r) = Streaming (modelMessageIdAt now) (joined fs) /\
  Send.sessionId (snd r) = Send.sessionId x /\
  In (Send.sessionId x) (map ChatSession.id (sessions (fst r))) /\
  exists older,
    messagesOf (Send.sessionId x) (sessions (fst r))
    = older ++ [ChatMessage.mk (modelMessageIdAt now) model (joined fs) None] /\
    keptExcept (modelMessageIdAt now) (messagesOf (Send.sessionId x) (sessions a)) older.
Proof.
  intros P Hin. cbv zeta. simpl resumeAll. rewrite (resume_opened _ _ _ P).
  set (sid := Send.sessionId x). set (mid := modelMessageIdAt now).
  set (a1 := setSessions _ a). set (x1 := Send.at_ _ x).
  destruct (resumeAll_chunks fs a1 x1 mid "" eq_refl) as (P' & S' & E').
  simpl in P'. split; [exact P'|]. split; [exact S'|].
  rewrite E'. subst a1 x1; simpl. fold sid.
  destruct fs as [|f fs].
  - rewrite appendMessage_ids. split; [exact Hin|].
    exists (messagesOf sid (sessions a)). split.
    + now rewrite messagesOf_appendMessage.
    + apply keptExcept_refl.
  - rewrite foldResponse_ids, appendMessage_ids. split; [exact Hin|].
    rewrite messagesOf_foldResponse, messagesOf_appendMessage by exact Hin.
    rewrite map_app. simpl. rewrite String.eqb_refl.
    eexists. split; [reflexivity|]. apply keptExcept_retext.
Qed.


Lemma exampleSend_in_flight : nth_error (sends exampleSystem) 0 = Some exampleSend.
Proof. reflexivity. Qed.


(** ** Faults *)

Lemma resume_fault_streaming x a mid acc now :
  Send.phase x = Streaming mid acc ->
  resume (Fault now) x a
  = (catchFinally now (Send.sessionId x) a, Send.at_ Returned x).
Proof. intros P. unfold resume. now rewrite P. Qed.

(** ** Switching the current session during a send *)

Lemma others_appendMessage sid m ss : others sid (appendMessage sid m ss) = others sid ss.
Proof.
  unfold others, appendMessage.
  induction ss as [|s ss IH]; simpl; [reflexivity|].
  destruct (String.eqb (ChatSession.id s) sid) eqn:E; simpl; rewrite E; simpl;
    now rewrite IH.
Qed.

Lemma others_foldResponse sid mid r ss :
  others sid (foldResponse sid mid r ss) = others sid ss.
Proof.
  unfold others, foldResponse.
  induction ss as [|s ss IH]; simpl; [reflexivity|].
  destruct (String.eqb (ChatSession.id s) sid) eqn:E; simpl; rewrite E; simpl;
    now rewrite IH.
Qed.

Lemma resume_others ev x a :
  others (Send.sessionId x) (sessions (fst (resume ev x a)))
  = others (Send.sessionId x) (sessions a).
Proof.
  unfold resume.
  destruct (Send.phase x), ev; simpl;
    auto using others_appendMessage, others_foldResponse.
  destruct (isMain (Send.view x)); simpl;
    (destruct (chatRef a); simpl; [apply others_appendMessage|]);
    rewrite others_appendMessage; apply others_appendMessage.
Qed.

Lemma nth_appendMessage_other sid m ss j s :
  nth_error ss j = Some s -> ChatSession.id s <> sid ->
  nth_error (appendMessage sid m ss) j = Some s.
Proof.
  intros Hj N. unfold appendMessage. rewrite (map_nth_error _ _ _ Hj).
  now destruct (String.eqb_spec (ChatSession.id s) sid).
Qed.

Lemma nth_foldResponse_other sid mid acc ss j s :
  nth_error ss j = Some s -> ChatSession.id s <> sid ->
  nth_error (foldResponse sid mid acc ss) j = Some s.
Proof.
  intros Hj N. unfold foldResponse. rewrite (map_nth_error _ _ _ Hj).
  now destruct (String.eqb_spec (ChatSession.id s) sid).
Qed.

(** Resuming a send leaves a session with another id where it is and as it
    is. *)
Lemma resume_elsewhere ev x a j s :
  nth_error (sessions a) j = Some s ->
  ChatSession.id s <> Send.sessionId x ->
  nth_error (sessions (fst (resume ev x a))) j = Some s.
Proof.
  intros Hj N. unfold resume.
  destruct (Send.phase x), ev; simpl;
    auto using nth_appendMessage_other, nth_foldResponse_other.
  destruct (isMain (Send.view x)); simpl;
    destruct (chatRef a); simpl;
    auto using nth_appendMessage_other.
Qed.

Lemma resume_sessionId ev x a :
  Send.sessionId (snd (resume ev x a)) = Send.sessionId x.
Proof.
  unfold resume.
  destruct (Send.phase x), ev; simpl; try reflexivity;
    try (destruct (Send.files x); reflexivity).
  destruct (isMain (Send.view x)); simpl; destruct (chatRef a); reflexivity.
Qed.

Lemma nth_error_replaceNth {A} (l : list A) : forall i j x y,
  nth_error l i = Some x ->
  nth_error (replaceNth j y l) i = Some (if Nat.eqb i j then y else x).
Proof.
  induction l as [|z l IH]; intros [|i] [|j] x y H; simpl in *; try discriminate; auto.
Qed.

Lemma step_keeps_send act s i x :
  nth_error (sends s) i = Some x ->
  exists x', nth_error (sends (step act s)) i = Some x' /\
             Send.sessionId x' = Send.sessionId x.
Proof.
  intros H. destruct act; simpl; try (exists x; auto; fail).
  - destruct (handleSendMessage _ _ _ _ _) as [a' [y|]]; simpl; exists x; split; auto.
    rewrite nth_error_app1; [exact H|]. apply nth_error_Some. congruence.
  - destruct (nth_error (sends s) i0) as [y|] eqn:Hy; [|exists x; auto].
    pose proof (resume_sessionId ev y (app s)) as R.
    destruct (resume ev y (app s)) as [a' y']; simpl in *.
    rewrite (nth_error_replaceNth _ _ _ _ _ H).
    destruct (Nat.eqb_spec i i0) as [->|N]; [|exists x; auto].
    exists y'. split; [reflexivity|]. congruence.
Qed.

Lemma run_keeps_send acts : forall s i x,
  nth_error (sends s) i = Some x ->
  exists x', nth_error (sends (run acts s)) i = Some x' /\
             Send.sessionId x' = Send.sessionId x.
Proof.
  induction acts as [|act acts IH]; intros s i x H; simpl.
  - exists x; auto.
  - destruct (step_keeps_send act s i x H) as (x1 & H1 & E1).
    destruct (IH _ _ _ H1) as (x2 & H2 & E2).
    exists x2. split; [exact H2 | congruence].
Qed.

Lemma handleSendMessage_current text files now iso a a' x :
  handleSendMessage text files now iso a = (a', Some x) ->
  currentSessionId a' = Some (Send.sessionId x).
Proof.
  unfold handleSendMessage. destruct (_ || _); [discriminate|].
  destruct (noSession (currentSessionId a)) eqn:N; intros [= <- <-]; simpl; auto.
  destruct (currentSessionId a); [reflexivity | discriminate].
Qed.

(** C5, as the code has it.  Once a send has started, whatever the
    component does next (switching the current session with [loadChat] or
    [startNewChat] included), the invocation keeps the session id that was
    current when it started, and resuming it with any event, a fragment
    included, leaves every session with another id exactly as it was and
    where it was.  Switching itself does not touch the session list.  When
    the session ids of the store are pairwise distinct, one session at most
    has the id of the send. *)
Theorem switching_never_redirects :
  forall (sys0 : System) (text : string) (files : list File.t) (now : Z) (iso : string)
         (a1 : App) (x : Send.t) (acts : list Action) (ev : Event),
    handleSendMessage text files now iso (app sys0) = (a1, Some x) ->
    let i := List.length (sends sys0) in
    let sys := run acts (step (CallSend text files now iso) sys0) in
    currentSessionId a1 = Some (Send.sessionId x) /\
    (exists x', nth_error (sends sys) i = Some x' /\
                Send.sessionId x' = Send.sessionId x) /\
    others (Send.sessionId x) (sessions (app (step (Resume i ev) sys)))
    = others (Send.sessionId x) (sessions (app sys)) /\
    (forall j s, nth_error (sessions (app sys)) j = Some s ->
                 ChatSession.id s <> Send.sessionId x ->
                 nth_error (sessions (app (step (Resume i ev) sys))) j = Some s) /\
    (forall sid a, sessions (loadChat sid a) = sessions a /\
                   sessions (startNewChat a) = sessions a) /\
    (NoDup (map ChatSession.id (sessions (app sys))) ->
     forall j j' s s',
       nth_error (sessions (app sys)) j = Some s ->
       nth_error (sessions (app sys)) j' = Some s' ->
       ChatSession.id s = Send.sessionId x ->
       ChatSession.id s' = Send.sessionId x ->
       j = j').
Proof.
  intros sys0 text files now iso a1 x acts ev H. cbv zeta.
  split; [exact (handleSendMessage_current _ _ _ _ _ _ _ H)|].
  assert (K : exists x', nth_error
                (sends (run acts (step (CallSend text files now iso) sys0)))
                (List.length (sends sys0)) = Some x' /\
              Send.sessionId x' = Send.sessionId x).
  { apply run_keeps_send. simpl. rewrite H. simpl.
    rewrite nth_error_app2, Nat.sub_diag by lia. reflexivity. }
  split; [exact K|].
  destruct K as (x' & Hx' & E).
  set (sys := run acts _) in *.
  split; [|split; [|split; [intros; split; reflexivity|]]].
  - simpl. rewrite Hx'.
    pose proof (resume_others ev x' (app sys)) as R.
    destruct (resume ev x' (app sys)) as [a' y']. simpl in *.
    now rewrite <- E.
  - intros j s Hj N. simpl. rewrite Hx'.
    pose proof (resume_elsewhere ev x' (app sys) j s Hj) as R.
    destruct (resume ev x' (app sys)) as [a' y']. simpl in *.
    apply R. now rewrite E.
  - intros ND j j' s s' Hj Hj' Es Es'.
    apply (proj1 (NoDup_nth_error _) ND).
    + apply nth_error_Some. rewrite (map_nth_error _ _ _ Hj). discriminate.
    + rewrite (map_nth_error _ _ _ Hj), (map_nth_error _ _ _ Hj'). congruence.
Qed.

Lemma switching_never_redirects_witness :
  let send := CallSend "Say hello" [] 1000 "2024-01-01T00:00:01.000Z" in
  let sys := run [Resume 1 (AttachmentsResolved 1001 1001);
                  Resume 1 (StreamOpened 1002);
                  Resume 1 (Chunk "Hel");
                  LoadChat "session-7";
                  InitDone (Some 3)] (step send twoSessions) in
  (exists a1 x, handleSendMessage "Say hello" [] 1000 "2024-01-01T00:00:01.000Z"
                  (app twoSessions) = (a1, Some x) /\
                Send.sessionId x = "session-1000") /\
  currentSessionId (app sys) = Some "session-7" /\
  others "session-1000" (sessions (app (step (Resume 1 (Chunk "lo")) sys)))
  = others "session-1000" (sessions (app sys)).
Proof.
  cbv zeta.
  split; [do 2 eexists; split; reflexivity|].
  split; [reflexivity|].
  destruct (switching_never_redirects twoSessions "Say hello" [] 1000
              "2024-01-01T00:00:01.000Z" _ _
              [Resume 1 (AttachmentsResolved 1001 1001);
               Resume 1 (StreamOpened 1002);
               Resume 1 (Chunk "Hel");
               LoadChat "session-7";
               InitDone (Some 3)] (Chunk "lo") eq_refl) as (_ & _ & O & _).
  exact O.
Defined.

(** C5 as stated fails: a send creates its session at reading 5 and asks
    for the stream; a new chat is started, and the send that creates the
    next session reads 5 again (C1), so that the two sessions share their
    id.  The placeholder of the first send and the fragment it receives go
    into both: the session selected after the switch shows the old answer. *)
Lemma switching_never_redirects_counterexample :
  let sys := run [InitEffect; InitDone (Some 1);
                  CallSend "Old question" [] 5 "2024-01-01T00:00:00.005Z";
                  Resume 0 (AttachmentsResolved 6 6);
                  NewChat; InitDone (Some 2);
                  CallSend "New question" [] 5 "2024-01-01T00:00:00.005Z";
                  Resume 0 (StreamOpened 7)] initialSystem in
  let sys' := step (Resume 0 (Chunk "OLD-ANSWER")) sys in
  exists new old,
    sessions (app sys') = [new; old] /\
    ChatSession.title old = "Old question" /\
    ChatSession.title new = "New question" /\
    currentMessages (app sys') = ChatSession.messages new /\
    map ChatMessage.text (ChatSession.messages new) = ["OLD-ANSWER"] /\
    map ChatMessage.text (currentMessages (app sys)) = [""].
Proof. cbv zeta. do 2 eexists. repeat split; reflexivity. Qed.

(** ** The reference codec reads back what it writes *)

Section JsonRoundTrip.

Local Open Scope string_scope.

Lemma json_escapeChar c tail :
  Json.chars (Json.escapeChar c ++ tail) = Json.consChar c (Json.chars tail).
Proof.
  destruct c as [[] [] [] [] [] [] [] []]; reflexivity.
Qed.

Lemma json_chars_escape s rest :
  Json.chars (Json.escape s ++ String Json.quote rest) = Some (s, rest).
Proof.
  induction s as [|c s IH]; simpl.
  - reflexivity.
  - rewrite append_assoc, json_escapeChar, IH. reflexivity.
Qed.

Lemma json_string s rest : Json.string_ (Json.str s ++ rest) = Some (s, rest).
Proof.
  unfold Json.str, Json.string_. simpl.
  rewrite append_assoc. apply json_chars_escape.
Qed.

Lemma json_expect lit rest : Json.expect lit (lit ++ rest) = Some (tt, rest).
Proof.
  induction lit as [|c lit IH]; simpl; [reflexivity|].
  now rewrite Ascii.eqb_refl.
Qed.

Lemma andThen_ok {X Y} (p : Json.Parser X) (k : X -> Json.Parser Y) s x r :
  p s = Some (x, r) -> Json.andThen p k s = k x r.
Proof. intros H. unfold Json.andThen. now rewrite H. Qed.

Lemma json_elems_length {X} (pr : X -> string) xs : forall x rest,
  (List.length xs < String.length (Json.elems pr x xs ++ rest))%nat.
Proof.
  induction xs as [|y ys IH]; intros x rest; simpl Json.elems;
    rewrite !append_assoc, length_append; simpl.
  - lia.
  - specialize (IH y rest). lia.
Qed.

Lemma reads_string nested : Reads (Json.valueWith nested) Json.str JString.
Proof.
  intros s rest. unfold Json.valueWith, Json.str. simpl.
  rewrite append_assoc.
  change (String Json.quote "" ++ rest) with (String Json.quote rest).
  now rewrite (andThen_ok _ _ _ _ _ (json_chars_escape s _)).
Qed.

Lemma json_items {X} (p : Json.Parser JSValue) (pr : X -> string) g xs :
  Reads p pr g ->
  forall x fuel rest,
    (List.length xs < fuel)%nat ->
    Json.items p fuel (Json.elems pr x xs ++ rest) = Some (map g (x :: xs), rest).
Proof.
  intros Hp. induction xs as [|y ys IH]; intros x fuel rest Hf;
    (destruct fuel as [|fuel]; [simpl in Hf; lia|]);
    simpl Json.elems; rewrite !append_assoc; simpl Json.items;
    rewrite Hp; simpl.
  - reflexivity.
  - rewrite IH; [reflexivity | simpl in Hf; lia].
Qed.

Lemma valueWith_array nested t :
  Json.valueWith nested (String "[" (String "{" t))
  = Json.andThen (Json.items nested (String.length (String "{" t)))
      (fun l => Json.ret (JArray l)) (String "{" t).
Proof. reflexivity. Qed.

Lemma valueWith_object nested t :
  Json.valueWith nested (String "{" (String Json.quote t))
  = Json.andThen (Json.members nested (String.length (String Json.quote t)))
      (fun ms => Json.ret (Json.object ms)) (String Json.quote t).
Proof. reflexivity. Qed.

Lemma reads_array {X} nested (pr : X -> string) g :
  Reads nested pr g ->
  (forall y, exists t, pr y = String "{" t) ->
  Reads (Json.valueWith nested) (Json.arr pr) (fun l => JArray (map g l)).
Proof.
  intros Hp Hstart xs rest. destruct xs as [|x xs]; [reflexivity|].
  simpl Json.arr. simpl append.
  assert (E : exists t, Json.elems pr x xs ++ rest = String "{" t).
  { destruct (Hstart x) as [t Et].
    destruct xs; simpl Json.elems; rewrite Et; simpl; eauto. }
  destruct E as [t E].
  rewrite E, valueWith_array. rewrite <- E.
  rewrite (andThen_ok _ _ _ _ _
             (json_items nested pr g xs Hp x _ rest (json_elems_length pr xs x rest))).
  reflexivity.
Qed.

(** One member of an object, followed by another. *)
Lemma json_members_more (nested : Json.Parser JSValue) fuel k pv v rest :
  nested (pv ++ "," ++ rest) = Some (v, "," ++ rest) ->
  Json.members nested (S fuel) (Json.str k ++ ":" ++ pv ++ "," ++ rest)
  = match Json.members nested fuel rest with
    | Some (ms, r) => Some ((k, v) :: ms, r)
    | None => None
    end.
Proof.
  intros H. cbn [Json.members].
  change (Json.skip (Json.str k ++ ":" ++ pv ++ "," ++ rest))
    with (Json.str k ++ ":" ++ pv ++ "," ++ rest).
  rewrite json_string. change ("," ++ rest) with (String "," rest) in H.
  simpl. rewrite H. reflexivity.
Qed.

(** The last member of an object. *)
Lemma json_members_last (nested : Json.Parser JSValue) fuel k pv v rest :
  nested (pv ++ "}" ++ rest) = Some (v, "}" ++ rest) ->
  Json.members nested (S fuel) (Json.str k ++ ":" ++ pv ++ "}" ++ rest)
  = Some ([(k, v)], rest).
Proof.
  intros H. cbn [Json.members].
  change (Json.skip (Json.str k ++ ":" ++ pv ++ "}" ++ rest))
    with (Json.str k ++ ":" ++ pv ++ "}" ++ rest).
  rewrite json_string. change ("}" ++ rest) with (String "}" rest) in H.
  simpl. rewrite H. reflexivity.
Qed.

Lemma valueWith_object_str nested k t :
  Json.valueWith nested (String "{" (Json.str k ++ t))
  = Json.andThen (Json.members nested (String.length (Json.str k ++ t)))
      (fun ms => Json.ret (Json.object ms)) (Json.str k ++ t).
Proof. reflexivity. Qed.

Ltac json_object :=
  rewrite valueWith_object_str; unfold Json.andThen;
  match goal with
  | |- context [Json.members _ ?n _] =>
      let F := fresh "fuel" in
      let EF := fresh "EF" in
      remember n as F eqn:EF;
      rewrite length_append in EF; simpl in EF; subst F
  end.

Lemma reads_attachment nested :
  Reads nested Json.str JString ->
  Reads (Json.valueWith nested) Json.attachment Value.ofAttachment.
Proof.
  intros Hs a rest. unfold Json.attachment. rewrite !append_assoc.
  change ("{" ++ Json.str "name" ++ ?t) with (String "{" (Json.str "name" ++ t)).
  json_object.
  do 3 rewrite (json_members_more nested _ _ _ _ _ (Hs _ _)).
  rewrite (json_members_last nested _ _ _ _ _ (Hs _ _)).
  reflexivity.
Qed.

Lemma reads_message nested :
  Reads nested Json.str JString ->
  Reads nested (Json.arr Json.attachment) (fun l => JArray (map Value.ofAttachment l)) ->
  Reads (Json.valueWith nested) Json.message Value.ofMessage.
Proof.
  intros Hs Ha m rest. unfold Json.message. rewrite !append_assoc.
  change ("{" ++ Json.str "id" ++ ?t) with (String "{" (Json.str "id" ++ t)).
  json_object.
  do 2 rewrite (json_members_more nested _ _ _ _ _ (Hs _ _)).
  destruct m as [i r t [l|]]; simpl ChatMessage.attachments; rewrite ?append_assoc.
  - rewrite (json_members_more nested _ _ _ _ _ (Hs _ _)).
    rewrite (json_members_last nested _ _ _ _ _ (Ha _ _)).
    destruct r; reflexivity.
  - rewrite (json_members_last nested _ _ _ _ _ (Hs _ _)).
    destruct r; reflexivity.
Qed.

Lemma reads_session nested :
  Reads nested Json.str JString ->
  Reads nested (Json.arr Json.message) (fun l => JArray (map Value.ofMessage l)) ->
  Reads (Json.valueWith nested) Json.session Value.ofSession.
Proof.
  intros Hs Hm s rest. unfold Json.session. rewrite !append_assoc.
  change ("{" ++ Json.str "id" ++ ?t) with (String "{" (Json.str "id" ++ t)).
  json_object.
  do 2 rewrite (json_members_more nested _ _ _ _ _ (Hs _ _)).
  rewrite (json_members_more nested _ _ _ _ _ (Hm _ _)).
  rewrite (json_members_last nested _ _ _ _ _ (Hs _ _)).
  reflexivity.
Qed.

Lemma value_reads_string n : Reads (Json.value (S n)) Json.str JString.
Proof. exact (reads_string (Json.value n)). Qed.

Lemma value_reads_attachments n :
  Reads (Json.value (3 + n)) (Json.arr Json.attachment)
    (fun l => JArray (map Value.ofAttachment l)).
Proof.
  apply (reads_array (Json.value (2 + n))).
  - exact (reads_attachment _ (value_reads_string n)).
  - intros y. eexists. reflexivity.
Qed.

Lemma value_reads_messages n :
  Reads (Json.value (5 + n)) (Json.arr Json.message)
    (fun l => JArray (map Value.ofMessage l)).
Proof.
  apply (reads_array (Json.value (4 + n))).
  - exact (reads_message _ (value_reads_string (2 + n)) (value_reads_attachments n)).
  - intros y. eexists. reflexivity.
Qed.

Lemma value_reads_sessions n :
  Reads (Json.value (7 + n)) Json.stringify Value.ofSessions.
Proof.
  apply (reads_array (Json.value (6 + n))).
  - exact (reads_session _ (value_reads_string (4 + n)) (value_reads_messages n)).
  - intros y. eexists. reflexivity.
Qed.

Lemma json_stringify_length s ss :
  exists n, String.length (Json.stringify (s :: ss)) = 6 + n.
Proof.
  unfold Json.stringify, Json.arr.
  destruct ss; simpl Json.elems; unfold Json.session; simpl; eexists; reflexivity.
Qed.

(** The reference codec reads back what it writes. *)
Theorem json_round_trip (ss : list ChatSession.t) :
  Json.parse (Json.stringify ss) = Normal (Value.ofSessions ss).
Proof.
  unfold Json.parse, Json.read. destruct ss as [|s ss]; [reflexivity|].
  destruct (json_stringify_length s ss) as [n ->].
  rewrite <- (append_empty_r (Json.stringify (s :: ss))).
  change (S (6 + n)) with (7 + n).
  rewrite (value_reads_sessions n (s :: ss) ""). reflexivity.
Qed.

Lemma json_stringify_nonempty ss : Json.stringify ss <> "".
Proof. destruct ss; discriminate. Qed.

End JsonRoundTrip.

(** ** Session lists as values *)

Lemma each_map {X} (f : JSValue -> option X) (g : X -> JSValue) (l : list X) :
  (forall x, f (g x) = Some x) -> Value.each f (map g l) = Some l.
Proof.
  intros H. induction l as [|x l IH]; simpl; [reflexivity|].
  now rewrite H, IH.
Qed.

Lemma each_exact {X} (f : JSValue -> option X) (g : X -> JSValue) :
  (forall v x, f v = Some x -> v = g x) ->
  forall l xs, Value.each f l = Some xs -> l = map g xs.
Proof.
  intros H. induction l as [|v l IH]; simpl; intros xs E.
  - now injection E as <-.
  - destruct (f v) as [x|] eqn:F; [|discriminate].
    destruct (Value.each f l) as [ys|]; [|discriminate].
    injection E as <-. simpl. now rewrite (H _ _ F), (IH _ eq_refl).
Qed.

Ltac open_value :=
  repeat match goal with
         | |- context [match ?x with _ => _ end] =>
             is_var x; destruct x; try discriminate
         end.

Ltac close_keys :=
  unfold Value.keysAre, Value.asRole;
  repeat match goal with
         | |- context [String.eqb ?a ?b] =>
             destruct (String.eqb_spec a b); simpl; try discriminate
         end;
  intros [= <-]; subst; reflexivity.

Lemma asAttachment_ofAttachment a :
  Value.asAttachment (Value.ofAttachment a) = Some a.
Proof. destruct a; reflexivity. Qed.

Lemma asAttachment_exact v a :
  Value.asAttachment v = Some a -> v = Value.ofAttachment a.
Proof.
  unfold Value.asAttachment. open_value. close_keys.
Qed.

Lemma asMessage_ofMessage m : Value.asMessage (Value.ofMessage m) = Some m.
Proof.
  destruct m as [i r t [l|]]; unfold Value.ofMessage; simpl app.
  - destruct r; simpl;
      rewrite (each_map _ _ l asAttachment_ofAttachment); reflexivity.
  - destruct r; reflexivity.
Qed.

Lemma asMessage_exact v m :
  Value.asMessage v = Some m -> v = Value.ofMessage m.
Proof.
  unfold Value.asMessage. open_value.
  - close_keys.
  - destruct (Value.each Value.asAttachment elements) as [l|] eqn:E.
    + apply (each_exact _ _ asAttachment_exact) in E. subst. close_keys.
    + destruct (Value.asRole s2); discriminate.
Qed.

Lemma asSession_ofSession s : Value.asSession (Value.ofSession s) = Some s.
Proof.
  destruct s as [i t ms c]. simpl.
  now rewrite (each_map _ _ ms asMessage_ofMessage).
Qed.

Lemma asSession_exact v s :
  Value.asSession v = Some s -> v = Value.ofSession s.
Proof.
  unfold Value.asSession. open_value.
  destruct (Value.each Value.asMessage elements) as [l|] eqn:E; [|discriminate].
  apply (each_exact _ _ asMessage_exact) in E. subst. close_keys.
Qed.

(** The value of a session list is read back as that list. *)
Lemma asSessions_ofSessions ss : Value.asSessions (Value.ofSessions ss) = Some ss.
Proof. exact (each_map _ _ ss asSession_ofSession). Qed.

(** The values [asSessions] accepts are the values of session lists: a
    typed cell loses nothing of what was parsed. *)
Lemma asSessions_exact v ss :
  Value.asSessions v = Some ss <-> v = Value.ofSessions ss.
Proof.
  split; [|intros ->; apply asSessions_ofSessions].
  destruct v; try discriminate. simpl. intros E.
  apply (each_exact _ _ asSession_exact) in E. now subst.
Qed.

Lemma setSessionsTo_ofSessions ss a :
  setSessionsTo (Value.ofSessions ss) a = Typed (setSessions (fun _ => ss) a).
Proof. unfold setSessionsTo. now rewrite asSessions_ofSessions. Qed.

(** ** Persistence *)

Section PersistenceProperties.

Variable JSON_stringify : list ChatSession.t -> string.
Variable JSON_parse : string -> Completion JSValue.

(** C7. Whatever the storage holds, the load effect completes normally.
    With no item under the key or with the empty text the component is as
    it was, its session list empty; with a text [JSON.parse] rejects, it
    has the empty session list; with a text that parses to the value of a
    session list, it has that list.  With a text that parses to any other
    value ([null], an object, a number, an array of something else), the
    cell [sessions] holds that value: not the empty list, and not a session
    list at all. *)
Theorem load_effect_outcomes :
  forall ls : LocalStorage.t,
  exists m : Mounted,
    loadEffect JSON_parse ls initialApp = Normal m /\
    (LocalStorage.getItem storageKey ls = None -> m = Typed initialApp) /\
    (LocalStorage.getItem storageKey ls = Some "" -> m = Typed initialApp) /\
    (forall s e, LocalStorage.getItem storageKey ls = Some s ->
                 JSON_parse s = Throw e ->
                 m = Typed (setSessions (fun _ => []) initialApp)) /\
    (forall s v ss, LocalStorage.getItem storageKey ls = Some s ->
                    s <> "" ->
                    JSON_parse s = Normal v ->
                    Value.asSessions v = Some ss ->
                    m = Typed (setSessions (fun _ => ss) initialApp)) /\
    (forall s v, LocalStorage.getItem storageKey ls = Some s ->
                 s <> "" ->
                 JSON_parse s = Normal v ->
                 Value.asSessions v = None ->
                 m = Untyped initialApp v /\
                 forall ss, v <> Value.ofSessions ss).
Proof.
  intros ls. unfold loadEffect.
  destruct (LocalStorage.getItem storageKey ls) as [s|].
  - destruct s as [|c s]; simpl.
    + exists (Typed initialApp). split; [reflexivity|].
      split; [discriminate|]. split; [reflexivity|].
      split; [reflexivity|].
      split; intros s v; intros; congruence.
    + destruct (JSON_parse (String c s)) as [v|e] eqn:P; simpl.
      * exists (setSessionsTo v initialApp). split; [reflexivity|].
        split; [discriminate|]. split; [discriminate|].
        split; [intros s' e [= <-]; congruence|].
        unfold setSessionsTo.
        split.
        -- intros s' v' ss [= <-] _ Q A.
           assert (v' = v) as -> by congruence. now rewrite A.
        -- intros s' v' [= <-] _ Q A.
           assert (v' = v) as -> by congruence. rewrite A.
           split; [reflexivity|].
           intros ss E. apply asSessions_exact in E. congruence.
      * exists (Typed (setSessions (fun _ => []) initialApp)).
        split; [reflexivity|].
        split; [discriminate|]. split; [discriminate|].
        split; [reflexivity|].
        split; intros s' v'; intros; congruence.
  - exists (Typed initialApp). split; [reflexivity|].
    split; [reflexivity|]. split; [discriminate|].
    split; [discriminate|]. split; discriminate.
Qed.

(** What the save effect leaves in storage: the serialized list when
    [setItem] accepts it, the previous content when it throws. *)
Lemma saveEffect_cases a ls :
  (exists ls', LocalStorage.setItem storageKey (JSON_stringify (sessions a)) ls = Normal ls' /\
               saveEffect JSON_stringify a ls = Normal ls') \/
  (exists e, LocalStorage.setItem storageKey (JSON_stringify (sessions a)) ls = Throw e /\
             saveEffect JSON_stringify a ls = Normal ls).
Proof.
  unfold saveEffect.
  destruct (LocalStorage.setItem _ _ ls) as [ls'|e]; simpl; [left | right]; eauto.
Qed.

Lemma getItem_setItem k v ls ls' :
  LocalStorage.setItem k v ls = Normal ls' -> LocalStorage.getItem k ls' = Some v.
Proof.
  unfold LocalStorage.setItem, LocalStorage.getItem.
  destruct (_ <=? _)%nat; [|discriminate].
  intros [= <-]; simpl. now rewrite String.eqb_refl.
Qed.

(** Saving and then mounting, for any codec that reads back what it wrote
    for [ss]. *)
Lemma save_then_load_gen (ss : list ChatSession.t) (ls : LocalStorage.t) :
  JSON_parse (JSON_stringify ss) = Normal (Value.ofSessions ss) ->
  JSON_stringify ss <> "" ->
  (forall ls',
      LocalStorage.setItem storageKey (JSON_stringify ss) ls = Normal ls' ->
      exists a, saveThenLoad JSON_stringify JSON_parse ss ls = Normal (Typed a) /\
                sessions a = ss) /\
  (forall e,
      LocalStorage.setItem storageKey (JSON_stringify ss) ls = Throw e ->
      saveThenLoad JSON_stringify JSON_parse ss ls
      = loadEffect JSON_parse ls initialApp).
Proof.
  intros Hcodec Hne. unfold saveThenLoad, saveEffect; simpl. split.
  - intros ls' W. rewrite W; simpl.
    unfold loadEffect. rewrite (getItem_setItem _ _ _ _ W).
    destruct (JSON_stringify ss) as [|c s] eqn:E; [contradiction|].
    simpl. rewrite Hcodec. simpl. rewrite setSessionsTo_ofSessions.
    eexists; split; reflexivity.
  - intros e W. now rewrite W.
Qed.

End PersistenceProperties.

(** The failing input of C7 and its kin, run with the reference codec: the
    stored texts [null], [{}], [5] and [[null]] are JSON, none of them is a
    session list, and the load effect leaves each of the values in the cell
    [sessions].  A text that is not JSON gives the empty list. *)
Lemma load_effect_outcomes_witness :
  loadEffect Json.parse (LocalStorage.mk [(storageKey, "null")] 64) initialApp
  = Normal (Untyped initialApp JNull) /\
  loadEffect Json.parse (LocalStorage.mk [(storageKey, "{}")] 64) initialApp
  = Normal (Untyped initialApp (JObject [])) /\
  loadEffect Json.parse (LocalStorage.mk [(storageKey, "5")] 64) initialApp
  = Normal (Untyped initialApp (JNumber "5")) /\
  loadEffect Json.parse (LocalStorage.mk [(storageKey, "[null]")] 64) initialApp
  = Normal (Untyped initialApp (JArray [JNull])) /\
  loadEffect Json.parse (LocalStorage.mk [(storageKey, "{oops")] 64) initialApp
  = Normal (Typed initialApp).
Proof.
  split.
  - destruct (load_effect_outcomes Json.parse (LocalStorage.mk [(storageKey, "null")] 64))
      as (m & E & _ & _ & _ & _ & H).
    rewrite E. f_equal. apply (H "null"); [reflexivity | discriminate | | ]; reflexivity.
  - repeat split; vm_compute; reflexivity.
Defined.

(** C8, as the code has it.  When [setItem] accepts the serialized list,
    saving the list and then mounting on the resulting storage yields that
    list, whatever the sessions, messages and attachments are.  When
    [setItem] throws, the save effect swallows the fault, the storage is
    unchanged, and mounting yields whatever it held before. *)
Theorem save_then_load :
  forall (ss : list ChatSession.t) (ls : LocalStorage.t),
    (forall ls',
        LocalStorage.setItem storageKey (Json.stringify ss) ls = Normal ls' ->
        exists a, saveThenLoad Json.stringify Json.parse ss ls = Normal (Typed a) /\
                  sessions a = ss) /\
    (forall e,
        LocalStorage.setItem storageKey (Json.stringify ss) ls = Throw e ->
        saveThenLoad Json.stringify Json.parse ss ls
        = loadEffect Json.parse ls initialApp).
Proof.
  intros ss ls.
  exact (save_then_load_gen Json.stringify Json.parse ss ls
           (json_round_trip ss) (json_stringify_nonempty ss)).
Qed.

Lemma save_then_load_witness :
  let ss := sessions exampleApp in
  (exists ls', LocalStorage.setItem storageKey (Json.stringify ss) roomyStorage = Normal ls') /\
  exists a, saveThenLoad Json.stringify Json.parse ss roomyStorage = Normal (Typed a) /\
            sessions a = ss.
Proof.
  cbv zeta. split; [eexists; vm_compute; reflexivity|].
  destruct (save_then_load (sessions exampleApp) roomyStorage) as [K _].
  eapply K. vm_compute. reflexivity.
Defined.

(** C8 as stated fails: the list does not fit the storage, [setItem] throws,
    the save effect swallows the fault, and the next mount finds the list
    that was stored before. *)
Lemma save_then_load_counterexample :
  saveThenLoad Json.stringify Json.parse (sessions exampleApp) smallStorage
  = Normal (Typed initialApp) /\
  sessions initialApp <> sessions exampleApp.
Proof. split; [vm_compute; reflexivity | discriminate]. Qed.

(** ** The ids of a store are a function of what was minted *)

Lemma sessionIdAt_inj t t' : sessionIdAt t = sessionIdAt t' -> t = t'.
Proof.
  unfold sessionIdAt. intros H. apply append_inj_l in H. now apply numToString_inj.
Qed.

Lemma messageIdAt_inj k t k' t' :
  messageIdAt k t = messageIdAt k' t' -> k = k' /\ t = t'.
Proof.
  destruct k, k'; simpl; intros H;
    try (exfalso; first
           [ exact (userId_ne_modelId _ _ H)
           | exact (userId_ne_errorId _ _ H)
           | exact (modelId_ne_errorId _ _ H)
           | exact (userId_ne_modelId _ _ (eq_sym H))
           | exact (userId_ne_errorId _ _ (eq_sym H))
           | exact (modelId_ne_errorId _ _ (eq_sym H)) ]);
    split; try reflexivity;
    unfold userMessageIdAt, modelMessageIdAt, errorMessageIdAt in H;
    apply append_inj_l in H.
  - now apply numToString_inj.
  - apply append_inj_r in H. now apply numToString_inj.
  - now apply numToString_inj.
Qed.

Lemma idView_appendMessage sid k now role text atts ss :
  idView (appendMessage sid (ChatMessage.mk (messageIdAt k now) role text atts) ss)
  = applyMint (idView ss) (MintMessage sid k now).
Proof.
  unfold idView, appendMessage; simpl. rewrite !map_map.
  apply map_ext. intros s; simpl.
  destruct (String.eqb (ChatSession.id s) sid); simpl; [|reflexivity].
  now rewrite map_app.
Qed.

Lemma idView_foldResponse sid mid r ss : idView (foldResponse sid mid r ss) = idView ss.
Proof.
  unfold idView, foldResponse. rewrite map_map. apply map_ext. intros s.
  destruct (String.eqb (ChatSession.id s) sid); simpl; [|reflexivity].
  f_equal. rewrite map_map. apply map_ext. intros m.
  now destruct (String.eqb (ChatMessage.id m) mid).
Qed.

Lemma resume_idView ev x a :
  idView (sessions (fst (resume ev x a))) = replay (mintedBy ev x a) (idView (sessions a)).
Proof.
  unfold resume, mintedBy, catchFinally.
  destruct (Send.phase x), ev; simpl; try reflexivity;
    try (apply idView_foldResponse).
  - destruct (isMain (Send.view x)); simpl; destruct (chatRef a); simpl.
    + exact (idView_appendMessage _ KUser now _ _ _ _).
    + rewrite (idView_appendMessage _ KError nowCatch _ _ _ _).
      rewrite (idView_appendMessage _ KUser now _ _ _ _). reflexivity.
    + exact (idView_appendMessage _ KUser now _ _ _ _).
    + rewrite (idView_appendMessage _ KError nowCatch _ _ _ _).
      rewrite (idView_appendMessage _ KUser now _ _ _ _). reflexivity.
  - exact (idView_appendMessage _ KModel now _ _ _ _).
  - exact (idView_appendMessage _ KError now _ _ _ _).
  - exact (idView_appendMessage _ KError now _ _ _ _).
Qed.

Lemma step_idView act s :
  idView (sessions (app (step act s))) = replay (minted act s) (idView (sessions (app s))).
Proof.
  destruct act; simpl; try reflexivity.
  - unfold handleSendMessage.
    destruct (_ || _); [reflexivity|].
    destruct (noSession (currentSessionId (app s))); reflexivity.
  - destruct (nth_error (sends s) i) as [x|]; [|reflexivity].
    pose proof (resume_idView ev x (app s)) as H.
    destruct (resume ev x (app s)) as [a' x']. exact H.
  - unfold initEffect. now destruct (isNull _).
  - now destruct r.
Qed.

Lemma replay_app l1 l2 v : replay (l1 ++ l2) v = replay l2 (replay l1 v).
Proof. apply fold_left_app. Qed.

Lemma run_idView acts : forall s,
  idView (sessions (app (run acts s))) = replay (mintLog acts s) (idView (sessions (app s))).
Proof.
  induction acts as [|act acts IH]; intros s; simpl; [reflexivity|].
  change (fold_left (fun s act => step act s) acts (step act s)) with (run acts (step act s)).
  now rewrite IH, step_idView, replay_app.
Qed.

Lemma sessionTicks_app l1 l2 : sessionTicks (l1 ++ l2) = sessionTicks l1 ++ sessionTicks l2.
Proof.
  induction l1 as [|[t|sid k t] l1 IH]; simpl; [reflexivity | now rewrite IH | exact IH].
Qed.

Lemma messageMints_app l1 l2 : messageMints (l1 ++ l2) = messageMints l1 ++ messageMints l2.
Proof.
  induction l1 as [|[t|sid k t] l1 IH]; simpl; [reflexivity | exact IH | now rewrite IH].
Qed.

Lemma replay_snoc log e v : replay (log ++ [e]) v = applyMint (replay log v) e.
Proof. now rewrite replay_app. Qed.

Lemma idView_ids ss : map fst (idView ss) = map ChatSession.id ss.
Proof. unfold idView. now rewrite map_map. Qed.

(** The session ids of a store, newest first, are the ids minted from the
    readings at which sessions were created. *)
Lemma replay_session_ids log :
  map fst (replay log []) = rev (map sessionIdAt (sessionTicks log)).
Proof.
  induction log as [|e log IH] using rev_ind; [reflexivity|].
  rewrite replay_snoc, sessionTicks_app, map_app, rev_app_distr.
  destruct e as [t|sid k t]; simpl.
  - now rewrite IH.
  - rewrite <- IH, map_map. apply map_ext.
    intros p. now destruct (String.eqb (fst p) sid).
Qed.

(** The message ids of a session are the ids minted for its session id since
    some point of the log. *)
Lemma replay_messages log : forall i l,
  In (i, l) (replay log []) ->
  exists pre post,
    messageMints log = pre ++ post /\
    l = map mintId (filter (targets i) post).
Proof.
  induction log as [|e log IH] using rev_ind; intros i l H; [destruct H|].
  rewrite replay_snoc in H. rewrite messageMints_app.
  destruct e as [t|sid k t]; simpl in H |- *.
  - rewrite app_nil_r. destruct H as [[= <- <-]|H].
    + exists (messageMints log), []. now rewrite app_nil_r.
    + now apply IH.
  - apply in_map_iff in H as ([i0 l0] & E & Hin). simpl in E.
    destruct (IH _ _ Hin) as (pre & post & Elog & El).
    destruct (String.eqb_spec i0 sid) as [->|N]; injection E as <- <-.
    + exists pre, (post ++ [(sid, k, t)]). split.
      * now rewrite Elog, app_assoc.
      * rewrite filter_app, map_app. simpl. unfold targets at 2; simpl.
        rewrite String.eqb_refl. simpl. now rewrite El.
    + exists pre, (post ++ [(sid, k, t)]). split.
      * now rewrite Elog, app_assoc.
      * rewrite filter_app, map_app. simpl. unfold targets at 2; simpl.
        destruct (String.eqb_spec sid i0) as [->|_]; [contradiction|].
        simpl. now rewrite app_nil_r.
Qed.

Lemma run_session_ids acts :
  map ChatSession.id (sessions (app (run acts initialSystem)))
  = rev (map sessionIdAt (sessionTicks (mintLog acts initialSystem))).
Proof. now rewrite <- idView_ids, run_idView, replay_session_ids. Qed.

(** C1, as the code has it.  The id a send mints for a new session is
    [session-] followed by the clock reading, and it equals the id of a
    session already in the store exactly when an earlier session was created
    at the same reading; otherwise it is fresh. *)
Theorem fresh_session_id :
  forall (acts : list Action) (text : string) (files : list File.t) (now : Z)
         (iso : string) (a' : App) (x : Send.t),
    let sys := run acts initialSystem in
    noSession (currentSessionId (app sys)) = true ->
    handleSendMessage text files now iso (app sys) = (a', Some x) ->
    Send.sessionId x = sessionIdAt now /\
    (In (Send.sessionId x) (map ChatSession.id (sessions (app sys)))
     <-> In now (sessionTicks (mintLog acts initialSystem))).
Proof.
  intros acts text files now iso a' x sys Hno H.
  assert (E : Send.sessionId x = sessionIdAt now).
  { unfold handleSendMessage in H. destruct (_ || _); [discriminate|].
    rewrite Hno in H. now injection H as <- <-. }
  split; [exact E|]. rewrite E. unfold sys. rewrite run_session_ids, <- in_rev.
  split.
  - intros Hin. apply in_map_iff in Hin as (t & Et & Hin).
    apply sessionIdAt_inj in Et. now subst.
  - intros Hin. now apply in_map.
Qed.

Lemma fresh_session_id_witness :
  let acts := [InitEffect; InitDone (Some 1);
               CallSend "Define molarity" [] 5 "2024-01-01T00:00:00.005Z";
               NewChat; InitDone (Some 2)] in
  let sys := run acts initialSystem in
  noSession (currentSessionId (app sys)) = true /\
  ~ In "session-6" (map ChatSession.id (sessions (app sys))).
Proof.
  cbv zeta. split; [reflexivity|].
  destruct (fresh_session_id
              [InitEffect; InitDone (Some 1);
               CallSend "Define molarity" [] 5 "2024-01-01T00:00:00.005Z";
               NewChat; InitDone (Some 2)]
              "Define pH" [] 6 "2024-01-01T00:00:00.006Z" _ _ eq_refl eq_refl)
    as [_ [K _]].
  intros Hin. apply K in Hin. vm_compute in Hin.
  destruct Hin as [Hin|[]]. discriminate.
Defined.

(** C1 as stated fails: a session is created at reading 5, a new chat is
    started, and the send that creates the next session reads 5 again. *)
Lemma fresh_session_id_counterexample :
  let sys := run [InitEffect; InitDone (Some 1);
                  CallSend "Define molarity" [] 5 "2024-01-01T00:00:00.005Z";
                  NewChat; InitDone (Some 2)] initialSystem in
  exists a' x,
    handleSendMessage "Define pH" [] 5 "2024-01-01T00:00:00.005Z" (app sys) = (a', Some x) /\
    In (Send.sessionId x) (map ChatSession.id (sessions (app sys))).
Proof. cbv zeta. do 2 eexists. split; [reflexivity | left; reflexivity]. Qed.

(** C2, as the code has it.  In every session of a store reached from the
    empty one, message ids are pairwise distinct provided no two messages of
    the same kind (user, placeholder, error) were minted for that session's
    id at the same clock reading.  What was minted for other session ids
    does not matter. *)
Theorem message_ids_distinct :
  forall (acts : list Action) (s : ChatSession.t),
    NoDup (filter (targets (ChatSession.id s))
             (messageMints (mintLog acts initialSystem))) ->
    In s (sessions (app (run acts initialSystem))) ->
    NoDup (map ChatMessage.id (ChatSession.messages s)).
Proof.
  intros acts s Hnd Hin.
  assert (Hv : In (ChatSession.id s, map ChatMessage.id (ChatSession.messages s))
                 (replay (mintLog acts initialSystem) [])).
  { change (@nil (string * list string)) with (idView (sessions (app initialSystem))).
    rewrite <- run_idView. unfold idView.
    apply (in_map (fun s => (ChatSession.id s, map ChatMessage.id (ChatSession.messages s)))).
    exact Hin. }
  destruct (replay_messages _ _ _ Hv) as (pre & post & Elog & El).
  rewrite El. rewrite Elog, filter_app in Hnd. apply NoDup_app_remove_l in Hnd.
  apply NoDup_map_NoDup_ForallPairs; [|exact Hnd].
  intros [[i1 k1] t1] [[i2 k2] t2] H1 H2 E.
  apply filter_In in H1 as [_ H1]. apply filter_In in H2 as [_ H2].
  unfold targets in H1, H2; simpl in H1, H2.
  apply String.eqb_eq in H1, H2. unfold mintId in E; simpl in E.
  apply messageIdAt_inj in E as [-> ->]. congruence.
Qed.

(** The session ["session-7"] holds a completed exchange.  In the session
    created after it, two sends read the same clock value for their user
    messages: the mints of the run repeat, those of ["session-7"] do not. *)
Lemma message_ids_distinct_witness :
  let acts := [InitEffect; InitDone (Some 1);
               CallSend "Define molarity" [] 7 "2024-01-01T00:00:00.007Z";
               Resume 0 (AttachmentsResolved 8 8);
               Resume 0 (StreamOpened 8);
               Resume 0 (Chunk "Moles per litre.");
               Resume 0 (Fault 8);
               NewChat; InitDone (Some 2);
               CallSend "Define pH" [] 10 "2024-01-01T00:00:00.010Z";
               Resume 1 (AttachmentsResolved 11 11);
               CallSend "And pOH" [] 12 "2024-01-01T00:00:00.012Z";
               Resume 2 (AttachmentsResolved 11 11)] in
  ~ NoDup (messageMints (mintLog acts initialSystem)) /\
  forall s, In s (sessions (app (run acts initialSystem))) ->
            ChatSession.id s = "session-7" ->
            NoDup (map ChatMessage.id (ChatSession.messages s)).
Proof.
  cbv zeta. split.
  - vm_compute. intros H.
    do 3 (apply NoDup_cons_iff in H as [_ H]).
    apply NoDup_cons_iff in H as [Hn _]. apply Hn. left. reflexivity.
  - intros s Hin E.
    apply (message_ids_distinct
               [InitEffect; InitDone (Some 1);
                CallSend "Define molarity" [] 7 "2024-01-01T00:00:00.007Z";
                Resume 0 (AttachmentsResolved 8 8);
                Resume 0 (StreamOpened 8);
                Resume 0 (Chunk "Moles per litre.");
                Resume 0 (Fault 8);
                NewChat; InitDone (Some 2);
                CallSend "Define pH" [] 10 "2024-01-01T00:00:00.010Z";
                Resume 1 (AttachmentsResolved 11 11);
                CallSend "And pOH" [] 12 "2024-01-01T00:00:00.012Z";
                Resume 2 (AttachmentsResolved 11 11)] s); [|exact Hin].
    rewrite E. vm_compute. repeat constructor; simpl; intuition discriminate.
Defined.

(** C2 as stated fails: two sends into one session read the same clock
    value, 5, for their user messages. *)
Lemma message_ids_distinct_counterexample :
  let sys := run [InitEffect; InitDone (Some 1);
                  CallSend "Define molarity" [] 5 "2024-01-01T00:00:00.005Z";
                  Resume 0 (AttachmentsResolved 5 5);
                  Resume 0 (StreamOpened 5);
                  Resume 0 (Chunk "Moles per litre.");
                  Resume 0 StreamDone;
                  CallSend "Define pH" [] 5 "2024-01-01T00:00:00.005Z";
                  Resume 1 (AttachmentsResolved 5 5)] initialSystem in
  exists s, In s (sessions (app sys)) /\
            map ChatMessage.id (ChatSession.messages s) = ["msg-5"; "msg-5-model"; "msg-5"] /\
            ~ NoDup (map ChatMessage.id (ChatSession.messages s)).
Proof.
  cbv zeta. eexists. split; [left; reflexivity|]. split; [reflexivity|].
  intros H. inversion H as [|? ? Hn _]. apply Hn. right. left. reflexivity.
Qed.

(** ** A fault during the stream *)

Lemma keptExcept_ids mid before after :
  keptExcept mid before after ->
  map ChatMessage.id after = map ChatMessage.id before.
Proof.
  intros H. induction H as [|m m' before after (E & _) _ IH]; simpl;
    [reflexivity | now rewrite E, IH].
Qed.

(** Every message id the first session with id [sid] holds was minted for
    [sid]. *)
Lemma stored_ids_minted acts sid i :
  In i (map ChatMessage.id (messagesOf sid (sessions (app (run acts initialSystem))))) ->
  exists k t, i = messageIdAt k t /\
              In (sid, k, t) (messageMints (mintLog acts initialSystem)).
Proof.
  unfold messagesOf.
  destruct (find _ _) as [s|] eqn:F; [|intros []].
  apply find_some in F as [Hin E]. apply String.eqb_eq in E. intros Hi.
  assert (Hv : In (ChatSession.id s, map ChatMessage.id (ChatSession.messages s))
                 (replay (mintLog acts initialSystem) [])).
  { change (@nil (string * list string)) with (idView (sessions (app initialSystem))).
    rewrite <- run_idView. unfold idView.
    apply (in_map (fun s => (ChatSession.id s, map ChatMessage.id (ChatSession.messages s)))).
    exact Hin. }
  destruct (replay_messages _ _ _ Hv) as (pre & post & Elog & El).
  rewrite El in Hi. apply in_map_iff in Hi as ([[i0 k] t] & <- & Hm).
  apply filter_In in Hm as [Hm T]. unfold targets in T; simpl in T.
  apply String.eqb_eq in T. exists k, t. split; [reflexivity|].
  rewrite Elog, <- E, <- T. apply in_or_app. now right.
Qed.

(** C4, as the code has it.  When the stream faults after the fragments
    [fs] were delivered (one or more; none at all is covered too), the
    placeholder keeps their concatenation as its text, exactly one error
    message follows it (role model, the fixed error text), the messages that
    were in the session before the stream opened are all still there in
    order, and the session has exactly two messages more than before the
    stream opened.  The id of the error message is [err-] followed by the
    clock reading of the [catch] block: no id of another kind or of another
    reading equals it, so it differs from the placeholder's; it is
    new in the session exactly when the session did not hold it before the
    stream opened, and in a store reached from the empty one the session
    holds it only if an error message was minted for that session id at the
    same reading. *)
Theorem fault_keeps_partial_text :
  forall (a : App) (x : Send.t) (t2 t3 : Z) (fs : list string),
    Send.phase x = AwaitStream ->
    In (Send.sessionId x) (map ChatSession.id (sessions a)) ->
    let sid := Send.sessionId x in
    let r := resumeAll (StreamOpened t2 :: map Chunk fs ++ [Fault t3]) x a in
    let placeholder := ChatMessage.mk (modelMessageIdAt t2) model (joined fs) None in
    let errorMsg := ChatMessage.mk (errorMessageIdAt t3) model errorMessage None in
    Send.phase (snd r) = Returned /\
    (exists older,
        messagesOf sid (sessions (fst r)) = older ++ [placeholder; errorMsg] /\
        keptExcept (modelMessageIdAt t2) (messagesOf sid (sessions a)) older /\
        (In (ChatMessage.id errorMsg) (map ChatMessage.id (older ++ [placeholder]))
         <-> In (errorMessageIdAt t3)
               (map ChatMessage.id (messagesOf sid (sessions a))))) /\
    List.length (messagesOf sid (sessions (fst r)))
    = List.length (messagesOf sid (sessions a)) + 2 /\
    errorMessageIdAt t3 = ("err-" ++ JS.numToString t3)%string /\
    (forall k t, messageIdAt k t = errorMessageIdAt t3 -> k = KError /\ t = t3) /\
    (forall acts,
        a = app (run acts initialSystem) ->
        In (errorMessageIdAt t3) (map ChatMessage.id (messagesOf sid (sessions a))) ->
        In (sid, KError, t3) (messageMints (mintLog acts initialSystem))) /\
    error (fst r) = Some errorMessage /\
    isLoading (fst r) = false.
Proof.
  intros a x t2 t3 fs P Hin. cbv zeta.
  change (StreamOpened t2 :: map Chunk fs ++ [Fault t3])
    with ((StreamOpened t2 :: map Chunk fs) ++ [Fault t3]).
  rewrite resumeAll_app.
  destruct (opened_then_chunks a x t2 fs P Hin) as (P' & S' & Hin' & older & E & K).
  cbv zeta in P', S', Hin', E.
  set (r := resumeAll (StreamOpened t2 :: map Chunk fs) x a) in *.
  simpl resumeAll. rewrite (resume_fault_streaming _ _ _ _ _ P'). simpl.
  rewrite S'.
  assert (M : messagesOf (Send.sessionId x)
                (appendMessage (Send.sessionId x)
                   (ChatMessage.mk (errorMessageIdAt t3) model errorMessage None)
                   (sessions (fst r)))
              = older ++ [ChatMessage.mk (modelMessageIdAt t2) model (joined fs) None;
                          ChatMessage.mk (errorMessageIdAt t3) model errorMessage None]).
  { rewrite messagesOf_appendMessage by exact Hin'. rewrite E, <- app_assoc. reflexivity. }
  split; [reflexivity|]. split.
  { exists older. split; [exact M|]. split; [exact K|].
    rewrite map_app, (keptExcept_ids _ _ _ K), in_app_iff. simpl. split.
    - intros [H|[H|[]]]; [exact H|].
      exfalso. exact (modelId_ne_errorId _ _ H).
    - intros H. now left. }
  split; [rewrite M, length_app, (keptExcept_length _ _ _ K); reflexivity|].
  split; [reflexivity|]. split.
  { intros k t H. exact (messageIdAt_inj k t KError t3 H). }
  split; [|auto].
  intros acts -> H.
  destruct (stored_ids_minted _ _ _ H) as (k & t & Ek & Hm).
  symmetry in Ek. apply (messageIdAt_inj k t KError t3) in Ek as [-> ->]. exact Hm.
Qed.

Lemma fault_keeps_partial_text_witness :
  Send.phase exampleSend = AwaitStream /\
  In (Send.sessionId exampleSend) (map ChatSession.id (sessions exampleApp)) /\
  let r := resumeAll [StreamOpened 1002; Chunk "Hel"; Chunk "lo"; Fault 1003]
             exampleSend exampleApp in
  List.length (messagesOf "session-1000" (sessions (fst r)))
  = List.length (messagesOf "session-1000" (sessions exampleApp)) + 2.
Proof.
  assert (P : Send.phase exampleSend = AwaitStream) by reflexivity.
  assert (I : In (Send.sessionId exampleSend) (map ChatSession.id (sessions exampleApp)))
    by (left; reflexivity).
  split; [exact P|]. split; [exact I|].
  destruct (fault_keeps_partial_text exampleApp exampleSend 1002 1003 ["Hel"; "lo"] P I)
    as (_ & _ & L & _).
  exact L.
Defined.

(** C4 as stated fails: the first send of the session faults and its
    [catch] block reads 7; the stream of the second send faults after one
    fragment and its [catch] block reads 7 again.  The error message that
    is appended carries an id the session holds already. *)
Lemma fault_keeps_partial_text_counterexample :
  let sys := run [InitEffect; InitDone (Some 1);
                  CallSend "Define molarity" [] 4 "2024-01-01T00:00:00.004Z";
                  Resume 0 (AttachmentsResolved 5 5);
                  Resume 0 (StreamOpened 5);
                  Resume 0 (Chunk "Moles");
                  Resume 0 (Fault 7);
                  CallSend "Define pH" [] 6 "2024-01-01T00:00:00.006Z";
                  Resume 1 (AttachmentsResolved 6 6)] initialSystem in
  exists x,
    nth_error (sends sys) 1 = Some x /\
    Send.phase x = AwaitStream /\
    In (Send.sessionId x) (map ChatSession.id (sessions (app sys))) /\
    In (errorMessageIdAt 7)
       (map ChatMessage.id (messagesOf (Send.sessionId x) (sessions (app sys)))) /\
    map ChatMessage.id
      (messagesOf (Send.sessionId x)
         (sessions (fst (resumeAll [StreamOpened 6; Chunk "Minus log"; Fault 7]
                           x (app sys)))))
    = ["msg-5"; "msg-5-model"; "err-7"; "msg-6"; "msg-6-model"; "err-7"].
Proof.
  cbv zeta. exists (Send.mk "Define pH" [] chat "session-4" AwaitStream).
  vm_compute. split; [reflexivity|]. split; [reflexivity|].
  split; [left; reflexivity|]. split; [|reflexivity].
  right. right. left. reflexivity.
Qed.

(** * Further properties of the component *)

(** ** When a send is accepted *)

Lemma trimStart_empty (s : string) : JS.trimStart s = "" -> JS.allWhiteSpace s = true.
Proof.
  induction s as [|c s IH]; simpl; [reflexivity|].
  destruct (JS.isWhiteSpace c); [exact IH | discriminate].
Qed.

Lemma trimStart_head (s : string) c r :
  JS.trimStart s = String c r -> JS.isWhiteSpace c = false.
Proof.
  induction s as [|d s IH]; simpl; [discriminate|].
  destruct (JS.isWhiteSpace d) eqn:E; [exact IH | now intros [= <- _]].
Qed.

Lemma trimEnd_head c r : JS.isWhiteSpace c = false -> JS.trimEnd (String c r) <> "".
Proof. intros H. simpl. rewrite H. now destruct (JS.trimEnd r). Qed.

Lemma trim_empty_iff (s : string) : JS.trim s = "" <-> JS.allWhiteSpace s = true.
Proof.
  split; [|apply trim_allWhiteSpace].
  unfold JS.trim. destruct (JS.trimStart s) as [|c r] eqn:E.
  - intros _. now apply trimStart_empty.
  - intros H. exfalso. exact (trimEnd_head c r (trimStart_head _ _ _ E) H).
Qed.

Lemma handleSendMessage_accepted text files now iso a :
  (exists a' x, handleSendMessage text files now iso a = (a', Some x))
  <-> chatRef a <> None /\ (JS.allWhiteSpace text = false \/ files <> []).
Proof.
  unfold handleSendMessage.
  destruct (chatRef a) as [h|]; simpl.
  - rewrite orb_false_r.
    destruct (JS.trim text) as [|c r] eqn:T; simpl.
    + apply trim_empty_iff in T.
      destruct files as [|f files]; simpl.
      * split; [intros (a' & x & [=]) | intros [_ [H|H]]; congruence].
      * split; [intros _; split; [discriminate | right; discriminate]|].
        intros _. destruct (noSession (currentSessionId a)); eauto.
    + assert (W : JS.allWhiteSpace text = false).
      { destruct (JS.allWhiteSpace text) eqn:W; [|reflexivity].
        apply trim_empty_iff in W. congruence. }
      split; [intros _; split; [discriminate | now left]|].
      intros _. destruct (noSession (currentSessionId a)); eauto.
  - rewrite orb_true_r. split; [intros (a' & x & [=]) | intros [H _]; congruence].
Qed.

Lemma handleSendMessage_fields text files now iso a a' x :
  handleSendMessage text files now iso a = (a', Some x) ->
  isLoading a' = true /\ error a' = None /\
  chatRef a' = chatRef a /\ view a' = view a /\
  Send.phase x = AwaitAttachments /\
  Send.text x = text /\ Send.files x = files /\ Send.view x = view a.
Proof.
  unfold handleSendMessage.
  destruct (_ || _); [discriminate|].
  destruct (noSession (currentSessionId a)); intros [= <- <-]; simpl; auto 10.
Qed.

(** X1. A call of [handleSendMessage] goes past its guard exactly when a
    backend handle exists and the text has a character that is not white
    space or a file is attached; it then sets the loading flag, clears the
    error banner and suspends at the encoding of the attachments with the
    text, files and view of the call. *)
Theorem handleSendMessage_accepts :
  forall (text : string) (files : list File.t) (now : Z) (iso : string) (a : App),
    ((exists a' x, handleSendMessage text files now iso a = (a', Some x))
     <-> chatRef a <> None /\ (JS.allWhiteSpace text = false \/ files <> [])) /\
    (forall a' x,
        handleSendMessage text files now iso a = (a', Some x) ->
        isLoading a' = true /\ error a' = None /\
        chatRef a' = chatRef a /\ view a' = view a /\
        Send.phase x = AwaitAttachments /\
        Send.text x = text /\ Send.files x = files /\ Send.view x = view a).
Proof.
  intros text files now iso a. split; [apply handleSendMessage_accepted|].
  intros a' x. apply handleSendMessage_fields.
Qed.

(** ** Messages are kept *)

Lemma kept_same target (sid : string) ms :
  Forall2 (fun m m' : ChatMessage.t =>
             sameButText m m' /\ (m' = m \/ target = Some (sid, ChatMessage.id m))) ms ms.
Proof. induction ms; constructor; unfold sameButText; auto. Qed.

(** An updater that only appends to sessions keeps their messages. *)
Lemma messagesKept_extend target (f : ChatSession.t -> ChatSession.t) ss :
  (forall s, header (f s) = header s /\
             exists ext, ChatSession.messages (f s) = ChatSession.messages s ++ ext) ->
  Forall2 (messagesKept target) ss (map f ss).
Proof.
  intros Hf. induction ss as [|s ss IH]; simpl; constructor; [|exact IH].
  destruct (Hf s) as (Hh & ext & E). split; [exact Hh|].
  exists (ChatSession.messages s), ext. split; [exact E | apply kept_same].
Qed.

Lemma appendMessage_extends sid m s :
  let f := fun s => if String.eqb (ChatSession.id s) sid
                    then ChatSession.withMessages s (ChatSession.messages s ++ [m])
                    else s in
  header (f s) = header s /\
  exists ext, ChatSession.messages (f s) = ChatSession.messages s ++ ext.
Proof.
  cbv beta zeta. destruct (String.eqb (ChatSession.id s) sid); simpl.
  - split; [reflexivity | now exists [m]].
  - split; [reflexivity | exists []; now rewrite app_nil_r].
Qed.

Lemma messagesKept_append target sid m ss :
  Forall2 (messagesKept target) ss (appendMessage sid m ss).
Proof. apply messagesKept_extend. intros s. apply appendMessage_extends. Qed.

Lemma messagesKept_append2 target sid m1 m2 ss :
  Forall2 (messagesKept target) ss (appendMessage sid m2 (appendMessage sid m1 ss)).
Proof.
  unfold appendMessage. rewrite map_map. apply messagesKept_extend. intros s.
  destruct (String.eqb (ChatSession.id s) sid) eqn:E; simpl; rewrite E; simpl.
  - split; [reflexivity|]. exists [m1; m2]. now rewrite <- app_assoc.
  - split; [reflexivity | exists []; now rewrite app_nil_r].
Qed.

Lemma messagesKept_fold sid mid r ss :
  Forall2 (messagesKept (Some (sid, mid))) ss (foldResponse sid mid r ss).
Proof.
  unfold foldResponse. induction ss as [|s ss IH]; simpl; constructor; [|exact IH].
  destruct (String.eqb_spec (ChatSession.id s) sid) as [Es|Ns].
  - split; [reflexivity|]. simpl. eexists. exists []. split; [now rewrite app_nil_r|].
    induction (ChatSession.messages s) as [|m ms IHm]; simpl; constructor; [|exact IHm].
    destruct (String.eqb_spec (ChatMessage.id m) mid) as [Em|Nm].
    + split; [unfold sameButText; simpl; auto|]. right. congruence.
    + split; [unfold sameButText; auto | now left].
  - split; [reflexivity|]. exists (ChatSession.messages s), [].
    split; [now rewrite app_nil_r | apply kept_same].
Qed.

Lemma messagesKept_refl target ss : Forall2 (messagesKept target) ss ss.
Proof.
  rewrite <- (map_id ss) at 2. apply messagesKept_extend.
  intros s. split; [reflexivity | exists []; now rewrite app_nil_r].
Qed.

Lemma resume_messagesKept ev x a :
  Forall2 (messagesKept
             (match Send.phase x, ev with
              | Streaming mid _, Chunk _ => Some (Send.sessionId x, mid)
              | _, _ => None
              end))
          (sessions a) (sessions (fst (resume ev x a))).
Proof.
  unfold resume, catchFinally.
  destruct (Send.phase x), ev; simpl;
    auto using messagesKept_refl, messagesKept_append, messagesKept_fold.
  destruct (isMain (Send.view x)); simpl; destruct (chatRef a); simpl;
    auto using messagesKept_append, messagesKept_append2.
Qed.

Lemma step_messages act s :
  exists new kept,
    sessions (app (step act s)) = new ++ kept /\
    (List.length new <= 1)%nat /\
    Forall (fun n => ChatSession.messages n = []) new /\
    Forall2 (messagesKept (touched act s)) (sessions (app s)) kept.
Proof.
  assert (Same : forall a', sessions a' = sessions (app s) ->
            exists new kept,
              sessions a' = new ++ kept /\ (List.length new <= 1)%nat /\
              Forall (fun n => ChatSession.messages n = []) new /\
              Forall2 (messagesKept (touched act s)) (sessions (app s)) kept).
  { intros a' E. exists [], (sessions (app s)). rewrite E.
    repeat split; auto using messagesKept_refl. }
  destruct act; simpl step; try (apply Same; reflexivity).
  - unfold handleSendMessage.
    destruct (_ || _); [apply Same; reflexivity|].
    destruct (noSession (currentSessionId (app s))); [|apply Same; reflexivity].
    exists [newSession (sessionIdAt now) text iso], (sessions (app s)). simpl.
    repeat split; auto using messagesKept_refl.
  - destruct (nth_error (sends s) i) as [x|] eqn:Hx; [|apply Same; reflexivity].
    pose proof (resume_messagesKept ev x (app s)) as H.
    destruct (resume ev x (app s)) as [a' x'] eqn:R. simpl in H |- *.
    exists [], (sessions a'). repeat split; auto.
    unfold touched. destruct ev; rewrite ?Hx;
      destruct (Send.phase x); exact H.
  - apply Same. unfold initEffect. now destruct (isNull _).
  - apply Same. now destruct r.
Qed.

(** X2. No action removes or reorders a message or a session.  After any
    action the store is the old one with at most one new, empty session in
    front; every old session keeps its header and its messages in order,
    each with the same id, role and attachments, possibly followed by new
    messages; and the text of an old message changes only when the action
    delivers a fragment to a streaming send whose session id and
    placeholder id are those of the session and the message. *)
Theorem messages_are_kept :
  forall (act : Action) (s : System),
  exists new kept,
    sessions (app (step act s)) = new ++ kept /\
    (List.length new <= 1)%nat /\
    Forall (fun n => ChatSession.messages n = []) new /\
    Forall2 (messagesKept (touched act s)) (sessions (app s)) kept.
Proof. exact step_messages. Qed.

(** ** Sessions are created lazily *)

Lemma messagesOf_head s ss :
  messagesOf (ChatSession.id s) (s :: ss) = ChatSession.messages s.
Proof. unfold messagesOf; simpl. now rewrite String.eqb_refl. Qed.

(** X3. The session list changes its headers in one case only: a send is
    accepted while no session is current.  That send puts a new session
    with no messages in front of the list and makes it current.  Every
    other action, [startNewChat] included, leaves ids, titles and creation
    times as they are. *)
Theorem sessions_created_lazily :
  forall (act : Action) (s : System),
    (forall text files now iso,
        act = CallSend text files now iso ->
        noSession (currentSessionId (app s)) = true ->
        chatRef (app s) <> None ->
        JS.allWhiteSpace text = false \/ files <> [] ->
        sessions (app (step act s))
        = newSession (sessionIdAt now) text iso :: sessions (app s) /\
        currentSessionId (app (step act s)) = Some (sessionIdAt now) /\
        currentMessages (app (step act s)) = []) /\
    ((forall text files now iso,
         act = CallSend text files now iso ->
         ~ (noSession (currentSessionId (app s)) = true /\
            chatRef (app s) <> None /\
            (JS.allWhiteSpace text = false \/ files <> []))) ->
     map header (sessions (app (step act s))) = map header (sessions (app s))).
Proof.
  intros act s. split.
  - intros text files now iso -> Hno Hc Ht.
    destruct (proj2 (handleSendMessage_accepted text files now iso (app s)) (conj Hc Ht))
      as (a' & x & E).
    simpl. rewrite E. simpl.
    unfold handleSendMessage in E. destruct (_ || _); [discriminate|].
    rewrite Hno in E. injection E as <- _. simpl.
    split; [reflexivity|]. split; [reflexivity|].
    unfold currentMessages; simpl.
    exact (messagesOf_head (newSession (sessionIdAt now) text iso) (sessions (app s))).
  - intros Hnot.
    destruct (step_header act s) as (pre & E & L).
    destruct act; simpl;
      try reflexivity.
    + destruct (handleSendMessage text files now iso (app s)) as [a' [x|]] eqn:H;
        simpl; [|unfold handleSendMessage in H; destruct (_ || _);
                  [now injection H as <- | destruct (noSession _); discriminate]].
      assert (A : exists a' x, handleSendMessage text files now iso (app s) = (a', Some x))
        by eauto.
      apply handleSendMessage_accepted in A as [Hc Ht].
      unfold handleSendMessage in H. destruct (_ || _); [discriminate|].
      destruct (noSession (currentSessionId (app s))) eqn:Hno.
      * exfalso. apply (Hnot text files now iso eq_refl). auto.
      * now injection H as <- _.
    + destruct (nth_error (sends s) i) as [x|]; [|reflexivity].
      pose proof (resume_header ev x (app s)) as H.
      destruct (resume ev x (app s)) as [a' x']. exact H.
    + unfold initEffect. now destruct (isNull _).
    + now destruct r.
Qed.

Lemma sessions_created_lazily_witness :
  let s := step NewChat exampleSystem in
  map header (sessions (app s)) = map header (sessions (app exampleSystem)) /\
  currentSessionId (app s) = None.
Proof.
  cbv zeta. split; [|reflexivity].
  apply (sessions_created_lazily NewChat exampleSystem).
  intros text files now iso E. discriminate E.
Defined.

(** ** What resuming a send leaves alone *)

Lemma catchFinally_frame now sid a :
  currentSessionId (catchFinally now sid a) = currentSessionId a /\
  chatRef (catchFinally now sid a) = chatRef a /\
  view (catchFinally now sid a) = view a.
Proof. repeat split. Qed.

Lemma resume_frame ev x a :
  currentSessionId (fst (resume ev x a)) = currentSessionId a /\
  chatRef (fst (resume ev x a)) = chatRef a /\
  (view (fst (resume ev x a)) = view a \/
   view (fst (resume ev x a)) = chat /\ Send.view x = main /\
   Send.phase x = AwaitAttachments /\ exists now nc, ev = AttachmentsResolved now nc).
Proof.
  unfold resume.
  destruct (Send.phase x) eqn:P, ev; simpl;
    try (split; [reflexivity | split; [reflexivity | left; reflexivity]]).
  destruct (Send.view x) eqn:V; simpl; destruct (chatRef a) eqn:C; simpl;
    (split; [reflexivity | split; [congruence|]]);
    first [ left; reflexivity | right; repeat split; eauto ].
Qed.

(** X4. Resuming a send never changes which session is current and never
    replaces or clears the backend handle.  It changes the view in one case
    only: a send that was called from the main view switches to the chat
    view when its attachments are encoded. *)
Theorem resume_keeps_pointer_and_handle :
  forall (i : nat) (ev : Event) (s : System),
    let s' := step (Resume i ev) s in
    currentSessionId (app s') = currentSessionId (app s) /\
    chatRef (app s') = chatRef (app s) /\
    (view (app s') = view (app s) \/
     view (app s') = chat /\
     exists x now nc,
       nth_error (sends s) i = Some x /\ Send.view x = main /\
       Send.phase x = AwaitAttachments /\ ev = AttachmentsResolved now nc).
Proof.
  intros i ev s. cbv zeta. simpl.
  destruct (nth_error (sends s) i) as [x|] eqn:Hx; [|auto].
  destruct (resume_frame ev x (app s)) as (C & R & V).
  destruct (resume ev x (app s)) as [a' x']. simpl in *.
  split; [exact C|]. split; [exact R|].
  destruct V as [V | (V & Hm & Hp & now & nc & ->)]; [now left | right].
  split; [exact V|]. eauto 10.
Qed.

(** ** Without a handle nothing is sent *)

Lemma length_replaceNth {A} (l : list A) : forall i x,
  List.length (replaceNth i x l) = List.length l.
Proof. induction l as [|y l IH]; intros [|i] x; simpl; auto. Qed.

Lemma step_without_handle act s :
  chatRef (app s) = None ->
  givesHandle act = false ->
  chatRef (app (step act s)) = None /\
  List.length (sends (step act s)) = List.length (sends s) /\
  map header (sessions (app (step act s))) = map header (sessions (app s)).
Proof.
  intros Hc Hg. destruct act; simpl; auto.
  - unfold handleSendMessage. rewrite Hc. simpl. rewrite orb_true_r. simpl. auto.
  - destruct (nth_error (sends s) i) as [x|]; [|auto].
    destruct (resume_frame ev x (app s)) as (_ & R & _).
    pose proof (resume_header ev x (app s)) as H.
    destruct (resume ev x (app s)) as [a' x']. simpl in *.
    rewrite length_replaceNth. split; [congruence | auto].
  - unfold initEffect. rewrite Hc. simpl. auto.
  - destruct r; [discriminate | simpl; auto].
Qed.

(** X5. While [chatRef] holds no handle, that is from [startNewChat] or
    [loadChat] (or from mounting) until [initializeChat] succeeds, whatever
    else happens, a failed initialisation included, no send is started and
    no session is created: calls of [handleSendMessage] return at the
    guard. *)
Theorem no_handle_no_send :
  forall (acts : list Action) (s : System),
    chatRef (app s) = None ->
    Forall (fun act => givesHandle act = false) acts ->
    chatRef (app (run acts s)) = None /\
    List.length (sends (run acts s)) = List.length (sends s) /\
    map header (sessions (app (run acts s))) = map header (sessions (app s)).
Proof.
  induction acts as [|act acts IH]; intros s Hc Hf; simpl; [auto|].
  inversion Hf as [|? ? Hg Hf']; subst.
  destruct (step_without_handle act s Hc Hg) as (C & L & H).
  destruct (IH (step act s) C Hf') as (C' & L' & H').
  change (fold_left (fun s act => step act s) acts (step act s))
    with (run acts (step act s)).
  split; [exact C'|]. split; congruence.
Qed.

Lemma no_handle_no_send_witness :
  let s := step (LoadChat "session-7") twoSessions in
  let acts := [CallSend "Define pH" [] 20 "2024-01-01T00:00:00.020Z";
               InitDone None;
               CallSend "Define pH" [] 21 "2024-01-01T00:00:00.021Z";
               OpenHistory] in
  chatRef (app s) = None /\
  List.length (sends (run acts s)) = List.length (sends s).
Proof.
  cbv zeta. split; [reflexivity|].
  apply (no_handle_no_send
           [CallSend "Define pH" [] 20 "2024-01-01T00:00:00.020Z";
            InitDone None;
            CallSend "Define pH" [] 21 "2024-01-01T00:00:00.021Z";
            OpenHistory] (step (LoadChat "session-7") twoSessions) eq_refl).
  repeat constructor.
Defined.

(** ** How a send ends *)

Lemma resume_returns ev x a :
  Send.phase x <> Returned ->
  Send.phase (snd (resume ev x a)) = Returned ->
  isLoading (fst (resume ev x a)) = false /\
  (error (fst (resume ev x a)) = Some errorMessage \/
   ev = StreamDone /\ error (fst (resume ev x a)) = error a).
Proof.
  unfold resume. intros Hp.
  destruct (Send.phase x) eqn:P, ev; simpl; try (rewrite P); try discriminate;
    try contradiction; auto.
  - destruct (isMain (Send.view x)); simpl; destruct (chatRef a); simpl;
      try discriminate; auto.
  - destruct (Send.files x); simpl; [rewrite P|]; discriminate.
Qed.

Lemma resume_rejects ev x a :
  Send.phase x <> Rejected ->
  Send.phase (snd (resume ev x a)) = Rejected ->
  Send.phase x = AwaitAttachments /\ Send.files x <> [] /\
  (exists now, ev = Fault now) /\
  fst (resume ev x a) = a.
Proof.
  unfold resume. intros Hp.
  destruct (Send.phase x) eqn:P, ev; simpl; try (rewrite P); try discriminate;
    try contradiction; eauto.
  - destruct (isMain (Send.view x)); simpl; destruct (chatRef a); simpl;
      discriminate.
  - destruct (Send.files x); simpl; [rewrite P; discriminate|].
    intros _. repeat split; eauto. discriminate.
Qed.

Lemma resume_ended ev x a :
  Send.phase x = Returned \/ Send.phase x = Rejected -> resume ev x a = (a, x).
Proof.
  unfold resume. intros [P|P]; rewrite P; destruct ev; reflexivity.
Qed.

Lemma resume_encoding_rejected now x a :
  Send.phase x = AwaitAttachments -> Send.files x <> [] ->
  resume (Fault now) x a = (a, Send.at_ Rejected x).
Proof.
  unfold resume. intros -> N. destruct (Send.files x); [contradiction | reflexivity].
Qed.

(** X6. A send ends in one of two ways.  When an action makes it return,
    the [finally] block has run: the loading flag is off, and either the
    error banner shows the fixed error text or the stream was exhausted and
    the banner is as it was.  When the encoding of an attachment is
    rejected, the [await] standing before the [try], the send ends without
    [catch] or [finally]: this happens to a send with files that is
    suspended at that [await], and to no other, and the action changes
    nothing in the component, so that the loading flag stays as the send
    set it, no error message is appended and no banner is set.  No action
    moves a send that has ended. *)
Theorem send_endings :
  forall (act : Action) (s : System) (i : nat) (x x' : Send.t),
    nth_error (sends s) i = Some x ->
    nth_error (sends (step act s)) i = Some x' ->
    (Send.phase x <> Returned -> Send.phase x' = Returned ->
     isLoading (app (step act s)) = false /\
     (error (app (step act s)) = Some errorMessage \/
      act = Resume i StreamDone /\ error (app (step act s)) = error (app s))) /\
    (Send.phase x <> Rejected -> Send.phase x' = Rejected ->
     Send.phase x = AwaitAttachments /\ Send.files x <> [] /\
     (exists now, act = Resume i (Fault now)) /\
     app (step act s) = app s) /\
    (Send.phase x = AwaitAttachments -> Send.files x <> [] ->
     forall now,
       step (Resume i (Fault now)) s
       = mkSystem (app s) (replaceNth i (Send.at_ Rejected x) (sends s))) /\
    (Send.phase x = Returned \/ Send.phase x = Rejected -> x' = x).
Proof.
  intros act s i x x' Hx Hx'.
  assert (Third : Send.phase x = AwaitAttachments -> Send.files x <> [] ->
                  forall now,
                    step (Resume i (Fault now)) s
                    = mkSystem (app s) (replaceNth i (Send.at_ Rejected x) (sends s))).
  { intros P N now. simpl. rewrite Hx, (resume_encoding_rejected now x (app s) P N).
    reflexivity. }
  assert (Same : sends (step act s) = sends s -> x' = x).
  { intros E. rewrite E, Hx in Hx'. now injection Hx' as <-. }
  assert (Unmoved : x' = x ->
            (Send.phase x <> Returned -> Send.phase x' = Returned ->
             isLoading (app (step act s)) = false /\
             (error (app (step act s)) = Some errorMessage \/
              act = Resume i StreamDone /\
              error (app (step act s)) = error (app s))) /\
            (Send.phase x <> Rejected -> Send.phase x' = Rejected ->
             Send.phase x = AwaitAttachments /\ Send.files x <> [] /\
             (exists now, act = Resume i (Fault now)) /\
             app (step act s) = app s) /\
            (Send.phase x = AwaitAttachments -> Send.files x <> [] ->
             forall now,
               step (Resume i (Fault now)) s
               = mkSystem (app s) (replaceNth i (Send.at_ Rejected x) (sends s))) /\
            (Send.phase x = Returned \/ Send.phase x = Rejected -> x' = x)).
  { intros ->. split; [intros; contradiction|]. split; [intros; contradiction|].
    split; [exact Third | reflexivity]. }
  destruct act; try (apply Unmoved, Same; reflexivity).
  - apply Unmoved. simpl in Hx'.
    destruct (handleSendMessage _ _ _ _ _) as [a' [y|]]; simpl in *.
    + rewrite nth_error_app1 in Hx' by (apply nth_error_Some; congruence).
      rewrite Hx in Hx'. now injection Hx' as <-.
    + rewrite Hx in Hx'. now injection Hx' as <-.
  - destruct (nth_error (sends s) i0) as [y|] eqn:Hy;
      [|apply Unmoved, Same; simpl; rewrite Hy; reflexivity].
    pose proof (resume_returns ev y (app s)) as R.
    pose proof (resume_rejects ev y (app s)) as J.
    pose proof (resume_ended ev y (app s)) as N.
    assert (St : step (Resume i0 ev) s
                 = mkSystem (fst (resume ev y (app s)))
                     (replaceNth i0 (snd (resume ev y (app s))) (sends s))).
    { simpl. rewrite Hy. destruct (resume ev y (app s)); reflexivity. }
    rewrite St in *. simpl app in *. simpl sends in *.
    rewrite (nth_error_replaceNth _ _ _ _ _ Hx) in Hx'.
    destruct (Nat.eqb_spec i i0) as [->|Ne].
    + injection Hx' as <-. rewrite Hx in Hy. injection Hy as <-.
      split; [|split; [|split]].
      * intros Hp Hr. destruct (R Hp Hr) as [L [E | [-> E]]]; auto.
      * intros Hp Hr. destruct (J Hp Hr) as (P & F & [now ->] & E). eauto.
      * exact Third.
      * intros E. rewrite (N E). reflexivity.
    + apply Unmoved. now injection Hx' as <-.
Qed.

Lemma send_endings_witness :
  let s := run [InitEffect; InitDone (Some 1);
                CallSend "Read this"
                  [File.mk "notes.pdf" "application/pdf" "JVBERi0=" "blob:1"]
                  1000 "2024-01-01T00:00:01.000Z"] initialSystem in
  isLoading (app s) = true /\
  app (step (Resume 0 (Fault 1001)) s) = app s /\
  map Send.phase (sends (step (Resume 0 (Fault 1001)) s)) = [Rejected].
Proof.
  cbv zeta. split; [reflexivity|]. split; [|reflexivity].
  refine (proj2 (proj2 (proj2 (proj1 (proj2
    (send_endings (Resume 0 (Fault 1001))
       (run [InitEffect; InitDone (Some 1);
             CallSend "Read this"
               [File.mk "notes.pdf" "application/pdf" "JVBERi0=" "blob:1"]
               1000 "2024-01-01T00:00:01.000Z"] initialSystem)
       0 _ _ eq_refl eq_refl)) _ eq_refl)))).
  discriminate.
Defined.

(** ** Whole sends *)

Lemma resumeAll_cons ev evs x a :
  resumeAll (ev :: evs) x a
  = resumeAll evs (snd (resume ev x a)) (fst (resume ev x a)).
Proof. simpl. now destruct (resume ev x a). Qed.

Lemma resume_attachments x a t1 tc :
  Send.phase x = AwaitAttachments ->
  let um := ChatMessage.mk (userMessageIdAt t1) user (Send.text x)
              (Some (map toAttachment (Send.files x))) in
  let a' := setSessions (appendMessage (Send.sessionId x) um) a in
  let a'' := if isMain (Send.view x) then setView chat a' else a' in
  resume (AttachmentsResolved t1 tc) x a
  = match chatRef a with
    | None => (catchFinally tc (Send.sessionId x) a'', Send.at_ Returned x)
    | Some _ => (a'', Send.at_ AwaitStream x)
    end.
Proof. intros P. cbv zeta. unfold resume. rewrite P. now destruct (isMain _). Qed.

Lemma resume_done x a mid acc :
  Send.phase x = Streaming mid acc ->
  resume StreamDone x a = (setIsLoading false a, Send.at_ Returned x).
Proof. intros P. unfold resume. now rewrite P. Qed.

Lemma resume_fault_awaiting x a now :
  Send.phase x = AwaitStream ->
  resume (Fault now) x a = (catchFinally now (Send.sessionId x) a, Send.at_ Returned x).
Proof. intros P. unfold resume. now rewrite P. Qed.

(** While the stream is open and delivers, only the session list changes. *)
Lemma chunks_only_sessions fs : forall a x mid acc,
  Send.phase x = Streaming mid acc ->
  exists f, fst (resumeAll (map Chunk fs) x a) = setSessions f a.
Proof.
  induction fs as [|f fs IH]; intros a x mid acc P; simpl.
  - exists (fun ss => ss). now destruct a.
  - rewrite (resume_chunk _ _ _ _ _ P).
    destruct (IH (setSessions (foldResponse (Send.sessionId x) mid (acc ++ f)) a)
                 (Send.at_ (Streaming mid (acc ++ f)) x) mid (acc ++ f)%string eq_refl)
      as [g E].
    rewrite E. now eexists (fun ss => g (foldResponse _ _ _ ss)).
Qed.

Lemma stream_only_sessions a x now fs :
  Send.phase x = AwaitStream ->
  exists f, fst (resumeAll (StreamOpened now :: map Chunk fs) x a) = setSessions f a.
Proof.
  intros P. simpl. rewrite (resume_opened _ _ _ P).
  destruct (chunks_only_sessions fs
              (setSessions (appendMessage (Send.sessionId x)
                              (ChatMessage.mk (modelMessageIdAt now) model "" None)) a)
              (Send.at_ (Streaming (modelMessageIdAt now) "") x) _ _ eq_refl) as [g E].
  rewrite E. now eexists (fun ss => g (appendMessage _ _ ss)).
Qed.

Lemma keptExcept_snoc mid before m older' :
  keptExcept mid (before ++ [m]) older' ->
  ChatMessage.id m <> mid ->
  exists older, older' = older ++ [m] /\ keptExcept mid before older.
Proof.
  intros K N. apply Forall2_app_inv_l in K as (l1 & l2 & K1 & K2 & ->).
  inversion K2 as [|? m' ? l2' (_ & _ & _ & Hm) K3]; subst.
  inversion K3; subst. exists l1. split; [|exact K1]. now rewrite (Hm N).
Qed.

(** The state after the attachments of an accepted send are encoded. *)
Lemma after_attachments x a t1 :
  let um := ChatMessage.mk (userMessageIdAt t1) user (Send.text x)
              (Some (map toAttachment (Send.files x))) in
  let a' := setSessions (appendMessage (Send.sessionId x) um) a in
  let a'' := if isMain (Send.view x) then setView chat a' else a' in
  sessions a'' = appendMessage (Send.sessionId x) um (sessions a) /\
  error a'' = error a /\ isLoading a'' = isLoading a /\
  currentSessionId a'' = currentSessionId a /\ chatRef a'' = chatRef a.
Proof. cbv zeta. destruct (isMain _); repeat split. Qed.

(** X7. A send that is accepted, whose stream opens, delivers the
    fragments [fs] and ends, leaves its session with the messages it had,
    then the user message (the text and one attachment per file), then the
    model message whose text is the concatenation of [fs]; the loading flag
    is off and no error is shown.  In a new chat these two messages are the
    whole session. *)
Theorem complete_send :
  forall (text : string) (files : list File.t) (now : Z) (iso : string)
         (a a1 : App) (x : Send.t) (t1 tc t2 : Z) (fs : list string),
    handleSendMessage text files now iso a = (a1, Some x) ->
    In (Send.sessionId x) (map ChatSession.id (sessions a1)) ->
    let sid := Send.sessionId x in
    let um := ChatMessage.mk (userMessageIdAt t1) user text (Some (map toAttachment files)) in
    let reply := ChatMessage.mk (modelMessageIdAt t2) model (joined fs) None in
    let r := resumeAll (AttachmentsResolved t1 tc :: StreamOpened t2 ::
                        map Chunk fs ++ [StreamDone]) x a1 in
    Send.phase (snd r) = Returned /\
    isLoading (fst r) = false /\
    error (fst r) = None /\
    (exists older,
        messagesOf sid (sessions (fst r)) = older ++ [um; reply] /\
        keptExcept (modelMessageIdAt t2) (messagesOf sid (sessions a1)) older) /\
    (noSession (currentSessionId a) = true ->
     messagesOf sid (sessions (fst r)) = [um; reply]).
Proof.
  intros text files now iso a a1 x t1 tc t2 fs H Hin. cbv zeta.
  destruct (handleSendMessage_fields _ _ _ _ _ _ _ H)
    as (_ & He & Hc & _ & Hp & Ht & Hf & _).
  assert (Hh : chatRef a1 <> None).
  { rewrite Hc. apply (handleSendMessage_accepted text files now iso a). eauto. }
  destruct (chatRef a1) as [h|] eqn:C; [clear Hh | congruence].
  rewrite resumeAll_cons, (resume_attachments _ _ _ _ Hp), C. cbv beta zeta. cbn [fst snd].
  destruct (after_attachments x a1 t1) as (Es & Ee & _ & _ & _). cbv zeta in Es, Ee.
  set (a2 := if isMain (Send.view x) then _ else _) in *.
  set (x2 := Send.at_ AwaitStream x).
  assert (Hin2 : In (Send.sessionId x2) (map ChatSession.id (sessions a2)))
    by (rewrite Es, appendMessage_ids; exact Hin).
  change (StreamOpened t2 :: map Chunk fs ++ [StreamDone])
    with ((StreamOpened t2 :: map Chunk fs) ++ [StreamDone]).
  rewrite resumeAll_app.
  destruct (opened_then_chunks a2 x2 t2 fs eq_refl Hin2) as (P' & S' & _ & older' & E & K).
  destruct (stream_only_sessions a2 x2 t2 fs eq_refl) as [f Ef].
  cbv zeta in P', S', E.
  set (r1 := resumeAll (StreamOpened t2 :: map Chunk fs) x2 a2) in *.
  rewrite resumeAll_cons, (resume_done _ _ _ _ P'). simpl.
  change (Send.sessionId x2) with (Send.sessionId x) in *.
  rewrite Es, messagesOf_appendMessage in K by exact Hin.
  rewrite Ht, Hf in K.
  apply keptExcept_snoc in K as (older & -> & K);
    [|simpl; apply userId_ne_modelId].
  assert (M : messagesOf (Send.sessionId x) (sessions (fst r1))
              = older ++ [ChatMessage.mk (userMessageIdAt t1) user text
                            (Some (map toAttachment files));
                          ChatMessage.mk (modelMessageIdAt t2) model (joined fs) None])
    by (rewrite E, <- app_assoc; reflexivity).
  split; [reflexivity|]. split; [reflexivity|].
  split; [rewrite Ef; simpl; congruence|].
  split; [exists older; auto|].
  intros Hno. rewrite M.
  unfold handleSendMessage in H. destruct (_ || _); [discriminate|].
  rewrite Hno in H. injection H as <- <-. simpl in K.
  rewrite (messagesOf_head (newSession (sessionIdAt now) text iso)) in K.
  simpl in K. inversion K. reflexivity.
Qed.

Lemma complete_send_witness :
  let a := initializeChatDone (Some 1) initialApp in
  let f := File.mk "flask.png" "image/png" "iVBORw0KGgo=" "blob:flask" in
  let r := handleSendMessage "What is this?" [f] 30 "2024-01-01T00:00:00.030Z" a in
  let x := Send.mk "What is this?" [f] main "session-30" AwaitAttachments in
  r = (fst r, Some x) /\
  In (Send.sessionId x) (map ChatSession.id (sessions (fst r))) /\
  messagesOf "session-30"
    (sessions (fst (resumeAll [AttachmentsResolved 31 31; StreamOpened 32;
                               Chunk "A "; Chunk "flask."; StreamDone] x (fst r))))
  = [ChatMessage.mk "msg-31" user "What is this?"
       (Some [Attachment.mk "flask.png" "image/png" "blob:flask" "iVBORw0KGgo="]);
     ChatMessage.mk "msg-32-model" model "A flask." None].
Proof.
  cbv zeta. split; [reflexivity|]. split; [left; reflexivity|].
  refine (proj2 (proj2 (proj2 (proj2
            (complete_send "What is this?"
               [File.mk "flask.png" "image/png" "iVBORw0KGgo=" "blob:flask"]
               30 "2024-01-01T00:00:00.030Z"
               (initializeChatDone (Some 1) initialApp) _ _ 31 31 32 ["A "; "flask."]
               eq_refl _)))) eq_refl).
  left; reflexivity.
Defined.

(** X8. When the request of an accepted send is rejected before the stream
    opens, the session gets the user message and then the error message and
    no placeholder: exactly two messages more, the loading flag off, the
    error banner set. *)
Theorem rejected_send :
  forall (text : string) (files : list File.t) (now : Z) (iso : string)
         (a a1 : App) (x : Send.t) (t1 tc t3 : Z),
    handleSendMessage text files now iso a = (a1, Some x) ->
    In (Send.sessionId x) (map ChatSession.id (sessions a1)) ->
    let sid := Send.sessionId x in
    let r := resumeAll [AttachmentsResolved t1 tc; Fault t3] x a1 in
    Send.phase (snd r) = Returned /\
    isLoading (fst r) = false /\
    error (fst r) = Some errorMessage /\
    messagesOf sid (sessions (fst r))
    = messagesOf sid (sessions a1)
      ++ [ChatMessage.mk (userMessageIdAt t1) user text (Some (map toAttachment files));
          ChatMessage.mk (errorMessageIdAt t3) model errorMessage None].
Proof.
  intros text files now iso a a1 x t1 tc t3 H Hin. cbv zeta.
  destruct (handleSendMessage_fields _ _ _ _ _ _ _ H)
    as (_ & _ & Hc & _ & Hp & Ht & Hf & _).
  assert (Hh : chatRef a1 <> None).
  { rewrite Hc. apply (handleSendMessage_accepted text files now iso a). eauto. }
  destruct (chatRef a1) as [h|] eqn:C; [clear Hh | congruence].
  rewrite resumeAll_cons, (resume_attachments _ _ _ _ Hp), C. cbv beta zeta. cbn [fst snd].
  destruct (after_attachments x a1 t1) as (Es & _). cbv zeta in Es.
  set (a2 := if isMain (Send.view x) then _ else _) in *.
  rewrite resumeAll_cons, (resume_fault_awaiting (Send.at_ AwaitStream x) _ _ eq_refl). simpl.
  repeat split.
  rewrite Es, !messagesOf_appendMessage, <- app_assoc, Ht, Hf;
    [reflexivity | exact Hin | now rewrite appendMessage_ids].
Qed.

Lemma rejected_send_witness :
  let a := initializeChatDone (Some 1) initialApp in
  let r := handleSendMessage "Define pH" [] 40 "2024-01-01T00:00:00.040Z" a in
  let x := Send.mk "Define pH" [] main "session-40" AwaitAttachments in
  r = (fst r, Some x) /\
  In (Send.sessionId x) (map ChatSession.id (sessions (fst r))) /\
  messagesOf "session-40"
    (sessions (fst (resumeAll [AttachmentsResolved 41 41; Fault 42] x (fst r))))
  = [ChatMessage.mk "msg-41" user "Define pH" (Some []);
     ChatMessage.mk "err-42" model errorMessage None].
Proof.
  cbv zeta. split; [reflexivity|]. split; [left; reflexivity|].
  refine (proj2 (proj2 (proj2
            (rejected_send "Define pH" [] 40 "2024-01-01T00:00:00.040Z"
               (initializeChatDone (Some 1) initialApp) _ _ 41 41 42 eq_refl _)))).
  left; reflexivity.
Defined.

(** X9. When the handle is gone by the time the attachments of a send are
    encoded (the chat was switched or reset and [initializeChat] has not
    completed), the send does not reach the backend: it appends its user
    message and the error message to its own session, returns with the
    loading flag off and the error banner set, and leaves the current
    session as the switch set it. *)
Theorem send_without_handle :
  forall (x : Send.t) (a : App) (t1 tc : Z),
    Send.phase x = AwaitAttachments ->
    chatRef a = None ->
    In (Send.sessionId x) (map ChatSession.id (sessions a)) ->
    let sid := Send.sessionId x in
    let r := resume (AttachmentsResolved t1 tc) x a in
    Send.phase (snd r) = Returned /\
    isLoading (fst r) = false /\
    error (fst r) = Some errorMessage /\
    currentSessionId (fst r) = currentSessionId a /\
    chatRef (fst r) = None /\
    messagesOf sid (sessions (fst r))
    = messagesOf sid (sessions a)
      ++ [ChatMessage.mk (userMessageIdAt t1) user (Send.text x)
            (Some (map toAttachment (Send.files x)));
          ChatMessage.mk (errorMessageIdAt tc) model errorMessage None].
Proof.
  intros x a t1 tc Hp C Hin. cbv zeta.
  rewrite (resume_attachments _ _ _ _ Hp), C. cbv beta zeta. cbn [fst snd].
  destruct (after_attachments x a t1) as (Es & _ & _ & Ec & Er). cbv zeta in Es, Ec, Er.
  set (a2 := if isMain (Send.view x) then _ else _) in *.
  simpl. repeat split; try congruence.
  rewrite Es, !messagesOf_appendMessage, <- app_assoc;
    [reflexivity | exact Hin | now rewrite appendMessage_ids].
Qed.

Lemma send_without_handle_witness :
  let r := handleSendMessage "Say hello" [] 1000 "2024-01-01T00:00:01.000Z" (app twoSessions) in
  let x := Send.mk "Say hello" [] main "session-1000" AwaitAttachments in
  let a := loadChat "session-7" (fst r) in
  r = (fst r, Some x) /\
  chatRef a = None /\
  currentSessionId (fst (resume (AttachmentsResolved 1001 1002) x a)) = Some "session-7" /\
  messagesOf "session-1000" (sessions (fst (resume (AttachmentsResolved 1001 1002) x a)))
  = [ChatMessage.mk "msg-1001" user "Say hello" (Some []);
     ChatMessage.mk "err-1002" model errorMessage None].
Proof.
  cbv zeta. split; [reflexivity|]. split; [reflexivity|].
  destruct (send_without_handle
              (Send.mk "Say hello" [] main "session-1000" AwaitAttachments)
              (loadChat "session-7"
                 (fst (handleSendMessage "Say hello" [] 1000 "2024-01-01T00:00:01.000Z"
                         (app twoSessions))))
              1001 1002 eq_refl eq_refl (or_introl eq_refl))
    as (_ & _ & _ & Hc & _ & Hm).
  split; [exact Hc | exact Hm].
Defined.

(** ** The latest response *)

Lemma lastOf_snoc {A} (l : list A) x : lastOf (l ++ [x]) = Some x.
Proof.
  induction l as [|y l IH]; simpl; [reflexivity|].
  rewrite IH. now destruct (l ++ [x]) eqn:E; [destruct l; discriminate|].
Qed.

Lemma latestResponse_snoc a sid older m :
  currentSessionId a = Some sid ->
  messagesOf sid (sessions a) = older ++ [m] ->
  ChatMessage.role m = model ->
  latestResponse a = Some (ChatMessage.text m).
Proof.
  intros C M R. unfold latestResponse, currentMessages. rewrite C, M, filter_app.
  simpl. unfold isModel at 2. rewrite R. now rewrite lastOf_snoc.
Qed.

(** X10. For a streaming send into the current session, the latest response
    shown by the call view is, after each delivered fragment, the
    concatenation of the fragments so far; it is still that text when the
    stream ends, and it is the fixed error text when the stream faults. *)
Theorem latestResponse_follows_stream :
  forall (a : App) (x : Send.t) (now t3 : Z) (fs : list string),
    Send.phase x = AwaitStream ->
    currentSessionId a = Some (Send.sessionId x) ->
    In (Send.sessionId x) (map ChatSession.id (sessions a)) ->
    latestResponse (fst (resumeAll (StreamOpened now :: map Chunk fs) x a))
    = Some (joined fs) /\
    latestResponse (fst (resumeAll (StreamOpened now :: map Chunk fs ++ [StreamDone]) x a))
    = Some (joined fs) /\
    latestResponse (fst (resumeAll (StreamOpened now :: map Chunk fs ++ [Fault t3]) x a))
    = Some errorMessage.
Proof.
  intros a x now t3 fs P C Hin.
  destruct (opened_then_chunks a x now fs P Hin) as (P' & S' & Hin' & older & E & _).
  destruct (stream_only_sessions a x now fs P) as [f Ef].
  cbv zeta in P', S', Hin', E.
  change (StreamOpened now :: map Chunk fs ++ [StreamDone])
    with ((StreamOpened now :: map Chunk fs) ++ [StreamDone]).
  change (StreamOpened now :: map Chunk fs ++ [Fault t3])
    with ((StreamOpened now :: map Chunk fs) ++ [Fault t3]).
  rewrite !resumeAll_app.
  set (r := resumeAll (StreamOpened now :: map Chunk fs) x a) in *.
  assert (Cr : currentSessionId (fst r) = Some (Send.sessionId x))
    by (rewrite Ef; exact C).
  rewrite !resumeAll_cons, (resume_done _ _ _ _ P'),
    (resume_fault_streaming _ _ _ _ _ P'). simpl resumeAll. cbn [fst snd].
  split; [exact (latestResponse_snoc _ _ _ _ Cr E eq_refl)|].
  split; [exact (latestResponse_snoc _ _ _ _ Cr E eq_refl)|].
  rewrite S'.
  apply (latestResponse_snoc _ (Send.sessionId x)
           (older ++ [ChatMessage.mk (modelMessageIdAt now) model (joined fs) None])
           (ChatMessage.mk (errorMessageIdAt t3) model errorMessage None));
    [exact Cr | | reflexivity].
  unfold catchFinally; simpl. now rewrite messagesOf_appendMessage, E.
Qed.

Lemma latestResponse_follows_stream_witness :
  latestResponse (fst (resumeAll [StreamOpened 1002; Chunk "Hel"] exampleSend exampleApp))
  = Some "Hel" /\
  latestResponse (fst (resumeAll [StreamOpened 1002; Chunk "Hel"; Chunk "lo"; Fault 1003]
                         exampleSend exampleApp))
  = Some errorMessage.
Proof.
  split.
  - exact (proj1 (latestResponse_follows_stream exampleApp exampleSend 1002 0 ["Hel"]
                    eq_refl eq_refl (or_introl eq_refl))).
  - exact (proj2 (proj2 (latestResponse_follows_stream exampleApp exampleSend 1002 1003
                           ["Hel"; "lo"] eq_refl eq_refl (or_introl eq_refl)))).
Defined.

(** ** Streaming touches placeholders only *)

Lemma Forall2_impl_Forall {A B} (P : A -> Prop) (R1 R2 : A -> B -> Prop) l l' :
  (forall a b, P a -> R1 a b -> R2 a b) ->
  Forall P l -> Forall2 R1 l l' -> Forall2 R2 l l'.
Proof.
  intros H HP HR. induction HR; constructor; inversion HP; subst; auto.
Qed.

Lemma wellTagged_append sid m ss :
  wellTagged ss ->
  (ChatMessage.role m = user -> exists t, ChatMessage.id m = userMessageIdAt t) ->
  wellTagged (appendMessage sid m ss).
Proof.
  intros W Hm s' m' Hs Hin R. unfold appendMessage in Hs.
  apply in_map_iff in Hs as (s & <- & Hs).
  destruct (String.eqb (ChatSession.id s) sid); simpl in Hin; [|eauto].
  apply in_app_iff in Hin as [Hin | [<- | []]]; eauto.
Qed.

Lemma wellTagged_fold sid mid r ss :
  wellTagged ss -> wellTagged (foldResponse sid mid r ss).
Proof.
  intros W s' m' Hs Hin R. unfold foldResponse in Hs.
  apply in_map_iff in Hs as (s & <- & Hs).
  destruct (String.eqb (ChatSession.id s) sid); simpl in Hin; [|eauto].
  apply in_map_iff in Hin as (m & <- & Hin).
  destruct (String.eqb (ChatMessage.id m) mid); simpl in *; eauto.
Qed.

Lemma resume_wellTagged ev x a :
  wellTagged (sessions a) -> wellTagged (sessions (fst (resume ev x a))).
Proof.
  intros W. unfold resume, catchFinally.
  destruct (Send.phase x), ev; simpl; auto;
    try (apply wellTagged_append; [exact W | discriminate]);
    try (now apply wellTagged_fold).
  destruct (isMain (Send.view x)); simpl; destruct (chatRef a); simpl;
    repeat (apply wellTagged_append; [|simpl; try discriminate; eauto]); exact W.
Qed.

Lemma resume_streaming ev x a mid acc :
  Send.phase (snd (resume ev x a)) = Streaming mid acc ->
  (exists t, mid = modelMessageIdAt t) \/ (exists acc', Send.phase x = Streaming mid acc').
Proof.
  unfold resume.
  destruct (Send.phase x) eqn:P, ev; simpl; try rewrite P; try discriminate;
    try (intros [= <- <-]; eauto; fail).
  - destruct (isMain (Send.view x)); simpl; destruct (chatRef a); simpl; discriminate.
  - destruct (Send.files x); simpl; [rewrite P|]; discriminate.
Qed.

Lemma In_replaceNth {A} (l : list A) : forall i x y,
  In y (replaceNth i x l) -> y = x \/ In y l.
Proof.
  induction l as [|z l IH]; intros [|i] x y; simpl; try tauto.
  - intros [H|H]; auto.
  - intros [H|H]; [tauto|]. destruct (IH _ _ _ H); tauto.
Qed.

Lemma step_tagged act s :
  wellTagged (sessions (app s)) /\ streamingOk (sends s) ->
  wellTagged (sessions (app (step act s))) /\ streamingOk (sends (step act s)).
Proof.
  intros [W S]. destruct act; simpl; auto.
  - unfold handleSendMessage. destruct (_ || _); [auto|].
    assert (S' : forall y, Send.phase y = AwaitAttachments -> streamingOk (sends s ++ [y])).
    { intros y Py z mid acc Hz Pz. apply in_app_iff in Hz as [Hz | [<- | []]];
        [eauto | congruence]. }
    destruct (noSession (currentSessionId (app s))); simpl; (split; [|now apply S']); auto.
    intros s' m [<- | Hs] Hm; [destruct Hm | eauto].
  - destruct (nth_error (sends s) i) as [x|] eqn:Hx; [|auto].
    pose proof (resume_wellTagged ev x (app s) W) as W'.
    pose proof (resume_streaming ev x (app s)) as R.
    destruct (resume ev x (app s)) as [a' x']. simpl in *.
    split; [exact W'|].
    intros y mid acc Hy Py. apply In_replaceNth in Hy as [-> | Hy]; [|eauto].
    destruct (R _ _ Py) as [T | [acc' P]]; [exact T|].
    exact (S x mid acc' (nth_error_In _ _ Hx) P).
  - unfold initEffect. now destruct (isNull _).
  - now destruct r.
Qed.

Lemma run_tagged acts : forall s,
  wellTagged (sessions (app s)) /\ streamingOk (sends s) ->
  wellTagged (sessions (app (run acts s))) /\ streamingOk (sends (run acts s)).
Proof.
  induction acts as [|act acts IH]; intros s H; simpl; [exact H|].
  apply IH. now apply step_tagged.
Qed.

(** X11. Streaming overwrites placeholders only.  Start from a store whose
    user messages carry user-message ids (the empty store, or one this
    component wrote) with no send in flight.  Then, whatever happened since,
    no action changes a user message or an error message of the store: they
    are found again in the same place with the same text. *)
Theorem user_and_error_messages_fixed :
  forall (a0 : App) (acts : list Action) (act : Action),
    wellTagged (sessions a0) ->
    let s := run acts (mkSystem a0 []) in
    exists new kept,
      sessions (app (step act s)) = new ++ kept /\
      Forall2 (fun s0 s1 =>
                 exists older ext,
                   ChatSession.messages s1 = older ++ ext /\
                   Forall2 (fun m m' =>
                              ChatMessage.role m = user \/
                              (exists t, ChatMessage.id m = errorMessageIdAt t) ->
                              m' = m)
                           (ChatSession.messages s0) older)
              (sessions (app s)) kept.
Proof.
  intros a0 acts act W0. cbv zeta.
  destruct (run_tagged acts (mkSystem a0 [])) as [W S].
  { split; [exact W0|]. intros x mid acc []. }
  set (s := run acts (mkSystem a0 [])) in *.
  destruct (step_messages act s) as (new & kept & E & _ & _ & K).
  exists new, kept. split; [exact E|].
  assert (Ws : Forall (fun s0 => Forall (fun m => ChatMessage.role m = user ->
                                             exists t, ChatMessage.id m = userMessageIdAt t)
                                  (ChatSession.messages s0)) (sessions (app s))).
  { apply Forall_forall. intros s0 Hs0. apply Forall_forall. intros m Hm. eauto. }
  refine (Forall2_impl_Forall _ _ _ _ _ _ Ws K).
  intros s0 s1 Wm (_ & older & ext & Em & Km).
  exists older, ext. split; [exact Em|].
  refine (Forall2_impl_Forall _ _ _ _ _ _ Wm Km).
  intros m m' Hu (_ & [-> | T]) Hfix; [reflexivity|]. exfalso.
  unfold touched in T. destruct act as [| i ev | | | | | | | |]; try discriminate.
  destruct ev; try discriminate.
  destruct (nth_error (sends s) i) as [x|] eqn:Hx; [|discriminate].
  destruct (Send.phase x) eqn:P; try discriminate.
  injection T as _ Tm.
  destruct (S x _ _ (nth_error_In _ _ Hx) P) as [t ->].
  destruct Hfix as [R | [t' Et]].
  - destruct (Hu R) as [t' Et]. rewrite Et in Tm.
    exact (userId_ne_modelId _ _ (eq_sym Tm)).
  - rewrite Et in Tm. exact (modelId_ne_errorId _ _ Tm).
Qed.

Lemma user_and_error_messages_fixed_witness :
  wellTagged (sessions initialApp) /\
  exists new kept,
    sessions (app (step (Resume 0 (Chunk "lo"))
                     (run [InitEffect; InitDone (Some 1);
                           CallSend "Say hello" [] 1000 "2024-01-01T00:00:01.000Z";
                           Resume 0 (AttachmentsResolved 1001 1001);
                           Resume 0 (StreamOpened 1002);
                           Resume 0 (Chunk "Hel")] (mkSystem initialApp []))))
    = new ++ kept /\ List.length kept = 1%nat.
Proof.
  assert (W : wellTagged (sessions initialApp)) by (intros s m []).
  split; [exact W|].
  destruct (user_and_error_messages_fixed initialApp
              [InitEffect; InitDone (Some 1);
               CallSend "Say hello" [] 1000 "2024-01-01T00:00:01.000Z";
               Resume 0 (AttachmentsResolved 1001 1001);
               Resume 0 (StreamOpened 1002);
               Resume 0 (Chunk "Hel")] (Resume 0 (Chunk "lo")) W)
    as (new & kept & E & K).
  exists new, kept. split; [exact E|].
  apply Forall2_length in K. rewrite <- K. reflexivity.
Defined.

(** ** Sends find their session *)

Lemma ids_of_headers ss :
  map ChatSession.id ss = map (fun h => fst (fst h)) (map header ss).
Proof. now rewrite map_map. Qed.

Lemma step_ids_incl act s sid :
  In sid (map ChatSession.id (sessions (app s))) ->
  In sid (map ChatSession.id (sessions (app (step act s)))).
Proof.
  intros H. destruct (step_header act s) as (pre & E & _).
  rewrite ids_of_headers, E, map_app, <- !ids_of_headers. apply in_or_app. now right.
Qed.

Lemma handleSendMessage_target text files now iso a a' x :
  currentExists a ->
  handleSendMessage text files now iso a = (a', Some x) ->
  currentExists a' /\ In (Send.sessionId x) (map ChatSession.id (sessions a')).
Proof.
  intros C. unfold handleSendMessage. destruct (_ || _); [discriminate|].
  destruct (noSession (currentSessionId a)) eqn:N; intros [= <- <-]; simpl.
  - split; [|now left]. intros sid [= <-] _. now left.
  - unfold noSession in N. destruct (currentSessionId a) as [sid|] eqn:E; [|discriminate].
    apply negb_false_iff in N.
    split; [|apply C; [exact E | exact N]].
    intros sid' E' T. simpl in E'. apply C; [exact E' | exact T].
Qed.

Lemma step_targets act s :
  (forall sid, act = LoadChat sid -> In sid (map ChatSession.id (sessions (app s)))) ->
  currentExists (app s) /\ sendsTargetStore s ->
  currentExists (app (step act s)) /\ sendsTargetStore (step act s).
Proof.
  intros Hl [C T].
  assert (Keep : forall a', currentSessionId a' = currentSessionId (app s) ->
                            map ChatSession.id (sessions a') = map ChatSession.id (sessions (app s)) ->
                            currentExists a' /\ sendsTargetStore (mkSystem a' (sends s))).
  { intros a' Ec Es. split.
    - intros sid E. rewrite Es. apply C. congruence.
    - intros x Hx. simpl. rewrite Es. now apply T. }
  destruct act; simpl; try (apply Keep; reflexivity).
  - destruct (handleSendMessage text files now iso (app s)) as [a' [x|]] eqn:H.
    + destruct (handleSendMessage_target _ _ _ _ _ _ _ C H) as [C' Hx].
      split; [exact C'|]. intros y Hy. simpl in *.
      apply in_app_iff in Hy as [Hy | [<- | []]]; [|exact Hx].
      pose proof (step_ids_incl (CallSend text files now iso) s _ (T y Hy)) as I.
      simpl in I. now rewrite H in I.
    + unfold handleSendMessage in H. destruct (_ || _);
        [injection H as <-; apply Keep; reflexivity
        | destruct (noSession _); discriminate].
  - destruct (nth_error (sends s) i) as [x|] eqn:Hx; [|now split].
    destruct (resume_frame ev x (app s)) as (Ec & _).
    pose proof (resume_header ev x (app s)) as Eh.
    pose proof (resume_sessionId ev x (app s)) as Ei.
    destruct (resume ev x (app s)) as [a' x']. simpl in *.
    assert (Es : map ChatSession.id (sessions a') = map ChatSession.id (sessions (app s))).
    { now rewrite (ids_of_headers (sessions a')), Eh, <- ids_of_headers. }
    split.
    + intros sid E. rewrite Es. apply C. congruence.
    + intros y Hy. simpl in *. rewrite Es.
      apply In_replaceNth in Hy as [-> | Hy]; [|now apply T].
      rewrite Ei. exact (T x (nth_error_In _ _ Hx)).
  - split.
    + intros sid [=].
    + intros x Hx. apply T. exact Hx.
  - split.
    + intros sid [= <-] _. now apply Hl.
    + intros x Hx. apply T. exact Hx.
  - apply Keep; unfold initEffect; now destruct (isNull _).
  - apply Keep; now destruct r.
Qed.

(** X12. As long as [loadChat] is called with sessions of the store (what
    the history view offers), the current session id, when it is not empty,
    is the id of a session of the store, and so is the session id of every
    send in flight: a send always finds the session it appends to. *)
Theorem sends_find_their_session :
  forall (acts : list Action),
    validLoads acts initialSystem ->
    currentExists (app (run acts initialSystem)) /\
    sendsTargetStore (run acts initialSystem).
Proof.
  intros acts.
  assert (G : forall s, validLoads acts s ->
                        currentExists (app s) /\ sendsTargetStore s ->
                        currentExists (app (run acts s)) /\ sendsTargetStore (run acts s)).
  { induction acts as [|act acts IH]; intros s V I; simpl; [exact I|].
    destruct V as [Hl V]. apply IH; [exact V|]. now apply step_targets. }
  intros V. apply G; [exact V|]. split.
  - intros sid [=].
  - intros x [].
Qed.

Lemma sends_find_their_session_witness :
  let acts := [InitEffect; InitDone (Some 1);
               CallSend "Define molarity" [] 7 "2024-01-01T00:00:00.007Z";
               NewChat; InitDone (Some 2);
               CallSend "Define pH" [] 9 "2024-01-01T00:00:00.009Z";
               LoadChat "session-7"] in
  validLoads acts initialSystem /\
  sendsTargetStore (run acts initialSystem).
Proof.
  cbv zeta.
  assert (V : validLoads [InitEffect; InitDone (Some 1);
                          CallSend "Define molarity" [] 7 "2024-01-01T00:00:00.007Z";
                          NewChat; InitDone (Some 2);
                          CallSend "Define pH" [] 9 "2024-01-01T00:00:00.009Z";
                          LoadChat "session-7"] initialSystem).
  { simpl. repeat split; try discriminate. intros sid [= <-]. right. left. reflexivity. }
  split; [exact V|]. exact (proj2 (sends_find_their_session _ V)).
Defined.

(** ** The save effect *)

Lemma lookup_remove_other k key l :
  k <> key -> LocalStorage.lookup k (LocalStorage.remove key l) = LocalStorage.lookup k l.
Proof.
  intros N. induction l as [|[k0 v] l IH]; simpl; [reflexivity|].
  destruct (String.eqb_spec k0 key) as [->|Nk]; simpl.
  - destruct (String.eqb_spec key k); [congruence | exact IH].
  - destruct (String.eqb_spec k0 k); [reflexivity | exact IH].
Qed.

Lemma getItem_setItem_other key k v ls ls' :
  LocalStorage.setItem key v ls = Normal ls' ->
  k <> key ->
  LocalStorage.getItem k ls' = LocalStorage.getItem k ls.
Proof.
  unfold LocalStorage.setItem, LocalStorage.getItem.
  destruct (_ <=? _)%nat; [|discriminate].
  intros [= <-] N; simpl.
  destruct (String.eqb_spec key k); [congruence|].
  now apply lookup_remove_other.
Qed.

(** X13. The save effect never throws and writes under its own key only.
    Afterwards every other key reads as before, and the key
    ["chatSessions"] reads as the serialization of the current session list
    or, when [setItem] threw, the storage is exactly as it was. *)
Theorem save_effect_is_safe :
  forall (JSON_stringify : list ChatSession.t -> string) (a : App) (ls : LocalStorage.t),
  exists ls',
    saveEffect JSON_stringify a ls = Normal ls' /\
    (forall k, k <> storageKey ->
               LocalStorage.getItem k ls' = LocalStorage.getItem k ls) /\
    (LocalStorage.getItem storageKey ls' = Some (JSON_stringify (sessions a)) \/
     ls' = ls).
Proof.
  intros JSON_stringify a ls. unfold saveEffect.
  destruct (LocalStorage.setItem storageKey (JSON_stringify (sessions a)) ls)
    as [ls'|e] eqn:W; simpl.
  - exists ls'. split; [reflexivity|]. split.
    + intros k N. exact (getItem_setItem_other _ _ _ _ _ W N).
    + left. exact (getItem_setItem _ _ _ _ W).
  - exists ls. auto.
Qed.

(** ** Titles *)

Lemma newSession_title_length sid text iso :
  (1 <= String.length (ChatSession.title (newSession sid text iso)) <= 40)%nat.
Proof.
  simpl. destruct text as [|c r]; [simpl; lia|].
  destruct (substring0_prefix 40 (String c r)) as (_ & _ & L).
  unfold JS.or. change (JS.truthy (JS.substring0 40 (String c r))) with true.
  cbv iota. rewrite L. simpl String.length. lia.
Qed.

Lemma step_new_headers act s :
  exists pre,
    map header (sessions (app (step act s)))
    = map header pre ++ map header (sessions (app s)) /\
    (pre = [] \/ exists sid text iso, pre = [newSession sid text iso]).
Proof.
  assert (Same : forall a', map header (sessions a') = map header (sessions (app s)) ->
            exists pre, map header (sessions a') = map header pre ++ map header (sessions (app s)) /\
                        (pre = [] \/ exists sid text iso, pre = [newSession sid text iso])).
  { intros a' E. exists []. auto. }
  destruct act; simpl; try (apply Same; reflexivity).
  - destruct (handleSendMessage_header text files now iso (app s)) as (pre & E & Hpre).
    exists pre.
    destruct (handleSendMessage text files now iso (app s)) as [a' [x|]];
      simpl in *; rewrite E, map_app; (split; [reflexivity|]);
      destruct Hpre as [-> | ->]; eauto.
  - destruct (nth_error (sends s) i) as [x|]; [|apply Same; reflexivity].
    pose proof (resume_header ev x (app s)) as H.
    destruct (resume ev x (app s)) as [a' x']. apply Same. exact H.
  - apply Same. unfold initEffect. now destruct (isNull _).
  - apply Same. now destruct r.
Qed.

(** X14. In every store reached from the empty one, the title of every
    session has at least 1 and at most 40 characters. *)
Theorem titles_bounded :
  forall (acts : list Action) (s : ChatSession.t),
    In s (sessions (app (run acts initialSystem))) ->
    (1 <= String.length (ChatSession.title s) <= 40)%nat.
Proof.
  intros acts.
  assert (G : forall sys,
             Forall (fun h => (1 <= String.length (snd (fst h)) <= 40)%nat)
                    (map header (sessions (app sys))) ->
             Forall (fun h => (1 <= String.length (snd (fst h)) <= 40)%nat)
                    (map header (sessions (app (run acts sys))))).
  { induction acts as [|act acts IH]; intros sys H; simpl; [exact H|].
    apply IH. destruct (step_new_headers act sys) as (pre & E & Hpre).
    rewrite E. apply Forall_app. split; [|exact H].
    destruct Hpre as [-> | (sid & text & iso & ->)]; simpl; constructor; [|constructor].
    apply (newSession_title_length sid text iso). }
  intros s Hin.
  specialize (G initialSystem (Forall_nil _)).
  rewrite Forall_forall in G.
  exact (G (header s) (in_map header _ _ Hin)).
Qed.

Lemma titles_bounded_witness :
  exists s, In s (sessions exampleApp) /\
            (1 <= String.length (ChatSession.title s) <= 40)%nat.
Proof.
  eexists. split; [left; reflexivity|].
  apply (titles_bounded
           [InitEffect; InitDone (Some 1);
            CallSend "Say hello" [] 1000 "2024-01-01T00:00:01.000Z";
            Resume 0 (AttachmentsResolved 1001 1001)]).
  left. reflexivity.
Defined.

(** ** Concurrent streams do not mix *)

Lemma appendMessage_In sid m ss ses' m' :
  In ses' (appendMessage sid m ss) -> In m' (ChatSession.messages ses') ->
  (exists ses, In ses ss /\ ChatSession.id ses = ChatSession.id ses' /\
               In m' (ChatSession.messages ses)) \/
  (m' = m /\ ChatSession.id ses' = sid).
Proof.
  unfold appendMessage. intros Hs Hm. apply in_map_iff in Hs as (ses & <- & Hs).
  destruct (String.eqb_spec (ChatSession.id ses) sid) as [E|N]; simpl in *.
  - apply in_app_iff in Hm as [Hm | [<- | []]]; [left; eauto | right; auto].
  - left; eauto.
Qed.

Lemma foldResponse_In sid mid r ss ses' m' :
  In ses' (foldResponse sid mid r ss) -> In m' (ChatSession.messages ses') ->
  exists ses m,
    In ses ss /\ ChatSession.id ses = ChatSession.id ses' /\
    In m (ChatSession.messages ses) /\ ChatMessage.id m' = ChatMessage.id m /\
    ((ChatSession.id ses = sid /\ ChatMessage.id m = mid /\ ChatMessage.text m' = r) \/
     (m' = m /\ ~ (ChatSession.id ses = sid /\ ChatMessage.id m = mid))).
Proof.
  unfold foldResponse. intros Hs Hm. apply in_map_iff in Hs as (ses & <- & Hs).
  destruct (String.eqb_spec (ChatSession.id ses) sid) as [E|N]; simpl in *.
  - apply in_map_iff in Hm as (m & <- & Hm). exists ses, m.
    destruct (String.eqb_spec (ChatMessage.id m) mid) as [Em|Nm]; simpl.
    + repeat split; auto.
    + repeat split; auto. right. split; [reflexivity | tauto].
  - exists ses, m'. repeat split; auto. right. split; [reflexivity | tauto].
Qed.

(** A message of the store with a placeholder id was minted as one. *)
Lemma placeholder_was_minted log ss ses m t :
  idView ss = replay log [] ->
  In ses ss -> In m (ChatSession.messages ses) ->
  ChatMessage.id m = modelMessageIdAt t ->
  In (ChatSession.id ses, KModel, t) (messageMints log).
Proof.
  intros V Hs Hm E.
  assert (Hv : In (ChatSession.id ses, map ChatMessage.id (ChatSession.messages ses))
                 (replay log [])).
  { rewrite <- V. unfold idView.
    apply (in_map (fun s => (ChatSession.id s, map ChatMessage.id (ChatSession.messages s)))).
    exact Hs. }
  destruct (replay_messages _ _ _ Hv) as (pre & post & -> & El).
  apply (in_map ChatMessage.id) in Hm. rewrite El, E in Hm.
  apply in_map_iff in Hm as ([[sid k] t'] & Ei & Hin).
  apply filter_In in Hin as [Hin T]. unfold targets in T; simpl in T.
  apply String.eqb_eq in T. unfold mintId in Ei; simpl in Ei.
  apply (messageIdAt_inj k t' KModel t) in Ei as [-> ->]. subst sid.
  apply in_or_app. now right.
Qed.

Lemma messageMints_incl log more e :
  In e (messageMints log) -> In e (messageMints (log ++ more)).
Proof. intros H. rewrite messageMints_app. apply in_or_app. now left. Qed.

(** A quiet step keeps the three properties of placeholders. *)
Lemma quiet_keeps log more s s' :
  quiet s s' ->
  placeholdersLogged log s /\ placeholdersShow s /\ placeholdersApart s ->
  placeholdersLogged (log ++ more) s' /\ placeholdersShow s' /\ placeholdersApart s'.
Proof.
  intros [Qs Qm] (A & B & C). repeat split.
  - intros i sid mid acc H. destruct (A _ _ _ _ (Qs _ _ _ _ H)) as (t & E & Hin).
    exists t. split; [exact E | now apply messageMints_incl].
  - intros i sid mid acc ses' m' H Hs Ei Hm Em.
    apply Qs in H. destruct (Qm _ _ Hs Hm) as [(ses & Hses & Eid & Hm') | Hn].
    + apply (B i sid mid acc ses m' H Hses); congruence.
    + destruct (A _ _ _ _ H) as (t & E & _). exfalso. apply (Hn t). congruence.
  - intros i j sid mid acc acc' Hi Hj. eapply C; eauto.
Qed.

Lemma quiet_same s a' :
  sessions a' = sessions (app s) -> quiet s (mkSystem a' (sends s)).
Proof.
  intros E. split.
  - intros i sid mid acc H. exact H.
  - intros ses' m' Hs Hm. simpl in Hs. rewrite E in Hs. left; eauto.
Qed.

Lemma nth_error_replaceNth_inv {A} (l : list A) : forall k x' i y,
  nth_error (replaceNth k x' l) i = Some y ->
  (i = k /\ y = x') \/ (i <> k /\ nth_error l i = Some y).
Proof.
  induction l as [|z l IH]; intros [|k] x' [|i] y; simpl; try discriminate.
  - intros [= <-]. now left.
  - intros H. right. split; [discriminate | exact H].
  - intros H. right. split; [discriminate | exact H].
  - intros H. destruct (IH _ _ _ _ H) as [[-> ->] | [N H']]; [now left | right].
    split; [congruence | exact H'].
Qed.

Lemma old_or_appended sid m ss ses' m' :
  (forall t, ChatMessage.id m <> modelMessageIdAt t) ->
  In ses' (appendMessage sid m ss) -> In m' (ChatSession.messages ses') ->
  (exists ses, In ses ss /\ ChatSession.id ses = ChatSession.id ses' /\
               In m' (ChatSession.messages ses)) \/
  (forall t, ChatMessage.id m' <> modelMessageIdAt t).
Proof.
  intros N Hs Hm. destruct (appendMessage_In _ _ _ _ _ Hs Hm) as [H | [-> _]]; auto.
Qed.

Lemma old_or_appended2 sid m1 m2 ss ses' m' :
  (forall t, ChatMessage.id m1 <> modelMessageIdAt t) ->
  (forall t, ChatMessage.id m2 <> modelMessageIdAt t) ->
  In ses' (appendMessage sid m2 (appendMessage sid m1 ss)) ->
  In m' (ChatSession.messages ses') ->
  (exists ses, In ses ss /\ ChatSession.id ses = ChatSession.id ses' /\
               In m' (ChatSession.messages ses)) \/
  (forall t, ChatMessage.id m' <> modelMessageIdAt t).
Proof.
  intros N1 N2 Hs Hm.
  destruct (appendMessage_In _ _ _ _ _ Hs Hm) as [(ses1 & H1 & E1 & Hm1) | [-> _]]; auto.
  destruct (appendMessage_In _ _ _ _ _ H1 Hm1) as [(ses & H & E & Hm0) | [-> _]]; auto.
  left. exists ses. repeat split; auto. congruence.
Qed.

Lemma userId_not_placeholder now t : userMessageIdAt now <> modelMessageIdAt t.
Proof. apply userId_ne_modelId. Qed.

Lemma errorId_not_placeholder now t : errorMessageIdAt now <> modelMessageIdAt t.
Proof. intros H. exact (modelId_ne_errorId _ _ (eq_sym H)). Qed.

(** Apart from the opening of a stream and the delivery of a fragment,
    resuming a send is quiet. *)
Lemma resume_quiet ev x a :
  (exists now, Send.phase x = AwaitStream /\ ev = StreamOpened now) \/
  (exists mid acc f, Send.phase x = Streaming mid acc /\ ev = Chunk f) \/
  ((snd (resume ev x a) = x \/
    forall mid acc, Send.phase (snd (resume ev x a)) <> Streaming mid acc) /\
   forall ses' m',
     In ses' (sessions (fst (resume ev x a))) -> In m' (ChatSession.messages ses') ->
     (exists ses, In ses (sessions a) /\ ChatSession.id ses = ChatSession.id ses' /\
                  In m' (ChatSession.messages ses)) \/
     (forall t, ChatMessage.id m' <> modelMessageIdAt t)).
Proof.
  unfold resume, catchFinally.
  destruct (Send.phase x) eqn:P, ev; simpl; eauto 10;
    right; right;
    try (split; [left; reflexivity | intros ses' m' Hs Hm; left; eauto]);
    try (split; [right; discriminate|]; intros ses' m';
         apply old_or_appended; intros t; apply errorId_not_placeholder);
    try (split; [right; discriminate | intros ses' m' Hs Hm; left; eauto]).
  - destruct (isMain (Send.view x)); simpl; destruct (chatRef a); simpl;
      (split; [right; discriminate|]); intros ses' m';
      first [ apply old_or_appended; intros t; apply userId_not_placeholder
            | apply old_or_appended2; intros t;
              [apply userId_not_placeholder | apply errorId_not_placeholder] ].
  - destruct (Send.files x); simpl;
      (split; [first [left; reflexivity | right; discriminate]
              | intros ses' m' Hs Hm; left; eauto]).
Qed.

Lemma streamingAt_replaced a' k x' s i sid mid acc :
  streamingAt (mkSystem a' (replaceNth k x' (sends s))) i sid mid acc ->
  (i = k /\ Send.sessionId x' = sid /\ Send.phase x' = Streaming mid acc) \/
  (i <> k /\ streamingAt s i sid mid acc).
Proof.
  intros (y & Hy & Es & Ep). simpl in Hy.
  destruct (nth_error_replaceNth_inv _ _ _ _ _ Hy) as [[-> ->] | [N H]].
  - now left.
  - right. split; [exact N|]. exists y. auto.
Qed.

(** The opening of a stream keeps the three properties, the reading that
    makes the placeholder id being new for the session. *)
Lemma opened_keeps log s k x now :
  nth_error (sends s) k = Some x ->
  Send.phase x = AwaitStream ->
  idView (sessions (app s)) = replay log [] ->
  placeholdersLogged log s /\ placeholdersShow s /\ placeholdersApart s ->
  ~ In (Send.sessionId x, KModel, now) (messageMints log) ->
  let s' := step (Resume k (StreamOpened now)) s in
  placeholdersLogged (log ++ [MintMessage (Send.sessionId x) KModel now]) s' /\
  placeholdersShow s' /\ placeholdersApart s'.
Proof.
  intros Hx P V (A & B & C) Fresh. cbv zeta. simpl. rewrite Hx, (resume_opened _ _ _ P).
  assert (Other : forall i sid acc,
             streamingAt s i sid (modelMessageIdAt now) acc -> sid <> Send.sessionId x).
  { intros i sid acc H ->. destruct (A _ _ _ _ H) as (t & E & Hin).
    apply (messageIdAt_inj KModel now KModel t) in E as [_ ->]. contradiction. }
  repeat split.
  - intros i sid mid acc H.
    apply streamingAt_replaced in H as [(-> & <- & [= <- <-]) | [_ H]].
    + exists now. split; [reflexivity|]. rewrite messageMints_app. apply in_or_app.
      right. left. reflexivity.
    + destruct (A _ _ _ _ H) as (t & E & Hin). exists t.
      split; [exact E | now apply messageMints_incl].
  - intros i sid mid acc ses' m' H Hs Ei Hm Em. simpl in Hs.
    apply streamingAt_replaced in H as [(-> & Esid & [= <- <-]) | [_ H]];
      destruct (appendMessage_In _ _ _ _ _ Hs Hm) as [(ses & Hses & Eid & Hm') | [-> Es']].
    + exfalso. apply Fresh. simpl in Esid.
      replace (Send.sessionId x) with (ChatSession.id ses) by congruence.
      exact (placeholder_was_minted _ _ _ _ _ V Hses Hm' Em).
    + reflexivity.
    + apply (B i sid mid acc ses m' H Hses); congruence.
    + exfalso. simpl in Em. subst mid. apply (Other _ _ _ H). congruence.
  - intros i j sid mid acc acc' Hi Hj.
    apply streamingAt_replaced in Hi as [(-> & Ei & Pi) | [Ni Hi]];
      apply streamingAt_replaced in Hj as [(-> & Ej & Pj) | [Nj Hj]].
    + reflexivity.
    + exfalso. injection Pi as <- <-. simpl in Ei. apply (Other _ _ _ Hj). congruence.
    + exfalso. injection Pj as <- <-. simpl in Ej. apply (Other _ _ _ Hi). congruence.
    + eapply C; eauto.
Qed.

(** The delivery of a fragment keeps the three properties. *)
Lemma chunk_keeps log s k x mid0 acc0 f :
  nth_error (sends s) k = Some x ->
  Send.phase x = Streaming mid0 acc0 ->
  placeholdersLogged log s /\ placeholdersShow s /\ placeholdersApart s ->
  let s' := step (Resume k (Chunk f)) s in
  placeholdersLogged log s' /\ placeholdersShow s' /\ placeholdersApart s'.
Proof.
  intros Hx P (A & B & C). cbv zeta. simpl. rewrite Hx, (resume_chunk _ _ _ _ _ P).
  assert (K : streamingAt s k (Send.sessionId x) mid0 acc0) by (exists x; auto).
  assert (Back : forall i sid mid acc,
             streamingAt (mkSystem
                            (setSessions (foldResponse (Send.sessionId x) mid0 (acc0 ++ f))
                               (app s))
                            (replaceNth k (Send.at_ (Streaming mid0 (acc0 ++ f)) x) (sends s)))
                         i sid mid acc ->
             (i = k /\ sid = Send.sessionId x /\ mid = mid0 /\ acc = (acc0 ++ f)%string) \/
             (i <> k /\ streamingAt s i sid mid acc)).
  { intros i sid mid acc H.
    apply streamingAt_replaced in H as [(-> & <- & [= <- <-]) | H]; auto. }
  repeat split.
  - intros i sid mid acc H.
    destruct (Back _ _ _ _ H) as [(-> & -> & -> & _) | [_ H']]; eauto.
  - intros i sid mid acc ses' m' H Hs Ei Hm Em. simpl in Hs.
    destruct (foldResponse_In _ _ _ _ _ _ Hs Hm)
      as (ses & m & Hses & Eid & Hm0 & Emid & [(Es & Em0 & Et) | [-> Hn]]);
      destruct (Back _ _ _ _ H) as [(-> & -> & -> & ->) | [N H']].
    + exact Et.
    + exfalso. apply N. apply (C i k (Send.sessionId x) mid0 acc acc0); [|exact K].
      replace (Send.sessionId x) with sid by congruence.
      replace mid0 with mid by congruence. exact H'.
    + exfalso. apply Hn. split; congruence.
    + apply (B i sid mid acc ses m H' Hses); congruence.
  - intros i j sid mid acc acc' Hi Hj.
    destruct (Back _ _ _ _ Hi) as [(-> & -> & -> & _) | [Ni Hi']];
      destruct (Back _ _ _ _ Hj) as [(-> & E1 & E2 & _) | [Nj Hj']]; subst.
    + reflexivity.
    + symmetry. eapply C; eauto.
    + eapply C; eauto.
    + eapply C; eauto.
Qed.

Lemma quiet_refl s : quiet s s.
Proof. split; [auto | intros ses' m' Hs Hm; left; eauto]. Qed.

Lemma callSend_quiet text files now iso s :
  quiet s (step (CallSend text files now iso) s).
Proof.
  simpl.
  destruct (handleSendMessage_header text files now iso (app s)) as (pre & E & Hpre).
  destruct (handleSendMessage text files now iso (app s)) as [a' [x|]] eqn:H; simpl in E.
  - pose proof (handleSendMessage_fields _ _ _ _ _ _ _ H) as (_ & _ & _ & _ & P & _).
    split.
    + intros i sid mid acc (y & Hy & Es & Ep). simpl in Hy.
      destruct (Nat.lt_ge_cases i (List.length (sends s))) as [L|L].
      * rewrite nth_error_app1 in Hy by exact L. exists y. auto.
      * rewrite nth_error_app2 in Hy by exact L.
        destruct (i - List.length (sends s))%nat as [|n]; simpl in Hy;
          [injection Hy as <-; congruence | destruct n; discriminate].
    + intros ses' m' Hs Hm. simpl in Hs. rewrite E in Hs.
      apply in_app_iff in Hs as [Hs | Hs]; [|left; eauto].
      destruct Hpre as [-> | ->]; [destruct Hs|].
      destruct Hs as [<- | []]. destruct Hm.
  - unfold handleSendMessage in H. destruct (_ || _);
      [|destruct (noSession _); discriminate].
    injection H as <-. apply quiet_same. reflexivity.
Qed.

Lemma step_placeholders act s log :
  idView (sessions (app s)) = replay log [] ->
  placeholdersLogged log s /\ placeholdersShow s /\ placeholdersApart s ->
  NoDup (messageMints (log ++ minted act s)) ->
  placeholdersLogged (log ++ minted act s) (step act s) /\
  placeholdersShow (step act s) /\ placeholdersApart (step act s).
Proof.
  intros V I ND.
  assert (Q : quiet s (step act s) ->
              placeholdersLogged (log ++ minted act s) (step act s) /\
              placeholdersShow (step act s) /\ placeholdersApart (step act s))
    by (intros Hq; exact (quiet_keeps _ _ _ _ Hq I)).
  destruct act; try (apply Q; apply quiet_same; reflexivity).
  - apply Q. apply callSend_quiet.
  - destruct (nth_error (sends s) i) as [x|] eqn:Hx.
    + destruct (resume_quiet ev x (app s))
        as [(now & P & ->) | [(mid & acc & f & P & ->) | [Hx' Hm]]].
      * assert (M : minted (Resume i (StreamOpened now)) s
                    = [MintMessage (Send.sessionId x) KModel now])
          by (simpl; rewrite Hx; unfold mintedBy; now rewrite P).
        rewrite M in *. apply (opened_keeps log s i x now Hx P V I).
        rewrite messageMints_app in ND. simpl in ND.
        apply NoDup_remove_2 in ND. now rewrite app_nil_r in ND.
      * assert (M : minted (Resume i (Chunk f)) s = [])
          by (simpl; rewrite Hx; unfold mintedBy; now rewrite P).
        rewrite M, app_nil_r. exact (chunk_keeps log s i x mid acc f Hx P I).
      * apply Q. simpl. rewrite Hx.
        destruct (resume ev x (app s)) as [a' x'] eqn:R. simpl in Hx', Hm. split.
        -- intros j sid mid acc H.
           apply streamingAt_replaced in H as [(-> & Es & Ep) | [_ H]]; [|exact H].
           destruct Hx' as [-> | Hn]; [exists x; auto | now apply Hn in Ep].
        -- exact Hm.
    + apply Q. simpl. rewrite Hx. apply quiet_refl.
  - apply Q. apply quiet_same. simpl. unfold initEffect. now destruct (isNull _).
  - apply Q. apply quiet_same. simpl. now destruct r.
Qed.

Lemma run_placeholders acts : forall s log,
  idView (sessions (app s)) = replay log [] ->
  placeholdersLogged log s /\ placeholdersShow s /\ placeholdersApart s ->
  NoDup (messageMints (log ++ mintLog acts s)) ->
  placeholdersShow (run acts s) /\ placeholdersApart (run acts s).
Proof.
  induction acts as [|act acts IH]; intros s log V I ND; simpl; [tauto|].
  simpl in ND. rewrite app_assoc in ND.
  apply (IH (step act s) (log ++ minted act s)).
  - now rewrite step_idView, V, replay_app.
  - apply step_placeholders; [exact V | exact I |].
    rewrite messageMints_app in ND. now apply NoDup_app_remove_r in ND.
  - exact ND.
Qed.

(** X15. Concurrent streams do not mix.  In a run from the empty store in
    which no two messages of the same kind are minted for the same session
    id at the same clock reading, at every moment and whatever the
    interleaving of the sends, every message that carries the placeholder id
    of a streaming send, in a session with that send's session id, shows
    exactly the text that send has accumulated; and no two sends stream into
    the same placeholder. *)
Theorem streams_do_not_mix :
  forall (acts : list Action),
    NoDup (messageMints (mintLog acts initialSystem)) ->
    placeholdersShow (run acts initialSystem) /\
    placeholdersApart (run acts initialSystem).
Proof.
  intros acts ND. apply (run_placeholders acts initialSystem []); [reflexivity | | exact ND].
  repeat split.
  - intros i sid mid acc (x & Hx & _). destruct i; discriminate.
  - intros i sid mid acc ses m _ [].
  - intros i j sid mid acc acc' (x & Hx & _). destruct i; discriminate.
Qed.

Lemma streams_do_not_mix_witness :
  NoDup (messageMints (mintLog twoStreams initialSystem)) /\
  placeholdersShow (run twoStreams initialSystem) /\
  map ChatMessage.text
    (messagesOf "session-1" (sessions (app (run twoStreams initialSystem))))
  = ["Define molarity"; "Moles per litre."; "Define pH"; "Minus log of [H+]."].
Proof.
  assert (H : NoDup (messageMints (mintLog twoStreams initialSystem))).
  { vm_compute. repeat constructor; simpl; intuition discriminate. }
  split; [exact H|]. split; [|reflexivity].
  exact (proj1 (streams_do_not_mix twoStreams H)).
Defined.
